(** * Blackjack simulators: a shallow embedding of [Blackjack/blackjack.py]

    The file embeds the two simulators of the repository, the infinite-deck
    [BlackjackEnv] and the finite-shoe [MyBlackjackEnv] built on [Deck],
    together with the hand-scoring functions they share, and proves the
    properties of the specification about them.

    Modelling choices.
    - Card values, hand totals, actions and histogram counts are Python
      integers: [Z].
    - Rewards are Python floats.  Every reward the program computes is one of
      -2, -1, 0, 1, 1.5, 2, 3, all of them dyadic and exactly representable,
      and the only arithmetic on them is a subtraction of 0/1 values and a
      multiplication by 2, which is exact.  They are modelled as rationals
      [Q], compared with [Qeq].
    - The random generators are oracles: a tape of natural numbers read at a
      moving position.  [randint(0, n)] returns the next tape entry modulo
      [n], [choice(deck)] the deck entry at the next tape entry modulo
      [len(deck)]; every value the real generator can return is the answer
      for some tape.
    - Methods mutate their object and may raise: they are computations in a
      state-and-exception monad whose state survives a raise.
    - The dealer's [while] loop runs on fuel; running out of fuel is an
      outcome of the model only, and the theorems show how much is enough. *)

From Stdlib Require Import ZArith QArith List Lia Bool.
From stdpp Require Import base list.
Import ListNotations.

Open Scope Z_scope.

(** ** Python built-ins used by the program *)

(** [sum(hand)]: a left fold starting from 0. *)
Definition sum (hand : list Z) : Z := fold_left Z.add hand 0.

(** [x in hand]. *)
Definition contains (x : Z) (hand : list Z) : bool := existsb (Z.eqb x) hand.

(** [float(b)] for a boolean. *)
Definition float (b : bool) : Q := if b then 1%Q else 0%Q.

(** [sorted(hand)], as an insertion sort; the program only compares its
    result with a literal list. *)
Fixpoint insert_sorted (x : Z) (l : list Z) : list Z :=
  match l with
  | [] => [x]
  | y :: l' => if x <=? y then x :: l else y :: insert_sorted x l'
  end.

Definition sorted (hand : list Z) : list Z := fold_right insert_sorted [] hand.

(** [==] on lists of integers. *)
Fixpoint list_eqb (a b : list Z) : bool :=
  match a, b with
  | [], [] => true
  | x :: a', y :: b' => (x =? y) && list_eqb a' b'
  | _, _ => false
  end.

(** ** Module-level functions of blackjack.py *)

Definition cmp (a b : Z) : Q := (float (a >? b) - float (a <? b))%Q.

Definition deck : list Z := [1; 2; 3; 4; 5; 6; 7; 8; 9; 10; 10; 10; 10].

Definition usable_ace (hand : list Z) : bool :=
  contains 1 hand && (sum hand + 10 <=? 21).

Definition sum_hand (hand : list Z) : Z :=
  if usable_ace hand then sum hand + 10 else sum hand.

Definition is_bust (hand : list Z) : bool := sum_hand hand >? 21.

Definition score (hand : list Z) : Z :=
  if is_bust hand then 0 else sum_hand hand.

Definition is_natural (hand : list Z) : bool := list_eqb (sorted hand) [1; 10].

(** A card value: an integer from 1 (the ace) to 10. *)
Definition valid_card (c : Z) : Prop := 1 <= c <= 10.

(** ** Python list indexing

    [l[i]] for an integer [i]: a negative index counts from the end, and an
    index outside [-len(l), len(l))] raises IndexError. *)
Definition py_index (len : nat) (i : Z) : option nat :=
  if (0 <=? i) && (i <? Z.of_nat len) then Some (Z.to_nat i)
  else if (- Z.of_nat len <=? i) && (i <? 0) then Some (Z.to_nat (Z.of_nat len + i))
  else None.

(** [[x for x in range(lo, hi)]]. *)
Definition range (lo hi : Z) : list Z :=
  map (fun k => lo + Z.of_nat k) (seq 0 (Z.to_nat (hi - lo))).

(** [l * n]: [n] copies of [l], one after the other. *)
Definition list_mul {A : Type} (l : list A) (n : nat) : list A := concat (repeat l n).

(** ** Outcomes, and the monad of methods that mutate and may raise *)

Inductive exn : Type :=
| AssertionError
| UnboundLocalError
| IndexError
| ValueError
| OutOfFuel.  (* the model's loop bound was reached; not a Python exception *)

Inductive outcome (A : Type) : Type :=
| Ok (a : A)
| Raise (e : exn).
Arguments Ok {A} a.
Arguments Raise {A} e.

Definition M (S A : Type) : Type := S -> outcome A * S.

Definition ret {S A : Type} (a : A) : M S A := fun s => (Ok a, s).

Definition raise {S A : Type} (e : exn) : M S A := fun s => (Raise e, s).

Definition bind {S A B : Type} (m : M S A) (k : A -> M S B) : M S B :=
  fun s =>
    match m s with
    | (Ok a, s') => k a s'
    | (Raise e, s') => (Raise e, s')
    end.

Definition gets {S A : Type} (f : S -> A) : M S A := fun s => (Ok (f s), s).

Definition modify {S : Type} (f : S -> S) : M S unit := fun s => (Ok tt, f s).

Declare Scope py_scope.
Delimit Scope py_scope with py.
Notation "x <- m ;; k" := (bind m (fun x => k))
  (at level 20, m at level 99, k at level 200, only parsing) : py_scope.
Notation "' pat <- m ;; k" := (bind m (fun pat => k))
  (at level 20, pat pattern, m at level 99, k at level 200, only parsing) : py_scope.
Notation "m ;; k" := (bind m (fun _ => k))
  (at level 100, k at level 200, only parsing, right associativity) : py_scope.
Open Scope py_scope.

(** Reading a local variable that some branches leave unassigned. *)
Definition load {S A : Type} (local : option A) : M S A :=
  match local with
  | Some v => ret v
  | None => raise UnboundLocalError
  end.

(** [while cond: body], with the locals the body reassigns threaded as [a]. *)
Fixpoint while {S A : Type} (fuel : nat) (cond : S -> bool) (body : A -> M S A)
    (a : A) : M S A :=
  fun s =>
    if cond s then
      match fuel with
      | O => (Raise OutOfFuel, s)
      | S fuel' => bind (body a) (while fuel' cond body) s
      end
    else (Ok a, s).

(** [for i in range(n): body], with the locals the body reassigns threaded. *)
Fixpoint for_range {S A : Type} (n : nat) (body : A -> M S A) (a : A) : M S A :=
  match n with
  | O => ret a
  | S n' => a' <- body a;; for_range n' body a'
  end.

(** ** The random generators *)

Record RandomState : Type := { tape : nat -> nat; pos : nat }.

Definition next_random (r : RandomState) : nat * RandomState :=
  (tape r (pos r), {| tape := tape r; pos := S (pos r) |}).

(** [np_random.choice(population)]. *)
Definition choice (population : list Z) (r : RandomState) : Z * RandomState :=
  let (k, r') := next_random r in
  (nth (k mod length population) population 0, r').

Definition draw_card (np_random : RandomState) : Z * RandomState :=
  choice deck np_random.

Definition draw_hand (np_random : RandomState) : list Z * RandomState :=
  let (c1, r1) := draw_card np_random in
  let (c2, r2) := draw_card r1 in
  ([c1; c2], r2).

(** [spaces.Discrete(n).contains(x)] of the gym library, for an integer [x]. *)
Definition Discrete_contains (n x : Z) : bool := (0 <=? x) && (x <? n).

(** An observation: the player's total, the dealer's first card, and whether
    the player holds a usable ace. *)
Definition observation : Type := Z * Z * bool.

(** ** The infinite-deck simulator *)

Module BlackjackEnv.

Record t : Type := {
  natural : bool;
  double : bool;
  player : list Z;
  dealer : list Z;
  np_random : RandomState
}.

Definition set_player (p : list Z) (s : t) : t :=
  {| natural := natural s; double := double s; player := p;
     dealer := dealer s; np_random := np_random s |}.

Definition set_dealer (d : list Z) (s : t) : t :=
  {| natural := natural s; double := double s; player := player s;
     dealer := d; np_random := np_random s |}.

Definition set_np_random (r : RandomState) (s : t) : t :=
  {| natural := natural s; double := double s; player := player s;
     dealer := dealer s; np_random := r |}.

(** [spaces.Discrete(3) if double else spaces.Discrete(3)] *)
Definition action_space (s : t) : Z := if double s then 3 else 3.

(** [draw_card(self.np_random)] *)
Definition draw : M t Z :=
  fun s => let (c, r) := draw_card (np_random s) in (Ok c, set_np_random r s).

Definition get_obs : M t observation :=
  fun s =>
    match dealer s with
    | [] => (Raise IndexError, s)
    | upcard :: _ => (Ok (sum_hand (player s), upcard, usable_ace (player s)), s)
    end.

Definition dealer_below_17 (s : t) : bool := sum_hand (dealer s) <? 17.

Definition dealer_draws (_ : unit) : M t unit :=
  c <- draw;; modify (fun s => set_dealer (dealer s ++ [c]) s).

Definition step (fuel : nat) (action : Z) : M t (observation * Q * bool * unit) :=
  ok <- gets (fun s => Discrete_contains (action_space s) action);;
  (if ok then ret tt else raise AssertionError);;
  '(reward, done) <-
    (if action =? 1 then
       c <- draw;;
       modify (fun s => set_player (player s ++ [c]) s);;
       p <- gets player;;
       if is_bust p then ret (Some (-1)%Q, Some true)
       else ret (Some 0%Q, Some false)
     else if action =? 0 then
       while fuel dealer_below_17 dealer_draws tt;;
       p <- gets player;;
       d <- gets dealer;;
       nat <- gets natural;;
       let reward := cmp (score p) (score d) in
       let reward :=
         if nat && is_natural p && Qeq_bool reward 1 then (3 # 2)%Q else reward in
       ret (Some reward, Some true)
     else if action =? 2 then
       c <- draw;;
       modify (fun s => set_player (player s ++ [c]) s);;
       while fuel dealer_below_17 dealer_draws tt;;
       p <- gets player;;
       d <- gets dealer;;
       nat <- gets natural;;
       let reward := cmp (score p) (score d) in
       let reward :=
         if nat && is_natural p && Qeq_bool reward 1 then (3 # 2)%Q else reward in
       let reward := (reward * 2)%Q in
       ret (Some reward, Some true)
     else ret (None, None));;
  obs <- get_obs;;
  reward <- load reward;;
  done <- load done;;
  ret (obs, reward, done, tt).

Definition reset : M t observation :=
  modify (fun s =>
    let (d, r) := draw_hand (np_random s) in set_np_random r (set_dealer d s));;
  modify (fun s =>
    let (p, r) := draw_hand (np_random s) in set_np_random r (set_player p s));;
  get_obs.

(** [__init__]: the constructor ends with a [reset()]. *)
Definition init (natural double : bool) (seeded : RandomState) : t :=
  snd (reset {| natural := natural; double := double; player := [];
                dealer := []; np_random := seeded |}).

End BlackjackEnv.

(** ** The finite shoe *)

Module Deck.

(** [np_random] is numpy's module-level generator, which only [draw]
    reads.  [history] is a history variable: the results [draw] has
    returned so far, oldest first; no code reads it. *)
Record t : Type := {
  cards : list Z;
  np_random : RandomState;
  history : list (Z * bool)
}.

Definition set_cards (c : list Z) (d : t) : t :=
  {| cards := c; np_random := np_random d; history := history d |}.

(** [np.random.randint(low, high)]: ValueError unless [low < high]. *)
Definition randint (low high : Z) : M t Z :=
  fun d =>
    if low <? high then
      let (k, r) := next_random (np_random d) in
      (Ok (low + Z.of_nat k mod (high - low)),
       {| cards := cards d; np_random := r; history := history d |})
    else (Raise ValueError, d).

Definition record (e : Z * bool) : M t unit :=
  modify (fun d => {| cards := cards d; np_random := np_random d;
                      history := history d ++ [e] |}).

Definition reset : M t unit :=
  modify (set_cards (list_mul (range 1 11) 4));;
  modify (fun d => set_cards (cards d ++ list_mul [10] (4 * 3)) d).

(** [self.cards[n]] *)
Definition getitem (n : Z) : M t Z :=
  fun d =>
    match py_index (length (cards d)) n with
    | Some i =>
        match cards d !! i with
        | Some c => (Ok c, d)
        | None => (Raise IndexError, d)
        end
    | None => (Raise IndexError, d)
    end.

(** [del self.cards[n]] *)
Definition delitem (n : Z) : M t unit :=
  fun d =>
    match py_index (length (cards d)) n with
    | Some i => (Ok tt, set_cards (delete i (cards d)) d)
    | None => (Raise IndexError, d)
    end.

Definition draw : M t (Z * bool) :=
  let reseted := false in
  len <- gets (fun d => length (cards d));;
  n <- randint 0 (Z.of_nat len);;
  card <- getitem n;;
  delitem n;;
  len <- gets (fun d => length (cards d));;
  reseted <- (if (len =? 0)%nat then reset;; ret true else ret reseted);;
  record (card, reseted);;
  ret (card, reseted).

(** [__init__] *)
Definition init (generator : RandomState) : t :=
  snd (reset {| cards := []; np_random := generator; history := [] |}).

End Deck.

(** ** The finite-deck simulator *)

Module MyBlackjackEnv.

Record t : Type := {
  deck : Deck.t;
  natural : bool;
  player : list Z;
  dealer : list Z;
  cards : list Z
}.

Definition set_deck (d : Deck.t) (s : t) : t :=
  {| deck := d; natural := natural s; player := player s;
     dealer := dealer s; cards := cards s |}.

Definition set_player (p : list Z) (s : t) : t :=
  {| deck := deck s; natural := natural s; player := p;
     dealer := dealer s; cards := cards s |}.

Definition set_dealer (d : list Z) (s : t) : t :=
  {| deck := deck s; natural := natural s; player := player s;
     dealer := d; cards := cards s |}.

Definition set_cards (c : list Z) (s : t) : t :=
  {| deck := deck s; natural := natural s; player := player s;
     dealer := dealer s; cards := c |}.

(** [__init__] *)
Definition init (natural : bool) (generator : RandomState) : t :=
  {| deck := Deck.init generator; natural := natural; player := [];
     dealer := []; cards := [] |}.

(** [self.deck.draw()] *)
Definition deck_draw : M t (Z * bool) :=
  fun s => let (r, d) := Deck.draw (deck s) in (r, set_deck d s).

Definition get_obs : M t observation :=
  fun s =>
    match dealer s with
    | [] => (Raise IndexError, s)
    | upcard :: _ => (Ok (sum_hand (player s), upcard, usable_ace (player s)), s)
    end.

Definition dealer_below_17 (s : t) : bool := sum_hand (dealer s) <? 17.

(** The body of the dealer's loop in the stick branch (lines 171-176):
    the card joins the dealer's hand before the reshuffle test. *)
Definition dealer_draws_stick (reseted : bool) : M t bool :=
  '(card, reseted_) <- deck_draw;;
  modify (fun s => set_cards (cards s ++ [card]) s);;
  modify (fun s => set_dealer (dealer s ++ [card]) s);;
  if reseted_ : bool then modify (set_cards []);; ret true else ret reseted.

(** The body of the dealer's loop in the double branch (lines 190-195) and
    of the dealer's loop of reset (lines 212-217): the card joins the
    dealer's hand after the reshuffle test. *)
Definition dealer_draws (reseted : bool) : M t bool :=
  '(card, reseted_) <- deck_draw;;
  modify (fun s => set_cards (cards s ++ [card]) s);;
  reseted <- (if reseted_ : bool then modify (set_cards []);; ret true
              else ret reseted);;
  modify (fun s => set_dealer (dealer s ++ [card]) s);;
  ret reseted.

(** The draw for the player: lines 156-161 of the hit branch, 182-187 of
    the double branch, and the body of the player's loop of reset
    (lines 219-224). *)
Definition player_draws (reseted : bool) : M t bool :=
  '(card, reseted_) <- deck_draw;;
  modify (fun s => set_cards (cards s ++ [card]) s);;
  reseted <- (if reseted_ : bool then modify (set_cards []);; ret true
              else ret reseted);;
  modify (fun s => set_player (player s ++ [card]) s);;
  ret reseted.

Definition step (fuel : nat) (action : Z) : M t (observation * Q * bool * bool) :=
  let reseted := false in
  '(reward, done, reseted) <-
    (if action =? 1 then
       reseted <- player_draws reseted;;
       p <- gets player;;
       if is_bust p then ret (Some (-1)%Q, Some true, reseted)
       else ret (Some 0%Q, Some false, reseted)
     else if action =? 0 then
       reseted <- while fuel dealer_below_17 dealer_draws_stick reseted;;
       p <- gets player;;
       d <- gets dealer;;
       nat <- gets natural;;
       let reward := cmp (score p) (score d) in
       let reward :=
         if nat && is_natural p && Qeq_bool reward 1 then (3 # 2)%Q else reward in
       ret (Some reward, Some true, reseted)
     else if action =? 2 then
       reseted <- player_draws reseted;;
       reseted <- while fuel dealer_below_17 dealer_draws reseted;;
       p <- gets player;;
       d <- gets dealer;;
       nat <- gets natural;;
       let reward := cmp (score p) (score d) in
       let reward :=
         if nat && is_natural p && Qeq_bool reward 1 then (3 # 2)%Q else reward in
       let reward := (reward * 2)%Q in
       ret (Some reward, Some true, reseted)
     else ret (None, None, reseted));;
  obs <- get_obs;;
  reward <- load reward;;
  done <- load done;;
  ret (obs, reward, done, reseted).

Definition reset : M t (observation * Z * bool * bool) :=
  let reseted := false in
  modify (set_player []);;
  modify (set_dealer []);;
  reseted <- for_range 2 dealer_draws reseted;;
  reseted <- for_range 2 player_draws reseted;;
  obs <- get_obs;;
  ret (obs, 0, false, reseted).

(** [index[card-1] += 1] *)
Definition bump (index : list Z) (card : Z) : outcome (list Z) :=
  match py_index (length index) (card - 1) with
  | Some i =>
      match index !! i with
      | Some count => Ok (<[i := count + 1]> index)
      | None => Raise IndexError
      end
  | None => Raise IndexError
  end.

Fixpoint count_cards (cs : list Z) (index : list Z) : outcome (list Z) :=
  match cs with
  | [] => Ok index
  | card :: cs' =>
      match bump index card with
      | Ok index' => count_cards cs' index'
      | Raise e => Raise e
      end
  end.

Definition cards_to_index (s : t) : outcome (list Z) :=
  count_cards (cards s) (repeat 0 10).

End MyBlackjackEnv.

(** ** Notions the properties are stated with *)

(** How often the value [v] occurs in a list of cards. *)
Definition count (v : Z) (l : list Z) : Z := Z.of_nat (count_occ Z.eq_dec l v).

(** The histogram of a list of cards: entry [v-1] counts the value [v]. *)
Definition histogram (l : list Z) : list Z := map (fun v => count v l) (range 1 11).

(** The longest suffix of a draw history in which no draw reshuffled: the
    draws made after the most recent reshuffling draw. *)
Fixpoint since_reshuffle (h : list (Z * bool)) : list (Z * bool) :=
  match h with
  | [] => []
  | e :: h' => if existsb snd (e :: h') then since_reshuffle h' else e :: h'
  end.

(** The cards drawn after the most recent reshuffling draw. *)
Definition exposure (h : list (Z * bool)) : list Z := map fst (since_reshuffle h).

(** The suffix of a draw history that starts with the most recent
    reshuffling draw, that draw included. *)
Fixpoint from_reshuffle (h : list (Z * bool)) : list (Z * bool) :=
  match h with
  | [] => []
  | e :: h' => if existsb snd h' then from_reshuffle h' else e :: h'
  end.

(** A shoe that [Deck.draw] can serve: it holds a card, and only card values. *)
Definition shoe_ok (d : Deck.t) : Prop :=
  Deck.cards d <> [] /\ Forall valid_card (Deck.cards d).

(** The composition of a full shoe: four of each value 1..9, sixteen tens. *)
Definition full_shoe_count (v : Z) : Z :=
  if (1 <=? v) && (v <=? 9) then 4 else if v =? 10 then 16 else 0.

(** [n] calls of [Deck.draw] in a row, with their results. *)
Fixpoint draws (n : nat) : M Deck.t (list (Z * bool)) :=
  match n with
  | O => ret []
  | S n' => e <- Deck.draw;; es <- draws n';; ret (e :: es)
  end.

(** The states of the finite-deck simulator a client can reach: a new
    environment, and whatever [reset] and [step] leave behind, whether they
    return or raise. *)
Inductive reachable : MyBlackjackEnv.t -> Prop :=
| reachable_init (natural : bool) (generator : RandomState) :
    reachable (MyBlackjackEnv.init natural generator)
| reachable_reset (s : MyBlackjackEnv.t) :
    reachable s -> reachable (snd (MyBlackjackEnv.reset s))
| reachable_step (s : MyBlackjackEnv.t) (fuel : nat) (action : Z) :
    reachable s -> reachable (snd (MyBlackjackEnv.step fuel action s)).

(** [n] calls of [reset()] in a row. *)
Fixpoint resets (n : nat) (s : MyBlackjackEnv.t) : MyBlackjackEnv.t :=
  match n with
  | O => s
  | S n' => resets n' (snd (MyBlackjackEnv.reset s))
  end.

(** The sign of the score difference, as a reward. *)
Definition sign_reward (p d : list Z) : Q := inject_Z (Z.sgn (score p - score d)).

(** The reward of a stick: the sign of the score difference, or 1.5 for a
    winning natural when naturals pay. *)
Definition stick_reward (natural : bool) (p d : list Z) : Q :=
  if natural && is_natural p && (score p >? score d) then (3 # 2)%Q
  else sign_reward p d.

(** A result with its reward doubled. *)
Definition doubled {I : Type} (o : outcome (observation * Q * bool * I)) :
    outcome (observation * Q * bool * I) :=
  match o with
  | Ok (obs, reward, done, info) => Ok (obs, (reward * 2)%Q, done, info)
  | Raise e => Raise e
  end.

(** The card the generator [r] yields on its [i]-th next call. *)
Definition coming_card (r : RandomState) (i : nat) : Z :=
  fst (draw_card {| tape := tape r; pos := pos r + i |}).

(** The infinite-deck simulator once the player has taken the next card. *)
Definition BlackjackEnv_after_player_draw (s : BlackjackEnv.t) : BlackjackEnv.t :=
  BlackjackEnv.set_player
    (BlackjackEnv.player s ++ [fst (draw_card (BlackjackEnv.np_random s))])
    (BlackjackEnv.set_np_random (snd (draw_card (BlackjackEnv.np_random s))) s).

(** The full shoe, as [Deck.reset] builds it. *)
Definition full_shoe : list Z := list_mul (range 1 11) 4 ++ list_mul [10] (4 * 3).

(** What the next [Deck.draw] does to a shoe that holds a card: the index
    the generator picks, the card at that index, whether the draw empties
    the shoe, and the shoe it leaves. *)
Definition next_index (d : Deck.t) : nat :=
  (tape (Deck.np_random d) (pos (Deck.np_random d)) mod length (Deck.cards d))%nat.

Definition next_card (d : Deck.t) : Z := nth (next_index d) (Deck.cards d) 0.

Definition reshuffles (d : Deck.t) : bool := (length (Deck.cards d) =? 1)%nat.

Definition Deck_after_draw (d : Deck.t) : Deck.t :=
  {| Deck.cards :=
       if reshuffles d then full_shoe else delete (next_index d) (Deck.cards d);
     Deck.np_random :=
       {| tape := tape (Deck.np_random d); pos := S (pos (Deck.np_random d)) |};
     Deck.history := Deck.history d ++ [(next_card d, reshuffles d)] |}.

(** The finite-deck simulator once a card is drawn and the exposure record
    is brought up to date, before the card joins a hand. *)
Definition MyBlackjackEnv_after_draw (s : MyBlackjackEnv.t) : MyBlackjackEnv.t :=
  MyBlackjackEnv.set_cards
    (if reshuffles (MyBlackjackEnv.deck s) then []
     else MyBlackjackEnv.cards s ++ [next_card (MyBlackjackEnv.deck s)])
    (MyBlackjackEnv.set_deck (Deck_after_draw (MyBlackjackEnv.deck s)) s).

Definition MyBlackjackEnv_after_player_draw (s : MyBlackjackEnv.t) : MyBlackjackEnv.t :=
  MyBlackjackEnv.set_player
    (MyBlackjackEnv.player s ++ [next_card (MyBlackjackEnv.deck s)])
    (MyBlackjackEnv_after_draw s).

Definition MyBlackjackEnv_after_dealer_draw (s : MyBlackjackEnv.t) : MyBlackjackEnv.t :=
  MyBlackjackEnv.set_dealer
    (MyBlackjackEnv.dealer s ++ [next_card (MyBlackjackEnv.deck s)])
    (MyBlackjackEnv_after_draw s).

(** What holds of the finite-deck simulator between calls: the shoe can
    serve a draw, and the exposure record holds card values, namely the cards
    drawn after the most recent reshuffling draw; together with the cards
    left in the shoe they make up a full shoe. *)
Definition consistent (s : MyBlackjackEnv.t) : Prop :=
  shoe_ok (MyBlackjackEnv.deck s)
  /\ Forall valid_card (MyBlackjackEnv.cards s)
  /\ MyBlackjackEnv.cards s = exposure (Deck.history (MyBlackjackEnv.deck s))
  /\ MyBlackjackEnv.cards s ++ Deck.cards (MyBlackjackEnv.deck s) ≡ₚ full_shoe.

(** The exposure record as the specification words it: the reshuffling
    draw's own card is the first entry of the restarted record. *)
Definition exposure_as_claimed : Prop :=
  forall s : MyBlackjackEnv.t,
    reachable s ->
    MyBlackjackEnv.cards_to_index s
    = Ok (histogram (map fst (from_reshuffle (Deck.history (MyBlackjackEnv.deck s))))).

(** A generator that always answers 0: every draw takes the first card. *)
Definition first_card_generator : RandomState := {| tape := fun _ => 0%nat; pos := 0 |}.

(** A generator that reads its answers from a list, and 0 past its end. *)
Definition scripted (answers : list nat) : RandomState :=
  {| tape := fun i => nth i answers 0%nat; pos := 0 |}.

(** A table of the infinite-deck simulator where naturals pay: the dealer
    holds two tens, the player an ace and a ten, and the next card is a 5. *)
Definition example_table : BlackjackEnv.t :=
  BlackjackEnv.init true false (scripted [9; 9; 0; 9; 4]%nat).

(** A table of the finite-deck simulator after its first reset, every draw
    taking the shoe's first card: the dealer holds 1 and 2, the player 3 and
    4, and the next cards are 5, 6, 7. *)
Definition example_shoe_table : MyBlackjackEnv.t :=
  snd (MyBlackjackEnv.reset (MyBlackjackEnv.init true first_card_generator)).

(** The finite-deck simulator after thirteen resets, every draw taking the
    shoe's first card: the 52nd draw has just emptied the shoe. *)
Definition reshuffled_shoe_table : MyBlackjackEnv.t :=
  resets 13 (MyBlackjackEnv.init false first_card_generator).

(** [self.observation_space.contains(obs)] for the space the constructor of
    [BlackjackEnv] declares, [Tuple((Discrete(32), Discrete(11),
    Discrete(2)))]; a boolean is always in [Discrete(2)]. *)
Definition observation_space_contains (obs : observation) : bool :=
  let '(total, upcard, _) := obs in
  Discrete_contains 32 total && Discrete_contains 11 upcard.

(** The infinite-deck simulator once the dealer has taken the next card. *)
Definition BlackjackEnv_after_dealer_draw (s : BlackjackEnv.t) : BlackjackEnv.t :=
  BlackjackEnv.set_dealer
    (BlackjackEnv.dealer s ++ [fst (draw_card (BlackjackEnv.np_random s))])
    (BlackjackEnv.set_np_random (snd (draw_card (BlackjackEnv.np_random s))) s).

(** The states of the infinite-deck simulator a client can reach: a new
    environment, and whatever [reset] and [step] leave behind. *)
Inductive BlackjackEnv_reachable : BlackjackEnv.t -> Prop :=
| BlackjackEnv_reachable_init (natural double : bool) (seeded : RandomState) :
    BlackjackEnv_reachable (BlackjackEnv.init natural double seeded)
| BlackjackEnv_reachable_reset (s : BlackjackEnv.t) :
    BlackjackEnv_reachable s -> BlackjackEnv_reachable (snd (BlackjackEnv.reset s))
| BlackjackEnv_reachable_step (s : BlackjackEnv.t) (fuel : nat) (action : Z) :
    BlackjackEnv_reachable s ->
    BlackjackEnv_reachable (snd (BlackjackEnv.step fuel action s)).

(** The states of the finite-deck simulator once it has been reset: what a
    [reset] of a reachable state leaves, and what [reset] and [step] make of
    that. *)
Inductive in_play : MyBlackjackEnv.t -> Prop :=
| in_play_first (s : MyBlackjackEnv.t) :
    reachable s -> in_play (snd (MyBlackjackEnv.reset s))
| in_play_step (s : MyBlackjackEnv.t) (fuel : nat) (action : Z) :
    in_play s -> in_play (snd (MyBlackjackEnv.step fuel action s)).

(** Two hands have been dealt: each holds at least two cards, and only card
    values. *)
Definition dealt (player dealer : list Z) : Prop :=
  Forall valid_card player /\ Forall valid_card dealer
  /\ (2 <= length player)%nat /\ (2 <= length dealer)%nat.

(** The exposure record after the draws [evs], made in that order. *)
Definition exposure_after (record : list Z) (evs : list (Z * bool)) : list Z :=
  fold_left (fun acc e => if snd e : bool then [] else acc ++ [fst e]) evs record.


(** A table of the infinite-deck simulator where the dealer has to draw: the
    dealer holds 10 and 6, the player 10 and 9, and the next card is a 4. *)
Definition example_low_table : BlackjackEnv.t :=
  BlackjackEnv.init true false (scripted [9; 5; 9; 8; 3]%nat).

(** A computation keeps a property of the state, whatever its outcome. *)
Definition preserves {S A : Type} (I : S -> Prop) (m : M S A) : Prop :=
  forall s, I s -> I (snd (m s)).

Arguments draw_card : simpl never.
Arguments count : simpl never.
Arguments sum : simpl never.
Arguments next_card : simpl never.
Arguments reshuffles : simpl never.
Arguments next_index : simpl never.
Arguments full_shoe : simpl never.
Arguments is_bust : simpl never.
Arguments score : simpl never.
Arguments sum_hand : simpl never.
Arguments usable_ace : simpl never.
Arguments is_natural : simpl never.
Arguments cmp : simpl never.
Arguments Qeq_bool : simpl never.
Arguments Qmult : simpl never.

(** ** Facts about the built-ins and the scoring functions *)

Lemma fold_left_add_shift (l : list Z) (a : Z) :
  fold_left Z.add l a = a + fold_left Z.add l 0.
Proof.
  revert a. induction l as [|x l IH]; intros a; simpl.
  - lia.
  - rewrite (IH (a + x)), (IH (0 + x)). lia.
Qed.

Lemma sum_nil : sum [] = 0.
Proof. reflexivity. Qed.

Lemma sum_cons (x : Z) (l : list Z) : sum (x :: l) = x + sum l.
Proof. unfold sum. simpl. apply fold_left_add_shift. Qed.

Lemma sum_app (l1 l2 : list Z) : sum (l1 ++ l2) = sum l1 + sum l2.
Proof.
  induction l1 as [|x l1 IH]; simpl.
  - rewrite sum_nil. lia.
  - rewrite !sum_cons, IH. lia.
Qed.

Lemma sum_snoc (l : list Z) (c : Z) : sum (l ++ [c]) = sum l + c.
Proof. rewrite sum_app, sum_cons, sum_nil. lia. Qed.

(** Python's left fold and the usual right fold agree. *)
Lemma sum_foldr (l : list Z) : sum l = foldr Z.add 0 l.
Proof. induction l as [|x l IH]; [reflexivity|]. rewrite sum_cons, IH. reflexivity. Qed.

Lemma contains_In (x : Z) (l : list Z) : contains x l = true <-> In x l.
Proof.
  unfold contains. rewrite existsb_exists. split.
  - intros (y & Hy & E). apply Z.eqb_eq in E. now subst.
  - intros H. exists x. split; [assumption|apply Z.eqb_refl].
Qed.

Lemma sum_hand_ge_sum (l : list Z) : sum l <= sum_hand l.
Proof. unfold sum_hand. destruct (usable_ace l); lia. Qed.

Lemma sum_hand_nil : sum_hand [] = 0.
Proof. reflexivity. Qed.

Lemma length_insert_sorted (x : Z) (l : list Z) :
  length (insert_sorted x l) = S (length l).
Proof.
  induction l as [|y l IH]; simpl; [reflexivity|].
  destruct (x <=? y); simpl; [reflexivity|now rewrite IH].
Qed.

Lemma length_sorted (l : list Z) : length (sorted l) = length l.
Proof.
  induction l as [|x l IH]; simpl; [reflexivity|].
  now rewrite length_insert_sorted, IH.
Qed.

Lemma list_eqb_length (a b : list Z) : list_eqb a b = true -> length a = length b.
Proof.
  revert b. induction a as [|x a IH]; intros [|y b]; simpl; try discriminate.
  - reflexivity.
  - intros H. apply andb_prop in H as [_ H]. now rewrite (IH b H).
Qed.

(** A natural has exactly two cards. *)
Lemma is_natural_length (hand : list Z) : is_natural hand = true -> length hand = 2%nat.
Proof.
  unfold is_natural. intros H. apply list_eqb_length in H.
  now rewrite length_sorted in H.
Qed.

Lemma cmp_cases (a b : Z) :
  (a > b /\ cmp a b = 1%Q) \/ (a = b /\ cmp a b = 0%Q) \/ (a < b /\ cmp a b = (-1)%Q).
Proof.
  unfold cmp.
  destruct (Z.gtb_spec a b) as [Hgt|Hgt], (Z.ltb_spec a b) as [Hlt|Hlt]; try lia.
  - left. split; [lia|reflexivity].
  - right; right. split; [lia|reflexivity].
  - right; left. split; [lia|reflexivity].
Qed.

Lemma deck_valid : Forall valid_card deck.
Proof. unfold deck, valid_card. repeat constructor; lia. Qed.

Lemma draw_card_valid (r : RandomState) : valid_card (fst (draw_card r)).
Proof.
  change (valid_card (nth (tape r (pos r) mod length deck) deck 0)).
  pose proof deck_valid as Hd. rewrite Forall_forall in Hd.
  apply Hd, list_elem_of_In, nth_In.
  apply Nat.mod_upper_bound. discriminate.
Qed.

Lemma draw_card_snd (r : RandomState) :
  snd (draw_card r) = {| tape := tape r; pos := S (pos r) |}.
Proof. reflexivity. Qed.

(** ** The scoring functions *)

(** C6: for every hand (so for every non-empty hand of card values),
    [is_bust] holds exactly when [sum_hand] exceeds 21, and [score] is 0 for
    a bust hand and [sum_hand] otherwise. *)
Theorem score_is_zero_exactly_when_bust (hand : list Z) :
  (is_bust hand = true <-> sum_hand hand > 21)
  /\ (is_bust hand = true -> score hand = 0)
  /\ (is_bust hand = false -> score hand = sum_hand hand).
Proof.
  unfold score, is_bust. repeat split.
  - intros H. apply Z.gtb_lt in H. lia.
  - intros H. apply Z.gtb_lt. lia.
  - intros ->. reflexivity.
  - intros ->. reflexivity.
Qed.

(** C7: for every hand, [usable_ace] holds exactly when the hand holds an
    ace and [sum(hand) + 10 <= 21]; [sum_hand] is [sum(hand) + 10] with a
    usable ace and [sum(hand)] without. *)
Theorem usable_ace_adds_ten (hand : list Z) :
  (usable_ace hand = true <-> In 1 hand /\ sum hand + 10 <= 21)
  /\ (usable_ace hand = true -> sum_hand hand = sum hand + 10)
  /\ (usable_ace hand = false -> sum_hand hand = sum hand).
Proof.
  unfold sum_hand, usable_ace. repeat split.
  - apply andb_prop in H as [H _]. now apply contains_In.
  - apply andb_prop in H as [_ H]. now apply Z.leb_le.
  - intros [Hin Hle]. apply andb_true_intro. split.
    + now apply contains_In.
    + now apply Z.leb_le.
  - intros ->. reflexivity.
  - intros ->. reflexivity.
Qed.

(** ** The infinite-deck simulator *)

Lemma coming_card_0 (r : RandomState) : coming_card r 0 = fst (draw_card r).
Proof. unfold coming_card. destruct r as [tp p]. simpl. now rewrite Nat.add_0_r. Qed.

Lemma coming_card_S (r : RandomState) (i : nat) :
  coming_card (snd (draw_card r)) i = coming_card r (S i).
Proof. unfold coming_card. simpl. now rewrite Nat.add_succ_r. Qed.

Lemma BlackjackEnv_dealer_draws_eq (s : BlackjackEnv.t) :
  BlackjackEnv.dealer_draws tt s =
  (Ok tt,
   BlackjackEnv.set_dealer
     (BlackjackEnv.dealer s ++ [fst (draw_card (BlackjackEnv.np_random s))])
     (BlackjackEnv.set_np_random (snd (draw_card (BlackjackEnv.np_random s))) s)).
Proof.
  unfold BlackjackEnv.dealer_draws, BlackjackEnv.draw, bind, modify.
  destruct (draw_card (BlackjackEnv.np_random s)); reflexivity.
Qed.

(** The dealer's loop of the infinite-deck simulator: with enough fuel it
    returns, having appended to the dealer's hand the cards [ds] it drew,
    and it drew each of them at a total below 17. *)
Lemma BlackjackEnv_dealer_loop (fuel : nat) :
  forall s : BlackjackEnv.t,
    17 - sum (BlackjackEnv.dealer s) <= Z.of_nat fuel ->
    exists ds s',
      while fuel BlackjackEnv.dealer_below_17 BlackjackEnv.dealer_draws tt s = (Ok tt, s')
      /\ BlackjackEnv.natural s' = BlackjackEnv.natural s
      /\ BlackjackEnv.double s' = BlackjackEnv.double s
      /\ BlackjackEnv.player s' = BlackjackEnv.player s
      /\ BlackjackEnv.dealer s' = BlackjackEnv.dealer s ++ ds
      /\ tape (BlackjackEnv.np_random s') = tape (BlackjackEnv.np_random s)
      /\ pos (BlackjackEnv.np_random s') = (pos (BlackjackEnv.np_random s) + length ds)%nat
      /\ (forall i c, ds !! i = Some c -> c = coming_card (BlackjackEnv.np_random s) i)
      /\ 17 <= sum_hand (BlackjackEnv.dealer s')
      /\ (forall k, (k < length ds)%nat ->
            sum_hand (BlackjackEnv.dealer s ++ take k ds) < 17).
Proof.
  induction fuel as [|fuel IH]; intros s Hfuel.
  - exists [], s. simpl.
    pose proof (sum_hand_ge_sum (BlackjackEnv.dealer s)) as Hge.
    unfold BlackjackEnv.dealer_below_17.
    destruct (Z.ltb_spec (sum_hand (BlackjackEnv.dealer s)) 17) as [Hlt|Hlt]; [lia|].
    rewrite app_nil_r, Nat.add_0_r.
    repeat split; try assumption. discriminate. simpl; lia.
  - cbn [while]. unfold BlackjackEnv.dealer_below_17 at 1.
    destruct (Z.ltb_spec (sum_hand (BlackjackEnv.dealer s)) 17) as [Hlt|Hlt].
    + unfold bind at 1. rewrite BlackjackEnv_dealer_draws_eq.
      set (c := fst (draw_card (BlackjackEnv.np_random s))).
      set (s1 := BlackjackEnv.set_dealer _ _).
      assert (Hc : valid_card c) by apply (draw_card_valid (BlackjackEnv.np_random s)).
      destruct (IH s1) as (ds & s' & Hrun & Hn & Hd & Hp & Hdl & Ht & Hpos & Hcards & Hfin & Hbelow).
      { subst s1. simpl. rewrite sum_snoc. unfold valid_card in Hc. lia. }
      exists (c :: ds), s'. subst s1. simpl in *.
      rewrite Hrun, Hdl, <- app_assoc. simpl.
      repeat split; try assumption.
      * rewrite Hpos. lia.
      * intros [|i] c' Hi.
        -- injection Hi as <-. now rewrite coming_card_0.
        -- simpl in Hi. rewrite (Hcards i c' Hi).
           apply (coming_card_S (BlackjackEnv.np_random s)).
      * now rewrite Hdl, <- app_assoc in Hfin.
      * intros [|k] Hk; simpl.
        -- now rewrite app_nil_r.
        -- specialize (Hbelow k ltac:(lia)). now rewrite <- app_assoc in Hbelow.
    + exists [], s. rewrite app_nil_r, Nat.add_0_r.
      repeat split; try assumption. discriminate. simpl; lia.
Qed.

Lemma cmp_sign (a b : Z) : cmp a b = inject_Z (Z.sgn (a - b)).
Proof.
  destruct (cmp_cases a b) as [[H ->]|[[H ->]|[H ->]]].
  - replace (Z.sgn (a - b)) with 1 by lia. reflexivity.
  - replace (Z.sgn (a - b)) with 0 by lia. reflexivity.
  - replace (Z.sgn (a - b)) with (-1) by lia. reflexivity.
Qed.

Lemma cmp_wins (a b : Z) : Qeq_bool (cmp a b) 1 = (a >? b).
Proof.
  destruct (cmp_cases a b) as [[H ->]|[[H ->]|[H ->]]];
    destruct (Z.gtb_spec a b); try lia; reflexivity.
Qed.

(** The reward both simulators compute after the dealer has played. *)
Lemma reward_is_stick_reward (natural : bool) (p d : list Z) :
  (if natural && is_natural p && Qeq_bool (cmp (score p) (score d)) 1
   then (3 # 2)%Q else cmp (score p) (score d))
  = stick_reward natural p d.
Proof. unfold stick_reward, sign_reward. now rewrite cmp_wins, cmp_sign. Qed.

Lemma sign_reward_cases (p d : list Z) :
  sign_reward p d = (-1)%Q \/ sign_reward p d = 0%Q \/ sign_reward p d = 1%Q.
Proof.
  unfold sign_reward.
  destruct (Z.sgn_spec (score p - score d)) as [[_ ->]|[[_ ->]|[_ ->]]]; auto.
Qed.

Lemma BlackjackEnv_action_space (s : BlackjackEnv.t) : BlackjackEnv.action_space s = 3.
Proof. unfold BlackjackEnv.action_space. now destruct (BlackjackEnv.double s). Qed.

Lemma sum_hand_17_nonempty (d : list Z) : 17 <= sum_hand d -> exists c d', d = c :: d'.
Proof. destruct d as [|c d']; [rewrite sum_hand_nil; lia|eauto]. Qed.

(** What a stick does in the infinite-deck simulator. *)
Lemma BlackjackEnv_stick_spec (fuel : nat) (s : BlackjackEnv.t) :
  17 - sum (BlackjackEnv.dealer s) <= Z.of_nat fuel ->
  exists ds upcard s',
    BlackjackEnv.step fuel 0 s =
      (Ok (sum_hand (BlackjackEnv.player s), upcard, usable_ace (BlackjackEnv.player s),
           stick_reward (BlackjackEnv.natural s) (BlackjackEnv.player s)
             (BlackjackEnv.dealer s'),
           true, tt), s')
    /\ head (BlackjackEnv.dealer s') = Some upcard
    /\ BlackjackEnv.natural s' = BlackjackEnv.natural s
    /\ BlackjackEnv.double s' = BlackjackEnv.double s
    /\ BlackjackEnv.player s' = BlackjackEnv.player s
    /\ BlackjackEnv.dealer s' = BlackjackEnv.dealer s ++ ds
    /\ tape (BlackjackEnv.np_random s') = tape (BlackjackEnv.np_random s)
    /\ pos (BlackjackEnv.np_random s') = (pos (BlackjackEnv.np_random s) + length ds)%nat
    /\ (forall i c, ds !! i = Some c -> c = coming_card (BlackjackEnv.np_random s) i)
    /\ 17 <= sum_hand (BlackjackEnv.dealer s')
    /\ (forall k, (k < length ds)%nat ->
          sum_hand (BlackjackEnv.dealer s ++ take k ds) < 17).
Proof.
  intros Hfuel.
  destruct (BlackjackEnv_dealer_loop fuel s Hfuel)
    as (ds & s' & Hrun & Hn & Hd & Hp & Hdl & Ht & Hpos & Hcards & Hfin & Hbelow).
  destruct (sum_hand_17_nonempty _ Hfin) as (upcard & rest & Hup).
  exists ds, upcard, s'.
  split; [|rewrite Hup; repeat split; try assumption; now rewrite <- Hup].
  unfold BlackjackEnv.step, bind at 1, gets at 1.
  rewrite BlackjackEnv_action_space.
  cbn [Discrete_contains Z.leb Z.ltb Z.compare andb Z.eqb].
  unfold bind, ret. cbn [Z.eqb]. rewrite Hrun.
  unfold gets, load, ret, BlackjackEnv.get_obs.
  rewrite Hup, reward_is_stick_reward, Hp, Hn, <- Hup. reflexivity.
Qed.

(** A double is the player's draw, then a stick with its reward doubled;
    this holds whatever the outcome. *)
Lemma BlackjackEnv_double_is_stick (fuel : nat) (s : BlackjackEnv.t) :
  BlackjackEnv.step fuel 2 s =
  let (o, s') := BlackjackEnv.step fuel 0 (BlackjackEnv_after_player_draw s) in
  (doubled o, s').
Proof.
  unfold BlackjackEnv.step, bind, gets, ret, modify, load, BlackjackEnv.draw.
  rewrite !BlackjackEnv_action_space.
  unfold BlackjackEnv_after_player_draw. cbn.
  destruct (draw_card (BlackjackEnv.np_random s)) as [c r]. cbn.
  destruct (while fuel _ _ tt _) as [[[]|e] s2]; cbn; [|reflexivity].
  unfold BlackjackEnv.get_obs.
  destruct (BlackjackEnv.dealer s2); reflexivity.
Qed.

(** What a hit does in the infinite-deck simulator. *)
Lemma BlackjackEnv_hit_spec (fuel : nat) (s : BlackjackEnv.t) (upcard : Z) :
  head (BlackjackEnv.dealer s) = Some upcard ->
  let s' := BlackjackEnv_after_player_draw s in
  BlackjackEnv.step fuel 1 s =
    (Ok (sum_hand (BlackjackEnv.player s'), upcard, usable_ace (BlackjackEnv.player s'),
         (if is_bust (BlackjackEnv.player s') then (-1)%Q else 0%Q),
         is_bust (BlackjackEnv.player s'), tt), s').
Proof.
  intros Hup s'. subst s'.
  unfold BlackjackEnv.step, bind, gets, ret, modify, load, BlackjackEnv.draw.
  rewrite BlackjackEnv_action_space.
  unfold BlackjackEnv_after_player_draw. cbn.
  destruct (draw_card (BlackjackEnv.np_random s)) as [c r]. cbn.
  destruct (BlackjackEnv.dealer s) as [|u rest] eqn:Hd; [discriminate|].
  injection Hup as ->.
  destruct (is_bust (BlackjackEnv.player s ++ [c]));
    unfold BlackjackEnv.get_obs; cbn; rewrite Hd; reflexivity.
Qed.

(** An action outside {0, 1, 2} fails the assertion and changes nothing. *)
Lemma BlackjackEnv_invalid_action (fuel : nat) (action : Z) (s : BlackjackEnv.t) :
  action <> 0 -> action <> 1 -> action <> 2 ->
  BlackjackEnv.step fuel action s = (Raise AssertionError, s).
Proof.
  intros H0 H1 H2.
  unfold BlackjackEnv.step, bind at 1, gets at 1.
  rewrite BlackjackEnv_action_space. unfold Discrete_contains.
  destruct (Z.leb_spec 0 action), (Z.ltb_spec action 3); try lia; reflexivity.
Qed.

(** ** The finite shoe *)

Lemma full_shoe_valid : Forall valid_card full_shoe.
Proof. unfold valid_card. vm_compute. repeat constructor; discriminate. Qed.

Lemma full_shoe_length : length full_shoe = 52%nat.
Proof. reflexivity. Qed.

Lemma count_not_in (v : Z) (l : list Z) : ~ In v l -> count v l = 0.
Proof. intros H. unfold count. now rewrite (proj1 (count_occ_not_In Z.eq_dec l v) H). Qed.

Lemma full_shoe_composition (v : Z) : count v full_shoe = full_shoe_count v.
Proof.
  destruct (Z_lt_le_dec v 1) as [Hlo|Hlo]; [|destruct (Z_lt_le_dec 10 v) as [Hhi|Hhi]].
  - rewrite count_not_in.
    + unfold full_shoe_count.
      destruct (Z.leb_spec 1 v); [lia|]. destruct (Z.eqb_spec v 10); [lia|reflexivity].
    + intros Hin. pose proof full_shoe_valid as Hv. rewrite Forall_forall in Hv.
      apply list_elem_of_In, Hv in Hin. unfold valid_card in Hin. lia.
  - rewrite count_not_in.
    + unfold full_shoe_count.
      destruct (Z.leb_spec v 9); [lia|]. rewrite andb_false_r.
      destruct (Z.eqb_spec v 10); [lia|reflexivity].
    + intros Hin. pose proof full_shoe_valid as Hv. rewrite Forall_forall in Hv.
      apply list_elem_of_In, Hv in Hin. unfold valid_card in Hin. lia.
  - assert (Hcases : v = 1 \/ v = 2 \/ v = 3 \/ v = 4 \/ v = 5 \/ v = 6 \/ v = 7
                     \/ v = 8 \/ v = 9 \/ v = 10) by lia.
    repeat (destruct Hcases as [->|Hcases]; [reflexivity|]). now subst v.
Qed.

Lemma Deck_reset_eq (d : Deck.t) :
  Deck.reset d =
  (Ok tt, {| Deck.cards := full_shoe; Deck.np_random := Deck.np_random d;
             Deck.history := Deck.history d |}).
Proof. reflexivity. Qed.

Lemma Deck_init_eq (g : RandomState) :
  Deck.init g = {| Deck.cards := full_shoe; Deck.np_random := g; Deck.history := [] |}.
Proof. reflexivity. Qed.

Lemma py_index_mod (len k : nat) :
  (0 < len)%nat ->
  py_index len (0 + Z.of_nat k mod (Z.of_nat len - 0)) = Some (k mod len)%nat.
Proof.
  intros Hlen. unfold py_index. rewrite Z.add_0_l, Z.sub_0_r.
  pose proof (Z.mod_pos_bound (Z.of_nat k) (Z.of_nat len) ltac:(lia)) as [Hlo Hhi].
  destruct (Z.leb_spec 0 (Z.of_nat k mod Z.of_nat len)); [|lia].
  destruct (Z.ltb_spec (Z.of_nat k mod Z.of_nat len) (Z.of_nat len)); [|lia].
  cbn [andb]. f_equal.
  rewrite <- Nat2Z.inj_mod. apply Nat2Z.id.
Qed.

Lemma next_index_lt (d : Deck.t) :
  Deck.cards d <> [] -> (next_index d < length (Deck.cards d))%nat.
Proof.
  intros Hne. apply Nat.mod_upper_bound.
  destruct (Deck.cards d); [contradiction|discriminate].
Qed.

Lemma next_card_lookup (d : Deck.t) :
  Deck.cards d <> [] -> Deck.cards d !! next_index d = Some (next_card d).
Proof.
  intros Hne. unfold next_card.
  destruct (nth_lookup_or_length (Deck.cards d) (next_index d) 0) as [H|H]; [exact H|].
  pose proof (next_index_lt d Hne). lia.
Qed.

(** A draw from a shoe that holds a card returns the card at the index the
    generator picks, and reports a reshuffle exactly when that was the last
    card; it leaves the shoe without that card, or refilled. *)
Lemma Deck_draw_eq (d : Deck.t) :
  Deck.cards d <> [] ->
  Deck.draw d = (Ok (next_card d, reshuffles d), Deck_after_draw d).
Proof.
  intros Hne.
  assert (Hlen : (0 < length (Deck.cards d))%nat).
  { destruct (Deck.cards d); [contradiction|simpl; lia]. }
  unfold Deck.draw, bind at 1, gets at 1.
  unfold bind at 1, Deck.randint.
  destruct (Z.ltb_spec 0 (Z.of_nat (length (Deck.cards d)))) as [_|]; [|lia].
  cbn [next_random].
  unfold bind at 1, Deck.getitem. cbn [Deck.cards].
  rewrite (py_index_mod _ _ Hlen).
  fold (next_index d). rewrite (next_card_lookup d Hne).
  unfold bind at 1, Deck.delitem. cbn [Deck.cards].
  rewrite (py_index_mod _ _ Hlen). fold (next_index d).
  unfold bind at 1, gets at 1. cbn [Deck.cards Deck.set_cards].
  rewrite length_delete by (rewrite (next_card_lookup d Hne); eauto).
  unfold Deck_after_draw, reshuffles.
  destruct (length (Deck.cards d)) as [|[|n]] eqn:El; [lia| |]; reflexivity.
Qed.

(** A draw from an empty shoe raises, and changes nothing. *)
Lemma Deck_draw_empty (d : Deck.t) :
  Deck.cards d = [] -> Deck.draw d = (Raise ValueError, d).
Proof. intros He. unfold Deck.draw, bind, gets, Deck.randint. now rewrite He. Qed.

Lemma next_card_valid (d : Deck.t) : shoe_ok d -> valid_card (next_card d).
Proof.
  intros [Hne Hv]. rewrite Forall_forall in Hv.
  apply Hv, list_elem_of_lookup. exists (next_index d). now apply next_card_lookup.
Qed.

Lemma Deck_after_draw_ok (d : Deck.t) : shoe_ok d -> shoe_ok (Deck_after_draw d).
Proof.
  intros [Hne Hv]. unfold shoe_ok, Deck_after_draw, reshuffles. cbn [Deck.cards].
  pose proof (next_index_lt d Hne) as Hlt.
  destruct (length (Deck.cards d) =? 1)%nat eqn:E.
  - split; [discriminate|apply full_shoe_valid].
  - apply Nat.eqb_neq in E. split.
    + intros Hd. apply (f_equal length) in Hd.
      rewrite length_delete in Hd by (rewrite (next_card_lookup d Hne); eauto).
      simpl in Hd. lia.
    + eapply Forall_forall. intros x Hx. rewrite Forall_forall in Hv. apply Hv.
      exact (list_subseteq_delete _ _ x Hx).
Qed.

Lemma Deck_after_draw_length (d : Deck.t) :
  Deck.cards d <> [] ->
  length (Deck.cards (Deck_after_draw d)) =
  if reshuffles d then 52%nat else (length (Deck.cards d) - 1)%nat.
Proof.
  intros Hne. unfold Deck_after_draw. cbn [Deck.cards].
  destruct (reshuffles d); [reflexivity|].
  apply length_delete. rewrite (next_card_lookup d Hne); eauto.
Qed.

Arguments Deck.draw : simpl never.

Lemma Deck_after_draw_nonempty (d : Deck.t) :
  Deck.cards d <> [] -> Deck.cards (Deck_after_draw d) <> [].
Proof.
  intros Hne Hd. apply (f_equal length) in Hd.
  rewrite (Deck_after_draw_length d Hne) in Hd. unfold reshuffles in Hd.
  destruct (Deck.cards d) as [|c [|c' l]]; [contradiction|discriminate|discriminate].
Qed.

Lemma draws_S (n : nat) (d : Deck.t) :
  Deck.cards d <> [] ->
  draws (S n) d =
  let (o, d') := draws n (Deck_after_draw d) in
  (match o with
   | Ok es => Ok ((next_card d, reshuffles d) :: es)
   | Raise e => Raise e
   end, d').
Proof.
  intros Hne. cbn [draws]. unfold bind at 1. rewrite (Deck_draw_eq d Hne).
  unfold bind, ret. destruct (draws n (Deck_after_draw d)) as [[es|e] d']; reflexivity.
Qed.

(** From a shoe of [n + 1] cards, [n] draws report no reshuffle and the next
    one does, leaving the shoe full. *)
Lemma draws_until_empty (n : nat) :
  forall d : Deck.t,
    length (Deck.cards d) = S n ->
    exists evs d',
      draws (S n) d = (Ok evs, d')
      /\ map snd evs = repeat false n ++ [true]
      /\ Deck.cards d' = full_shoe.
Proof.
  induction n as [|n IH]; intros d Hlen.
  - assert (Hne : Deck.cards d <> []) by (intros E; rewrite E in Hlen; discriminate).
    rewrite (draws_S 0 d Hne). cbn [draws]. unfold ret.
    assert (Hr : reshuffles d = true) by (unfold reshuffles; now rewrite Hlen).
    eexists _, _. split; [reflexivity|]. split.
    + simpl. now rewrite Hr.
    + unfold Deck_after_draw. cbn [Deck.cards]. now rewrite Hr.
  - assert (Hne : Deck.cards d <> []) by (intros E; rewrite E in Hlen; discriminate).
    assert (Hr : reshuffles d = false) by (unfold reshuffles; now rewrite Hlen).
    destruct (IH (Deck_after_draw d)) as (evs & d' & Hrun & Hflags & Hfull).
    { rewrite (Deck_after_draw_length d Hne), Hr, Hlen. lia. }
    rewrite (draws_S (S n) d Hne), Hrun.
    eexists _, _. split; [reflexivity|]. split; [|exact Hfull].
    cbn [map snd]. rewrite Hr, Hflags. reflexivity.
Qed.

(** Draws from a shoe that holds a card never fail, and leave a card. *)
Lemma draws_never_fail (n : nat) :
  forall d : Deck.t,
    Deck.cards d <> [] ->
    exists evs d',
      draws n d = (Ok evs, d') /\ length evs = n /\ Deck.cards d' <> [].
Proof.
  induction n as [|n IH]; intros d Hne.
  - exists [], d. repeat split. exact Hne.
  - destruct (IH (Deck_after_draw d) (Deck_after_draw_nonempty d Hne))
      as (evs & d' & Hrun & Hlen & Hne').
    rewrite (draws_S n d Hne), Hrun.
    eexists _, _. split; [reflexivity|]. split; [simpl; now rewrite Hlen|exact Hne'].
Qed.

(** C5: [Deck.reset()] leaves four cards of each value 1..9 and sixteen
    tens, 52 cards; from a full shoe the first 51 draws report no reshuffle
    and the 52nd reports one and leaves the shoe full again; a draw from a
    shoe that holds a card returns and leaves a card, so that no draw of a
    new deck, however many are made, fails. *)
Theorem shoe_refills_on_52nd_draw :
  (forall d : Deck.t,
     let d' := snd (Deck.reset d) in
     fst (Deck.reset d) = Ok tt
     /\ length (Deck.cards d') = 52%nat
     /\ forall v, count v (Deck.cards d') = full_shoe_count v)
  /\ (forall d : Deck.t,
        Deck.cards d = Deck.cards (snd (Deck.reset d)) ->
        exists evs d',
          draws 52 d = (Ok evs, d')
          /\ map snd evs = repeat false 51 ++ [true]
          /\ Deck.cards d' = Deck.cards (snd (Deck.reset d)))
  /\ (forall d : Deck.t,
        Deck.cards d <> [] ->
        exists card reseted d',
          Deck.draw d = (Ok (card, reseted), d') /\ Deck.cards d' <> [])
  /\ (forall (n : nat) (generator : RandomState),
        exists evs d',
          draws n (Deck.init generator) = (Ok evs, d')
          /\ length evs = n /\ Deck.cards d' <> []).
Proof.
  split; [|split; [|split]].
  - intros d d'. subst d'. rewrite Deck_reset_eq. cbn [fst snd Deck.cards].
    split; [reflexivity|]. split; [reflexivity|apply full_shoe_composition].
  - intros d Hfull. rewrite Deck_reset_eq in *. cbn [snd Deck.cards] in *.
    apply (draws_until_empty 51). now rewrite Hfull.
  - intros d Hne. rewrite (Deck_draw_eq d Hne).
    eexists _, _, _. split; [reflexivity|]. now apply Deck_after_draw_nonempty.
  - intros n g. apply draws_never_fail. rewrite Deck_init_eq. discriminate.
Qed.

(** ** The finite-deck simulator *)

Lemma player_draws_eq (reseted : bool) (s : MyBlackjackEnv.t) :
  Deck.cards (MyBlackjackEnv.deck s) <> [] ->
  MyBlackjackEnv.player_draws reseted s =
  (Ok (if reshuffles (MyBlackjackEnv.deck s) then true else reseted),
   MyBlackjackEnv_after_player_draw s).
Proof.
  intros Hne.
  unfold MyBlackjackEnv.player_draws, MyBlackjackEnv.deck_draw, bind, modify, ret.
  rewrite (Deck_draw_eq _ Hne).
  unfold MyBlackjackEnv_after_player_draw, MyBlackjackEnv_after_draw.
  destruct (reshuffles (MyBlackjackEnv.deck s)); reflexivity.
Qed.

Lemma dealer_draws_eq (reseted : bool) (s : MyBlackjackEnv.t) :
  Deck.cards (MyBlackjackEnv.deck s) <> [] ->
  MyBlackjackEnv.dealer_draws reseted s =
  (Ok (if reshuffles (MyBlackjackEnv.deck s) then true else reseted),
   MyBlackjackEnv_after_dealer_draw s).
Proof.
  intros Hne.
  unfold MyBlackjackEnv.dealer_draws, MyBlackjackEnv.deck_draw, bind, modify, ret.
  rewrite (Deck_draw_eq _ Hne).
  unfold MyBlackjackEnv_after_dealer_draw, MyBlackjackEnv_after_draw.
  destruct (reshuffles (MyBlackjackEnv.deck s)); reflexivity.
Qed.

(** The two orders in which the dealer's loops append and clear have the
    same effect. *)
Lemma dealer_draws_stick_eq (reseted : bool) (s : MyBlackjackEnv.t) :
  MyBlackjackEnv.dealer_draws_stick reseted s = MyBlackjackEnv.dealer_draws reseted s.
Proof.
  unfold MyBlackjackEnv.dealer_draws_stick, MyBlackjackEnv.dealer_draws,
    MyBlackjackEnv.deck_draw, bind, modify, ret.
  destruct (Deck.draw (MyBlackjackEnv.deck s)) as [[[c [|]]|e] d']; reflexivity.
Qed.

Lemma while_ext {S A : Type} (cond : S -> bool) (body1 body2 : A -> M S A) :
  (forall a s, body1 a s = body2 a s) ->
  forall fuel a s, while fuel cond body1 a s = while fuel cond body2 a s.
Proof.
  intros Hb. induction fuel as [|fuel IH]; intros a s; cbn [while].
  - reflexivity.
  - destruct (cond s); [|reflexivity].
    unfold bind. rewrite Hb. destruct (body2 a s) as [[a'|e] s']; [apply IH|reflexivity].
Qed.

(** A draw with a failing shoe: every draw of the simulator raises and
    changes nothing. *)
Lemma deck_draw_empty (s : MyBlackjackEnv.t) :
  Deck.cards (MyBlackjackEnv.deck s) = [] ->
  MyBlackjackEnv.deck_draw s = (Raise ValueError, s).
Proof.
  intros He. unfold MyBlackjackEnv.deck_draw. rewrite (Deck_draw_empty _ He).
  now destruct s.
Qed.

(** The dealer's loop of the finite-deck simulator: with enough fuel and a
    shoe of card values it returns, having appended to the dealer's hand the
    cards of the draws [evs] it made, each made at a total below 17; the
    flag it returns tells whether one of them reshuffled. *)
Lemma MyBlackjackEnv_dealer_loop (fuel : nat) :
  forall s : MyBlackjackEnv.t,
    shoe_ok (MyBlackjackEnv.deck s) ->
    17 - sum (MyBlackjackEnv.dealer s) <= Z.of_nat fuel ->
    exists evs s',
      (forall reseted : bool,
         while fuel MyBlackjackEnv.dealer_below_17 MyBlackjackEnv.dealer_draws reseted s
         = (Ok (reseted || existsb snd evs), s'))
      /\ MyBlackjackEnv.natural s' = MyBlackjackEnv.natural s
      /\ MyBlackjackEnv.player s' = MyBlackjackEnv.player s
      /\ MyBlackjackEnv.dealer s' = MyBlackjackEnv.dealer s ++ map fst evs
      /\ Deck.history (MyBlackjackEnv.deck s')
         = Deck.history (MyBlackjackEnv.deck s) ++ evs
      /\ shoe_ok (MyBlackjackEnv.deck s')
      /\ 17 <= sum_hand (MyBlackjackEnv.dealer s')
      /\ (forall k, (k < length evs)%nat ->
            sum_hand (MyBlackjackEnv.dealer s ++ take k (map fst evs)) < 17).
Proof.
  induction fuel as [|fuel IH]; intros s Hok Hfuel.
  - exists [], s. cbn [while].
    pose proof (sum_hand_ge_sum (MyBlackjackEnv.dealer s)) as Hge.
    unfold MyBlackjackEnv.dealer_below_17.
    destruct (Z.ltb_spec (sum_hand (MyBlackjackEnv.dealer s)) 17) as [Hlt|Hlt]; [lia|].
    cbn [existsb map]. rewrite !app_nil_r.
    repeat split; try assumption; try apply Hok.
    + intros r. now rewrite orb_false_r.
    + simpl; lia.
  - cbn [while]. unfold MyBlackjackEnv.dealer_below_17 at 1.
    destruct (Z.ltb_spec (sum_hand (MyBlackjackEnv.dealer s)) 17) as [Hlt|Hlt].
    + set (c := next_card (MyBlackjackEnv.deck s)).
      set (f := reshuffles (MyBlackjackEnv.deck s)).
      assert (Hc : valid_card c) by now apply next_card_valid.
      destruct (IH (MyBlackjackEnv_after_dealer_draw s))
        as (evs & s' & Hrun & Hn & Hp & Hdl & Hh & Hok' & Hfin & Hbelow).
      { now apply Deck_after_draw_ok. }
      { cbn. rewrite sum_snoc. fold c. unfold valid_card in Hc. lia. }
      exists ((c, f) :: evs), s'. cbn in Hdl, Hh, Hn, Hp.
      rewrite Hdl, Hh, <- !app_assoc. cbn [map fst app existsb snd length].
      repeat split; try assumption; try apply Hok'.
      * intros r. unfold bind. rewrite (dealer_draws_eq _ _ (proj1 Hok)), Hrun.
        fold f. f_equal. f_equal. destruct f, r; reflexivity.
      * now rewrite Hdl, <- app_assoc in Hfin.
      * intros [|k] Hk; cbn [take].
        -- now rewrite app_nil_r.
        -- specialize (Hbelow k ltac:(lia)). cbn in Hbelow.
           now rewrite <- app_assoc in Hbelow.
    + exists [], s. cbn [existsb map]. rewrite !app_nil_r.
      repeat split; try assumption; try apply Hok.
      * intros r. now rewrite orb_false_r.
      * simpl; lia.
Qed.

(** What a stick does in the finite-deck simulator. *)
Lemma MyBlackjackEnv_stick_spec (fuel : nat) (s : MyBlackjackEnv.t) :
  shoe_ok (MyBlackjackEnv.deck s) ->
  17 - sum (MyBlackjackEnv.dealer s) <= Z.of_nat fuel ->
  exists evs upcard s',
    MyBlackjackEnv.step fuel 0 s =
      (Ok (sum_hand (MyBlackjackEnv.player s), upcard,
           usable_ace (MyBlackjackEnv.player s),
           stick_reward (MyBlackjackEnv.natural s) (MyBlackjackEnv.player s)
             (MyBlackjackEnv.dealer s'),
           true, existsb snd evs), s')
    /\ head (MyBlackjackEnv.dealer s') = Some upcard
    /\ MyBlackjackEnv.natural s' = MyBlackjackEnv.natural s
    /\ MyBlackjackEnv.player s' = MyBlackjackEnv.player s
    /\ MyBlackjackEnv.dealer s' = MyBlackjackEnv.dealer s ++ map fst evs
    /\ Deck.history (MyBlackjackEnv.deck s')
       = Deck.history (MyBlackjackEnv.deck s) ++ evs
    /\ shoe_ok (MyBlackjackEnv.deck s')
    /\ 17 <= sum_hand (MyBlackjackEnv.dealer s')
    /\ (forall k, (k < length evs)%nat ->
          sum_hand (MyBlackjackEnv.dealer s ++ take k (map fst evs)) < 17).
Proof.
  intros Hok Hfuel.
  destruct (MyBlackjackEnv_dealer_loop fuel s Hok Hfuel)
    as (evs & s' & Hrun & Hn & Hp & Hdl & Hh & Hok' & Hfin & Hbelow).
  destruct (sum_hand_17_nonempty _ Hfin) as (upcard & rest & Hup).
  exists evs, upcard, s'.
  split; [|rewrite Hup; repeat split; try assumption; try apply Hok'; now rewrite <- Hup].
  unfold MyBlackjackEnv.step, bind at 1. cbn [Z.eqb]. unfold bind at 1.
  rewrite (while_ext _ _ _ dealer_draws_stick_eq), Hrun.
  unfold bind, gets, load, ret, MyBlackjackEnv.get_obs.
  rewrite Hup, reward_is_stick_reward, Hp, Hn, <- Hup. reflexivity.
Qed.

(** What a double does in the finite-deck simulator: the player's draw, then
    what a stick does from there, with the reward doubled. *)
Lemma MyBlackjackEnv_double_spec (fuel : nat) (s : MyBlackjackEnv.t) :
  shoe_ok (MyBlackjackEnv.deck s) ->
  17 - sum (MyBlackjackEnv.dealer s) <= Z.of_nat fuel ->
  exists evs obs reward s',
    MyBlackjackEnv.step fuel 0 (MyBlackjackEnv_after_player_draw s) =
      (Ok (obs, reward, true, existsb snd evs), s')
    /\ MyBlackjackEnv.step fuel 2 s =
      (Ok (obs, (reward * 2)%Q, true,
           reshuffles (MyBlackjackEnv.deck s) || existsb snd evs), s')
    /\ reward = stick_reward (MyBlackjackEnv.natural s) (MyBlackjackEnv.player s')
                  (MyBlackjackEnv.dealer s')
    /\ MyBlackjackEnv.natural s' = MyBlackjackEnv.natural s
    /\ MyBlackjackEnv.player s'
       = MyBlackjackEnv.player s ++ [next_card (MyBlackjackEnv.deck s)]
    /\ MyBlackjackEnv.dealer s' = MyBlackjackEnv.dealer s ++ map fst evs
    /\ Deck.history (MyBlackjackEnv.deck s')
       = Deck.history (MyBlackjackEnv.deck s)
         ++ (next_card (MyBlackjackEnv.deck s), reshuffles (MyBlackjackEnv.deck s)) :: evs
    /\ shoe_ok (MyBlackjackEnv.deck s')
    /\ 17 <= sum_hand (MyBlackjackEnv.dealer s')
    /\ (forall k, (k < length evs)%nat ->
          sum_hand (MyBlackjackEnv.dealer s ++ take k (map fst evs)) < 17).
Proof.
  intros Hok Hfuel.
  set (s1 := MyBlackjackEnv_after_player_draw s).
  assert (Hok1 : shoe_ok (MyBlackjackEnv.deck s1)) by now apply Deck_after_draw_ok.
  destruct (MyBlackjackEnv_dealer_loop fuel s1 Hok1 Hfuel)
    as (evs & s' & Hrun & Hn & Hp & Hdl & Hh & Hok' & Hfin & Hbelow).
  destruct (sum_hand_17_nonempty _ Hfin) as (upcard & rest & Hup).
  cbn in Hn, Hp, Hdl, Hh.
  exists evs, (sum_hand (MyBlackjackEnv.player s'), upcard,
               usable_ace (MyBlackjackEnv.player s')),
    (stick_reward (MyBlackjackEnv.natural s) (MyBlackjackEnv.player s')
       (MyBlackjackEnv.dealer s')), s'.
  split; [|split].
  - unfold MyBlackjackEnv.step, bind at 1. cbn [Z.eqb]. unfold bind at 1.
    rewrite (while_ext _ _ _ dealer_draws_stick_eq), Hrun.
    unfold bind, gets, load, ret, MyBlackjackEnv.get_obs.
    rewrite Hup, reward_is_stick_reward, Hn. reflexivity.
  - unfold MyBlackjackEnv.step, bind at 1.
    change (2 =? 1) with false. change (2 =? 0) with false. change (2 =? 2) with true.
    cbv iota. unfold bind at 1 2.
    rewrite (player_draws_eq _ _ (proj1 Hok)). fold s1. rewrite Hrun.
    unfold bind, gets, load, ret, MyBlackjackEnv.get_obs.
    rewrite Hup, reward_is_stick_reward, Hn.
    destruct (reshuffles (MyBlackjackEnv.deck s)); reflexivity.
  - rewrite Hh, <- app_assoc. repeat split; try assumption; apply Hok'.
Qed.

(** What a hit does in the finite-deck simulator. *)
Lemma MyBlackjackEnv_hit_spec (fuel : nat) (s : MyBlackjackEnv.t) (upcard : Z) :
  Deck.cards (MyBlackjackEnv.deck s) <> [] ->
  head (MyBlackjackEnv.dealer s) = Some upcard ->
  let s' := MyBlackjackEnv_after_player_draw s in
  MyBlackjackEnv.step fuel 1 s =
    (Ok (sum_hand (MyBlackjackEnv.player s'), upcard,
         usable_ace (MyBlackjackEnv.player s'),
         (if is_bust (MyBlackjackEnv.player s') then (-1)%Q else 0%Q),
         is_bust (MyBlackjackEnv.player s'),
         reshuffles (MyBlackjackEnv.deck s)), s').
Proof.
  intros Hne Hup s'.
  unfold MyBlackjackEnv.step, bind at 1.
  change (1 =? 1) with true. cbv iota. unfold bind at 1.
  rewrite (player_draws_eq _ _ Hne). fold s'.
  unfold bind, gets, ret, load, MyBlackjackEnv.get_obs.
  assert (Hd : MyBlackjackEnv.dealer s' = MyBlackjackEnv.dealer s) by reflexivity.
  destruct (MyBlackjackEnv.dealer s) as [|u rest] eqn:Hds; [discriminate|].
  injection Hup as ->.
  destruct (is_bust (MyBlackjackEnv.player s')); rewrite Hd;
    destruct (reshuffles (MyBlackjackEnv.deck s)); reflexivity.
Qed.

(** An action outside {0, 1, 2} takes no branch: the return statement
    raises, on the dealer's missing first card or else on the unassigned
    [reward], and nothing has changed. *)
Lemma MyBlackjackEnv_invalid_action (fuel : nat) (action : Z) (s : MyBlackjackEnv.t) :
  action <> 0 -> action <> 1 -> action <> 2 ->
  MyBlackjackEnv.step fuel action s =
  (Raise (match MyBlackjackEnv.dealer s with
          | [] => IndexError
          | _ :: _ => UnboundLocalError
          end), s).
Proof.
  intros H0 H1 H2. unfold MyBlackjackEnv.step.
  destruct (Z.eqb_spec action 1); [contradiction|].
  destruct (Z.eqb_spec action 0); [contradiction|].
  destruct (Z.eqb_spec action 2); [contradiction|].
  unfold bind, ret, load, raise, MyBlackjackEnv.get_obs.
  destruct (MyBlackjackEnv.dealer s); reflexivity.
Qed.

(** What a double does in the infinite-deck simulator. *)
Lemma BlackjackEnv_double_spec (fuel : nat) (s : BlackjackEnv.t) :
  17 - sum (BlackjackEnv.dealer s) <= Z.of_nat fuel ->
  exists ds obs reward s',
    BlackjackEnv.step fuel 0 (BlackjackEnv_after_player_draw s) =
      (Ok (obs, reward, true, tt), s')
    /\ BlackjackEnv.step fuel 2 s = (Ok (obs, (reward * 2)%Q, true, tt), s')
    /\ reward = stick_reward (BlackjackEnv.natural s) (BlackjackEnv.player s')
                  (BlackjackEnv.dealer s')
    /\ BlackjackEnv.natural s' = BlackjackEnv.natural s
    /\ BlackjackEnv.player s'
       = BlackjackEnv.player s ++ [fst (draw_card (BlackjackEnv.np_random s))]
    /\ BlackjackEnv.dealer s' = BlackjackEnv.dealer s ++ ds
    /\ pos (BlackjackEnv.np_random s')
       = (pos (BlackjackEnv.np_random s) + 1 + length ds)%nat
    /\ 17 <= sum_hand (BlackjackEnv.dealer s')
    /\ (forall k, (k < length ds)%nat ->
          sum_hand (BlackjackEnv.dealer s ++ take k ds) < 17).
Proof.
  intros Hfuel.
  destruct (BlackjackEnv_stick_spec fuel (BlackjackEnv_after_player_draw s) Hfuel)
    as (ds & upcard & s' & Hrun & Hup & Hn & Hd & Hp & Hdl & Ht & Hpos & Hcards & Hfin & Hbelow).
  cbn in Hn, Hp, Hdl, Hpos, Hbelow.
  exists ds, (sum_hand (BlackjackEnv.player s'), upcard, usable_ace (BlackjackEnv.player s')),
    (stick_reward (BlackjackEnv.natural s) (BlackjackEnv.player s')
       (BlackjackEnv.dealer s')), s'.
  assert (Hrun' : BlackjackEnv.step fuel 0 (BlackjackEnv_after_player_draw s) =
                  (Ok (sum_hand (BlackjackEnv.player s'), upcard,
                       usable_ace (BlackjackEnv.player s'),
                       stick_reward (BlackjackEnv.natural s) (BlackjackEnv.player s')
                         (BlackjackEnv.dealer s'), true, tt), s')).
  { rewrite Hrun. cbn. now rewrite Hp. }
  split; [exact Hrun'|]. split.
  - rewrite BlackjackEnv_double_is_stick, Hrun'. reflexivity.
  - repeat split; try assumption. rewrite Hpos, draw_card_snd. cbn. lia.
Qed.

(** ** The steps of both simulators *)


(** C9: an action outside {0, 1, 2} makes [step] raise in both simulators,
    the infinite-deck one on its assertion, the finite-deck one on the
    return statement, and the hands (the whole state) are as before. *)
Theorem invalid_action_raises (fuel : nat) (action : Z) :
  action <> 0 -> action <> 1 -> action <> 2 ->
  (forall s : BlackjackEnv.t,
     BlackjackEnv.step fuel action s = (Raise AssertionError, s))
  /\ (forall s : MyBlackjackEnv.t,
        exists e,
          MyBlackjackEnv.step fuel action s = (Raise e, s)
          /\ (e = IndexError \/ e = UnboundLocalError)).
Proof.
  intros H0 H1 H2. split.
  - intros s. now apply BlackjackEnv_invalid_action.
  - intros s. rewrite (MyBlackjackEnv_invalid_action fuel action s H0 H1 H2).
    destruct (MyBlackjackEnv.dealer s); eexists; split; eauto.
Qed.

Lemma stick_reward_cases (natural : bool) (p d : list Z) :
  (natural = true /\ is_natural p = true /\ score p > score d
   /\ stick_reward natural p d = (3 # 2)%Q)
  \/ (~ (natural = true /\ is_natural p = true /\ score p > score d)
      /\ stick_reward natural p d = sign_reward p d).
Proof.
  unfold stick_reward.
  destruct natural, (is_natural p), (Z.gtb_spec (score p) (score d));
    cbn [andb]; first [left; repeat split; (reflexivity || lia)
                      | right; split; [intros (? & ? & ?); (discriminate || lia)|reflexivity]].
Qed.


(** After [k] of the dealer's draws [ds], another one follows exactly when
    the total is below 17. *)
Lemma draws_again_iff_below_17 (d ds : list Z) :
  17 <= sum_hand (d ++ ds) ->
  (forall k, (k < length ds)%nat -> sum_hand (d ++ take k ds) < 17) ->
  forall k, (k <= length ds)%nat ->
    ((k < length ds)%nat <-> sum_hand (d ++ take k ds) < 17).
Proof.
  intros Hfin Hbelow k Hk. split; [apply Hbelow|].
  intros Hlt. destruct (Nat.eq_dec k (length ds)) as [->|Hne]; [|lia].
  rewrite firstn_all in Hlt. lia.
Qed.

(** C4: in a stick and in a double, in both simulators, the dealer draws
    another card exactly when the dealer's total is below 17: the cards [ds]
    the dealer takes are all drawn at a total below 17, no draw is made
    besides them (and the player's one in a double), and the dealer's total
    is at least 17 when [step] returns. *)
Theorem dealer_draws_exactly_while_below_17 (fuel : nat) (action : Z) :
  action = 0 \/ action = 2 ->
  (forall s : BlackjackEnv.t,
     17 - sum (BlackjackEnv.dealer s) <= Z.of_nat fuel ->
     exists ds result s',
       BlackjackEnv.step fuel action s = (Ok result, s')
       /\ BlackjackEnv.dealer s' = BlackjackEnv.dealer s ++ ds
       /\ pos (BlackjackEnv.np_random s')
          = (pos (BlackjackEnv.np_random s) + (if (action =? 2)%Z then 1 else 0)
             + length ds)%nat
       /\ (forall k, (k <= length ds)%nat ->
             ((k < length ds)%nat
              <-> sum_hand (BlackjackEnv.dealer s ++ take k ds) < 17))
       /\ 17 <= sum_hand (BlackjackEnv.dealer s'))
  /\ (forall s : MyBlackjackEnv.t,
        shoe_ok (MyBlackjackEnv.deck s) ->
        17 - sum (MyBlackjackEnv.dealer s) <= Z.of_nat fuel ->
        exists pre evs result s',
          MyBlackjackEnv.step fuel action s = (Ok result, s')
          /\ MyBlackjackEnv.dealer s' = MyBlackjackEnv.dealer s ++ map fst evs
          /\ Deck.history (MyBlackjackEnv.deck s')
             = Deck.history (MyBlackjackEnv.deck s) ++ pre ++ evs
          /\ length pre = (if (action =? 2)%Z then 1%nat else 0%nat)
          /\ (forall k, (k <= length evs)%nat ->
                ((k < length evs)%nat
                 <-> sum_hand (MyBlackjackEnv.dealer s ++ take k (map fst evs)) < 17))
          /\ 17 <= sum_hand (MyBlackjackEnv.dealer s')).
Proof.
  intros [-> | ->]; split.
  - intros s Hfuel.
    destruct (BlackjackEnv_stick_spec fuel s Hfuel)
      as (ds & upcard & s' & Hrun & Hup & Hn & Hd & Hp & Hdl & Ht & Hpos & Hcards & Hfin & Hbelow).
    eexists ds, _, s'. split; [exact Hrun|]. split; [exact Hdl|].
    split; [cbn; lia|]. split; [|exact Hfin].
    apply draws_again_iff_below_17; [now rewrite <- Hdl|exact Hbelow].
  - intros s Hok Hfuel.
    destruct (MyBlackjackEnv_stick_spec fuel s Hok Hfuel)
      as (evs & upcard & s' & Hrun & Hup & Hn & Hp & Hdl & Hh & Hok' & Hfin & Hbelow).
    eexists [], evs, _, s'. split; [exact Hrun|]. split; [exact Hdl|].
    split; [exact Hh|]. split; [reflexivity|]. split; [|exact Hfin].
    intros k Hk. rewrite <- (length_map fst) in Hk |- *.
    apply draws_again_iff_below_17; [now rewrite <- Hdl| |exact Hk].
    intros j Hj. apply Hbelow. now rewrite length_map in Hj.
  - intros s Hfuel.
    destruct (BlackjackEnv_double_spec fuel s Hfuel)
      as (ds & obs & reward & s' & _ & Hrun & _ & Hn & Hp & Hdl & Hpos & Hfin & Hbelow).
    eexists ds, _, s'. split; [exact Hrun|]. split; [exact Hdl|].
    split; [exact Hpos|]. split; [|exact Hfin].
    apply draws_again_iff_below_17; [now rewrite <- Hdl|exact Hbelow].
  - intros s Hok Hfuel.
    destruct (MyBlackjackEnv_double_spec fuel s Hok Hfuel)
      as (evs & obs & reward & s' & _ & Hrun & _ & Hn & Hp & Hdl & Hh & Hok' & Hfin & Hbelow).
    eexists [_], evs, _, s'. split; [exact Hrun|]. split; [exact Hdl|].
    split; [exact Hh|]. split; [reflexivity|]. split; [|exact Hfin].
    intros k Hk. rewrite <- (length_map fst) in Hk |- *.
    apply draws_again_iff_below_17; [now rewrite <- Hdl| |exact Hk].
    intros j Hj. apply Hbelow. now rewrite length_map in Hj.
Qed.

(** C2: a double appends the one card it draws to the player's hand and
    then does what a stick would do from there, returning the stick's reward
    times 2 and done.  The dealer plays whether the player's new hand is
    bust or not; a bust hand enters the comparison with score 0. *)
Theorem double_is_a_draw_then_a_doubled_stick :
  (forall (fuel : nat) (s : BlackjackEnv.t),
     17 - sum (BlackjackEnv.dealer s) <= Z.of_nat fuel ->
     exists card obs reward s',
       card = fst (draw_card (BlackjackEnv.np_random s))
       /\ BlackjackEnv.step fuel 0 (BlackjackEnv_after_player_draw s)
          = (Ok (obs, reward, true, tt), s')
       /\ BlackjackEnv.step fuel 2 s = (Ok (obs, (reward * 2)%Q, true, tt), s')
       /\ BlackjackEnv.player (BlackjackEnv_after_player_draw s)
          = BlackjackEnv.player s ++ [card]
       /\ BlackjackEnv.dealer (BlackjackEnv_after_player_draw s) = BlackjackEnv.dealer s
       /\ BlackjackEnv.player s' = BlackjackEnv.player s ++ [card]
       /\ 17 <= sum_hand (BlackjackEnv.dealer s')
       /\ reward = stick_reward (BlackjackEnv.natural s) (BlackjackEnv.player s')
                     (BlackjackEnv.dealer s')
       /\ (is_bust (BlackjackEnv.player s') = true ->
           score (BlackjackEnv.player s') = 0
           /\ (reward * 2)%Q = (cmp 0 (score (BlackjackEnv.dealer s')) * 2)%Q))
  /\ (forall (fuel : nat) (s : MyBlackjackEnv.t),
        shoe_ok (MyBlackjackEnv.deck s) ->
        17 - sum (MyBlackjackEnv.dealer s) <= Z.of_nat fuel ->
        exists card reseted reseted' obs reward s',
          Deck.draw (MyBlackjackEnv.deck s)
          = (Ok (card, reseted), MyBlackjackEnv.deck (MyBlackjackEnv_after_player_draw s))
          /\ MyBlackjackEnv.step fuel 0 (MyBlackjackEnv_after_player_draw s)
             = (Ok (obs, reward, true, reseted'), s')
          /\ MyBlackjackEnv.step fuel 2 s
             = (Ok (obs, (reward * 2)%Q, true, reseted || reseted'), s')
          /\ MyBlackjackEnv.player (MyBlackjackEnv_after_player_draw s)
             = MyBlackjackEnv.player s ++ [card]
          /\ MyBlackjackEnv.dealer (MyBlackjackEnv_after_player_draw s)
             = MyBlackjackEnv.dealer s
          /\ MyBlackjackEnv.player s' = MyBlackjackEnv.player s ++ [card]
          /\ 17 <= sum_hand (MyBlackjackEnv.dealer s')
          /\ reward = stick_reward (MyBlackjackEnv.natural s) (MyBlackjackEnv.player s')
                        (MyBlackjackEnv.dealer s')
          /\ (is_bust (MyBlackjackEnv.player s') = true ->
              score (MyBlackjackEnv.player s') = 0
              /\ (reward * 2)%Q = (cmp 0 (score (MyBlackjackEnv.dealer s')) * 2)%Q)).
Proof.
  assert (Hbust : forall natural p d, 17 <= sum_hand d -> is_bust p = true ->
            score p = 0 /\ stick_reward natural p d = cmp 0 (score d)).
  { intros natural p d Hfin Hb.
    assert (Hs : score p = 0) by (unfold score; now rewrite Hb).
    split; [exact Hs|]. unfold stick_reward, sign_reward. rewrite Hs.
    assert (Hd : 0 <= score d) by (unfold score; destruct (is_bust d); lia).
    destruct (Z.gtb_spec 0 (score d)); [lia|].
    rewrite andb_false_r. now rewrite cmp_sign. }
  split.
  - intros fuel s Hfuel.
    destruct (BlackjackEnv_double_spec fuel s Hfuel)
      as (ds & obs & reward & s' & Hstick & Hrun & Hr & Hn & Hp & Hdl & Hpos & Hfin & Hbelow).
    exists (fst (draw_card (BlackjackEnv.np_random s))), obs, reward, s'.
    repeat (split; [first [reflexivity|assumption]|]).
    intros Hb. destruct (Hbust (BlackjackEnv.natural s) _ (BlackjackEnv.dealer s') Hfin Hb)
      as [Hs Hc].
    split; [exact Hs|]. now rewrite Hr, Hc.
  - intros fuel s Hok Hfuel.
    destruct (MyBlackjackEnv_double_spec fuel s Hok Hfuel)
      as (evs & obs & reward & s' & Hstick & Hrun & Hr & Hn & Hp & Hdl & Hh & Hok' & Hfin & Hbelow).
    exists (next_card (MyBlackjackEnv.deck s)), (reshuffles (MyBlackjackEnv.deck s)),
      (existsb snd evs), obs, reward, s'.
    split; [exact (Deck_draw_eq _ (proj1 Hok))|].
    repeat (split; [first [reflexivity|assumption]|]).
    intros Hb. destruct (Hbust (MyBlackjackEnv.natural s) _ (MyBlackjackEnv.dealer s') Hfin Hb)
      as [Hs Hc].
    split; [exact Hs|]. now rewrite Hr, Hc.
Qed.

(** C10: after a reset the player holds at least two cards, so the hand a
    double scores has at least three and is no natural: the reward of a
    double is -2, 0 or 2, never 3. *)
Theorem double_never_pays_a_natural :
  (forall (fuel : nat) (s : BlackjackEnv.t),
     (2 <= length (BlackjackEnv.player s))%nat ->
     17 - sum (BlackjackEnv.dealer s) <= Z.of_nat fuel ->
     exists obs reward s',
       BlackjackEnv.step fuel 2 s = (Ok (obs, reward, true, tt), s')
       /\ is_natural (BlackjackEnv.player s') = false
       /\ (reward = (-2 # 1)%Q \/ reward = 0%Q \/ reward = (2 # 1)%Q))
  /\ (forall (fuel : nat) (s : MyBlackjackEnv.t),
        (2 <= length (MyBlackjackEnv.player s))%nat ->
        shoe_ok (MyBlackjackEnv.deck s) ->
        17 - sum (MyBlackjackEnv.dealer s) <= Z.of_nat fuel ->
        exists obs reward reseted s',
          MyBlackjackEnv.step fuel 2 s = (Ok (obs, reward, true, reseted), s')
          /\ is_natural (MyBlackjackEnv.player s') = false
          /\ (reward = (-2 # 1)%Q \/ reward = 0%Q \/ reward = (2 # 1)%Q)).
Proof.
  assert (Hnat : forall p (c : Z), (2 <= length p)%nat -> is_natural (p ++ [c]) = false).
  { intros p c Hlen. destruct (is_natural (p ++ [c])) eqn:E; [|reflexivity].
    apply is_natural_length in E. rewrite length_app in E. simpl in E. lia. }
  assert (Hrew : forall natural p d, is_natural p = false ->
            let r := (stick_reward natural p d * 2)%Q in
            r = (-2 # 1)%Q \/ r = 0%Q \/ r = (2 # 1)%Q).
  { intros natural p d Hn r. subst r. unfold stick_reward.
    rewrite Hn, andb_false_r. cbn [andb].
    destruct (sign_reward_cases p d) as [-> | [-> | ->]]; auto. }
  split.
  - intros fuel s Hlen Hfuel.
    destruct (BlackjackEnv_double_spec fuel s Hfuel)
      as (ds & obs & reward & s' & _ & Hrun & Hr & _ & Hp & _).
    exists obs, (reward * 2)%Q, s'. split; [exact Hrun|].
    assert (Hn : is_natural (BlackjackEnv.player s') = false) by (rewrite Hp; now apply Hnat).
    split; [exact Hn|]. rewrite Hr. now apply Hrew.
  - intros fuel s Hlen Hok Hfuel.
    destruct (MyBlackjackEnv_double_spec fuel s Hok Hfuel)
      as (evs & obs & reward & s' & _ & Hrun & Hr & _ & Hp & _).
    eexists obs, (reward * 2)%Q, _, s'. split; [exact Hrun|].
    assert (Hn : is_natural (MyBlackjackEnv.player s') = false) by (rewrite Hp; now apply Hnat).
    split; [exact Hn|]. rewrite Hr. now apply Hrew.
Qed.

(** ** The exposure record *)

Lemma since_reshuffle_reshuffled (h : list (Z * bool)) (c : Z) :
  since_reshuffle (h ++ [(c, true)]) = [].
Proof.
  induction h as [|e h IH]; [reflexivity|].
  cbn [app since_reshuffle].
  replace (existsb snd (e :: h ++ [(c, true)])) with true; [exact IH|].
  symmetry. change (e :: h ++ [(c, true)]) with ((e :: h) ++ [(c, true)]).
  rewrite existsb_app. cbn. apply orb_true_r.
Qed.

Lemma since_reshuffle_quiet (h : list (Z * bool)) (c : Z) :
  since_reshuffle (h ++ [(c, false)]) = since_reshuffle h ++ [(c, false)].
Proof.
  induction h as [|e h IH]; [reflexivity|].
  cbn [app since_reshuffle].
  replace (existsb snd (e :: h ++ [(c, false)])) with (existsb snd (e :: h)).
  - destruct (existsb snd (e :: h)); [exact IH|reflexivity].
  - change (e :: h ++ [(c, false)]) with ((e :: h) ++ [(c, false)]).
    rewrite existsb_app. cbn [existsb snd]. now rewrite !orb_false_r.
Qed.

(** [since_reshuffle] is what its name says: the history is some draws up
    to and including a reshuffling one, or none at all, followed by the
    draws [since_reshuffle] keeps, none of which reshuffled. *)
Lemma since_reshuffle_spec (h : list (Z * bool)) :
  exists pre,
    h = pre ++ since_reshuffle h
    /\ existsb snd (since_reshuffle h) = false
    /\ (pre = [] \/ exists pre' c, pre = pre' ++ [(c, true)]).
Proof.
  induction h as [|e h IH] using rev_ind.
  - exists []. repeat split. now left.
  - destruct e as [c [|]].
    + exists (h ++ [(c, true)]). rewrite since_reshuffle_reshuffled, app_nil_r.
      repeat split. right. eauto.
    + destruct IH as (pre & Hh & Hq & Hpre). exists pre.
      rewrite since_reshuffle_quiet, existsb_app, Hq. cbn.
      repeat split; [|exact Hpre]. rewrite app_assoc. now rewrite <- Hh.
Qed.

Lemma exposure_snoc (h : list (Z * bool)) (c : Z) (reseted : bool) :
  exposure (h ++ [(c, reseted)]) = if reseted then [] else exposure h ++ [c].
Proof.
  unfold exposure. destruct reseted.
  - now rewrite since_reshuffle_reshuffled.
  - now rewrite since_reshuffle_quiet, map_app.
Qed.

Lemma count_snoc (v c : Z) (l : list Z) :
  count v (l ++ [c]) = count v l + (if c =? v then 1 else 0).
Proof.
  unfold count. rewrite count_occ_app. cbn [count_occ].
  destruct (Z.eq_dec c v) as [->|Hne].
  - rewrite Z.eqb_refl. lia.
  - destruct (Z.eqb_spec c v); [contradiction|lia].
Qed.

Lemma histogram_nil : histogram [] = repeat 0 10.
Proof. reflexivity. Qed.

Lemma histogram_eq (l : list Z) :
  histogram l = [count 1 l; count 2 l; count 3 l; count 4 l; count 5 l;
                 count 6 l; count 7 l; count 8 l; count 9 l; count 10 l].
Proof. reflexivity. Qed.

(** [index[card-1] += 1] on a histogram is the histogram with the card added. *)
Lemma bump_histogram (l : list Z) (card : Z) :
  valid_card card ->
  MyBlackjackEnv.bump (histogram l) card = Ok (histogram (l ++ [card])).
Proof.
  intros Hc. unfold valid_card in Hc.
  assert (Hcases : card = 1 \/ card = 2 \/ card = 3 \/ card = 4 \/ card = 5
                   \/ card = 6 \/ card = 7 \/ card = 8 \/ card = 9 \/ card = 10) by lia.
  rewrite !histogram_eq, !count_snoc.
  repeat (destruct Hcases as [->|Hcases];
          [cbn; rewrite ?Z.add_0_r; reflexivity|]).
  subst card. cbn. rewrite ?Z.add_0_r. reflexivity.
Qed.

Lemma count_cards_histogram (cs : list Z) :
  forall l : list Z,
    Forall valid_card cs ->
    MyBlackjackEnv.count_cards cs (histogram l) = Ok (histogram (l ++ cs)).
Proof.
  induction cs as [|c cs IH]; intros l Hv.
  - cbn. now rewrite app_nil_r.
  - apply Forall_cons in Hv as [Hc Hv]. cbn [MyBlackjackEnv.count_cards].
    rewrite (bump_histogram l c Hc), (IH _ Hv), <- app_assoc. reflexivity.
Qed.

(** The query returns the histogram of the exposure record. *)
Lemma cards_to_index_histogram (s : MyBlackjackEnv.t) :
  Forall valid_card (MyBlackjackEnv.cards s) ->
  MyBlackjackEnv.cards_to_index s = Ok (histogram (MyBlackjackEnv.cards s)).
Proof.
  intros Hv. unfold MyBlackjackEnv.cards_to_index. rewrite <- histogram_nil.
  now rewrite (count_cards_histogram _ [] Hv).
Qed.

Lemma histogram_lookup (l : list Z) (v : Z) :
  valid_card v -> histogram l !! Z.to_nat (v - 1) = Some (count v l).
Proof.
  intros Hv. unfold valid_card in Hv.
  assert (Hcases : v = 1 \/ v = 2 \/ v = 3 \/ v = 4 \/ v = 5
                   \/ v = 6 \/ v = 7 \/ v = 8 \/ v = 9 \/ v = 10) by lia.
  rewrite histogram_eq.
  repeat (destruct Hcases as [->|Hcases]; [reflexivity|]). now subst v.
Qed.

(** *** What every call keeps *)

Lemma preserves_ret {S A : Type} (I : S -> Prop) (a : A) : preserves I (ret a).
Proof. intros s H. exact H. Qed.

Lemma preserves_raise {S A : Type} (I : S -> Prop) (e : exn) : preserves I (@raise S A e).
Proof. intros s H. exact H. Qed.

Lemma preserves_gets {S A : Type} (I : S -> Prop) (f : S -> A) : preserves I (gets f).
Proof. intros s H. exact H. Qed.

Lemma preserves_load {S A : Type} (I : S -> Prop) (local : option A) :
  preserves I (@load S A local).
Proof. intros s H. now destruct local. Qed.

Lemma preserves_bind {S A B : Type} (I : S -> Prop) (m : M S A) (k : A -> M S B) :
  preserves I m -> (forall a, preserves I (k a)) -> preserves I (bind m k).
Proof.
  intros Hm Hk s H. unfold bind. specialize (Hm s H).
  destruct (m s) as [[a|e] s']; [now apply Hk|exact Hm].
Qed.

Lemma preserves_while {S A : Type} (I : S -> Prop) (cond : S -> bool)
    (body : A -> M S A) :
  (forall a, preserves I (body a)) ->
  forall fuel a, preserves I (while fuel cond body a).
Proof.
  intros Hb. induction fuel as [|fuel IH]; intros a s H; cbn [while].
  - now destruct (cond s).
  - destruct (cond s); [|exact H].
    now apply (preserves_bind I (body a) (while fuel cond body)).
Qed.

Lemma preserves_for_range {S A : Type} (I : S -> Prop) (body : A -> M S A) :
  (forall a, preserves I (body a)) ->
  forall n a, preserves I (for_range n body a).
Proof.
  intros Hb. induction n as [|n IH]; intros a; cbn [for_range].
  - apply preserves_ret.
  - apply preserves_bind; [apply Hb|apply IH].
Qed.

Lemma preserves_get_obs (I : MyBlackjackEnv.t -> Prop) :
  preserves I MyBlackjackEnv.get_obs.
Proof.
  intros s H. unfold MyBlackjackEnv.get_obs.
  now destruct (MyBlackjackEnv.dealer s).
Qed.

Lemma consistent_after_draw (s : MyBlackjackEnv.t) :
  consistent s -> consistent (MyBlackjackEnv_after_draw s).
Proof.
  intros (Hok & Hv & Hc & Hperm). unfold consistent, MyBlackjackEnv_after_draw.
  cbn [MyBlackjackEnv.deck MyBlackjackEnv.cards MyBlackjackEnv.set_cards
       MyBlackjackEnv.set_deck Deck_after_draw Deck.history Deck.cards].
  split; [now apply Deck_after_draw_ok|].
  rewrite exposure_snoc, <- Hc.
  pose proof (next_card_lookup _ (proj1 Hok)) as Hlook.
  destruct (reshuffles (MyBlackjackEnv.deck s)); repeat split; try reflexivity.
  - constructor.
  - apply Forall_app. split; [exact Hv|].
    constructor; [now apply next_card_valid|constructor].
  - rewrite <- Hperm, <- app_assoc. apply Permutation_app_head.
    cbn [app]. symmetry. now apply delete_Permutation.
Qed.

Lemma consistent_player_draws (reseted : bool) :
  preserves consistent (MyBlackjackEnv.player_draws reseted).
Proof.
  intros s H. rewrite (player_draws_eq _ _ (proj1 (proj1 H))).
  exact (consistent_after_draw s H).
Qed.

Lemma consistent_dealer_draws (reseted : bool) :
  preserves consistent (MyBlackjackEnv.dealer_draws reseted).
Proof.
  intros s H. rewrite (dealer_draws_eq _ _ (proj1 (proj1 H))).
  exact (consistent_after_draw s H).
Qed.

Lemma consistent_dealer_draws_stick (reseted : bool) :
  preserves consistent (MyBlackjackEnv.dealer_draws_stick reseted).
Proof. intros s H. rewrite dealer_draws_stick_eq. now apply consistent_dealer_draws. Qed.

Lemma consistent_step (fuel : nat) (action : Z) :
  preserves consistent (MyBlackjackEnv.step fuel action).
Proof.
  unfold MyBlackjackEnv.step.
  apply preserves_bind.
  - destruct (action =? 1); [|destruct (action =? 0); [|destruct (action =? 2)]].
    + apply preserves_bind; [apply consistent_player_draws|]. intros r.
      apply preserves_bind; [apply preserves_gets|]. intros p.
      destruct (is_bust p); apply preserves_ret.
    + apply preserves_bind;
        [apply preserves_while; apply consistent_dealer_draws_stick|].
      intros r. repeat (apply preserves_bind; [apply preserves_gets|]; intros ?).
      apply preserves_ret.
    + apply preserves_bind; [apply consistent_player_draws|]. intros r.
      apply preserves_bind;
        [apply preserves_while; apply consistent_dealer_draws|].
      intros r'. repeat (apply preserves_bind; [apply preserves_gets|]; intros ?).
      apply preserves_ret.
    + apply preserves_ret.
  - intros [[reward done] r].
    apply preserves_bind; [apply preserves_get_obs|]. intros obs.
    apply preserves_bind; [apply preserves_load|]. intros rw.
    apply preserves_bind; [apply preserves_load|]. intros dn.
    apply preserves_ret.
Qed.

Lemma consistent_reset : preserves consistent MyBlackjackEnv.reset.
Proof.
  unfold MyBlackjackEnv.reset.
  apply preserves_bind; [intros s H; exact H|]. intros _.
  apply preserves_bind; [intros s H; exact H|]. intros _.
  apply preserves_bind;
    [apply preserves_for_range; apply consistent_dealer_draws|]. intros r.
  apply preserves_bind;
    [apply preserves_for_range; apply consistent_player_draws|]. intros r'.
  apply preserves_bind; [apply preserves_get_obs|]. intros obs.
  apply preserves_ret.
Qed.

Lemma consistent_init (natural : bool) (generator : RandomState) :
  consistent (MyBlackjackEnv.init natural generator).
Proof.
  unfold consistent, MyBlackjackEnv.init. cbn [MyBlackjackEnv.deck MyBlackjackEnv.cards].
  rewrite Deck_init_eq. cbn [Deck.cards Deck.history].
  split; [split; [discriminate|apply full_shoe_valid]|].
  split; [constructor|]. split; reflexivity.
Qed.

(** Every reachable state is consistent. *)
Lemma reachable_consistent (s : MyBlackjackEnv.t) : reachable s -> consistent s.
Proof.
  induction 1 as [natural g|s Hr IH|s fuel action Hr IH].
  - apply consistent_init.
  - now apply consistent_reset.
  - now apply consistent_step.
Qed.

Lemma reachable_resets (n : nat) :
  forall s, reachable s -> reachable (resets n s).
Proof.
  induction n as [|n IH]; intros s H; [exact H|].
  cbn [resets]. apply IH. now constructor.
Qed.

(** C1, as the code has it: at each of the draws of [reset] and [step] the
    card is appended to the exposure record and, when the draw reports a
    reshuffle, the record is then emptied, the reshuffling card with it.  So
    between calls the record holds the cards drawn after the most recent
    reshuffling draw, the histogram counts them, value [v] at index [v-1],
    and right after a reshuffling draw the histogram is all zero. *)
Theorem exposure_is_emptied_by_a_reshuffle :
  (forall (reseted : bool) (s : MyBlackjackEnv.t),
     Deck.cards (MyBlackjackEnv.deck s) <> [] ->
     exists card reseted_ d',
       Deck.draw (MyBlackjackEnv.deck s) = (Ok (card, reseted_), d')
       /\ (forall body,
             body = MyBlackjackEnv.player_draws
             \/ body = MyBlackjackEnv.dealer_draws
             \/ body = MyBlackjackEnv.dealer_draws_stick ->
             fst (body reseted s) = Ok (if reseted_ then true else reseted)
             /\ MyBlackjackEnv.deck (snd (body reseted s)) = d'
             /\ MyBlackjackEnv.cards (snd (body reseted s))
                = if reseted_ then [] else MyBlackjackEnv.cards s ++ [card]))
  /\ (forall s : MyBlackjackEnv.t,
        reachable s ->
        let h := Deck.history (MyBlackjackEnv.deck s) in
        MyBlackjackEnv.cards s = exposure h
        /\ MyBlackjackEnv.cards_to_index s = Ok (histogram (exposure h))
        /\ (forall v, valid_card v ->
              histogram (exposure h) !! Z.to_nat (v - 1) = Some (count v (exposure h)))
        /\ (forall h' card, h = h' ++ [(card, true)] ->
              MyBlackjackEnv.cards s = []
              /\ MyBlackjackEnv.cards_to_index s = Ok (repeat 0 10))).
Proof.
  split.
  - intros reseted s Hne.
    exists (next_card (MyBlackjackEnv.deck s)), (reshuffles (MyBlackjackEnv.deck s)),
      (Deck_after_draw (MyBlackjackEnv.deck s)).
    split; [exact (Deck_draw_eq _ Hne)|].
    intros body [-> | [-> | ->]];
      rewrite ?dealer_draws_stick_eq, ?(player_draws_eq _ _ Hne), ?(dealer_draws_eq _ _ Hne);
      repeat split.
  - intros s Hr h. subst h.
    destruct (reachable_consistent s Hr) as (Hok & Hv & Hc & _).
    split; [exact Hc|]. split; [|split].
    + rewrite <- Hc. now apply cards_to_index_histogram.
    + intros v Hval. now apply histogram_lookup.
    + intros h' card Hh.
      assert (He : MyBlackjackEnv.cards s = []).
      { rewrite Hc, Hh. unfold exposure. now rewrite since_reshuffle_reshuffled. }
      split; [exact He|].
      rewrite (cards_to_index_histogram s Hv), He. reflexivity.
Qed.

(** C1 as the specification words it fails: thirteen resets of a new
    environment draw the 52 cards of the shoe, the last draw reshuffles, and
    the histogram is then all zero, not the reshuffling card's. *)
Lemma exposure_drops_the_reshuffling_card : ~ exposure_as_claimed.
Proof.
  intros H.
  specialize (H reshuffled_shoe_table
                (reachable_resets 13 _ (reachable_init false first_card_generator))).
  vm_compute in H. discriminate H.
Qed.

(** ** The theorems at work on the example tables *)

Ltac evaluate_shoe_ok :=
  split; [vm_compute; discriminate
         |vm_compute; repeat (constructor; [split; discriminate|]); constructor].

Lemma score_is_zero_exactly_when_bust_witness :
  is_bust [10; 10; 5] = true /\ score [10; 10; 5] = 0.
Proof.
  split; [reflexivity|].
  apply (proj1 (proj2 (score_is_zero_exactly_when_bust [10; 10; 5]))). reflexivity.
Defined.

Lemma usable_ace_adds_ten_witness :
  usable_ace [1; 10] = true /\ sum_hand [1; 10] = sum [1; 10] + 10.
Proof.
  split; [reflexivity|].
  apply (proj1 (proj2 (usable_ace_adds_ten [1; 10]))). reflexivity.
Defined.

Lemma shoe_refills_on_52nd_draw_witness :
  Deck.cards (Deck.init first_card_generator) <> []
  /\ exists card reseted d',
       Deck.draw (Deck.init first_card_generator) = (Ok (card, reseted), d')
       /\ Deck.cards d' <> [].
Proof.
  assert (H : Deck.cards (Deck.init first_card_generator) <> [])
    by (vm_compute; discriminate).
  split; [exact H|].
  exact (proj1 (proj2 (proj2 shoe_refills_on_52nd_draw)) _ H).
Defined.


Lemma invalid_action_raises_witness :
  3 <> 0 /\ 3 <> 1 /\ 3 <> 2
  /\ BlackjackEnv.step 17 3 example_table = (Raise AssertionError, example_table).
Proof.
  assert (H0 : 3 <> 0) by discriminate.
  assert (H1 : 3 <> 1) by discriminate.
  assert (H2 : 3 <> 2) by discriminate.
  repeat (split; [assumption|]).
  exact (proj1 (invalid_action_raises 17 3 H0 H1 H2) example_table).
Defined.


Lemma dealer_draws_exactly_while_below_17_witness :
  shoe_ok (MyBlackjackEnv.deck example_shoe_table)
  /\ 17 - sum (MyBlackjackEnv.dealer example_shoe_table) <= Z.of_nat 14
  /\ exists result s',
       MyBlackjackEnv.step 14 2 example_shoe_table = (Ok result, s')
       /\ 17 <= sum_hand (MyBlackjackEnv.dealer s').
Proof.
  assert (Hok : shoe_ok (MyBlackjackEnv.deck example_shoe_table)) by evaluate_shoe_ok.
  assert (H : 17 - sum (MyBlackjackEnv.dealer example_shoe_table) <= Z.of_nat 14)
    by (vm_compute; discriminate).
  split; [exact Hok|]. split; [exact H|].
  destruct (proj2 (dealer_draws_exactly_while_below_17 14 2 (or_intror eq_refl))
              example_shoe_table Hok H)
    as (pre & evs & result & s' & Hrun & _ & _ & _ & _ & Hfin).
  exists result, s'. split; [exact Hrun|exact Hfin].
Defined.

Lemma double_is_a_draw_then_a_doubled_stick_witness :
  17 - sum (BlackjackEnv.dealer example_table) <= Z.of_nat 0
  /\ exists obs reward s',
       BlackjackEnv.step 0 2 example_table = (Ok (obs, (reward * 2)%Q, true, tt), s')
       /\ BlackjackEnv.player s' = [1; 10; 5].
Proof.
  assert (H : 17 - sum (BlackjackEnv.dealer example_table) <= Z.of_nat 0)
    by (vm_compute; discriminate).
  split; [exact H|].
  destruct (proj1 double_is_a_draw_then_a_doubled_stick 0%nat example_table H)
    as (card & obs & reward & s' & Hc & _ & Hrun & _ & _ & Hp & _).
  exists obs, reward, s'. split; [exact Hrun|].
  rewrite Hp, Hc. reflexivity.
Defined.

Lemma double_never_pays_a_natural_witness :
  (2 <= length (MyBlackjackEnv.player example_shoe_table))%nat
  /\ shoe_ok (MyBlackjackEnv.deck example_shoe_table)
  /\ 17 - sum (MyBlackjackEnv.dealer example_shoe_table) <= Z.of_nat 14
  /\ exists obs reward reseted s',
       MyBlackjackEnv.step 14 2 example_shoe_table = (Ok (obs, reward, true, reseted), s')
       /\ (reward = (-2 # 1)%Q \/ reward = 0%Q \/ reward = (2 # 1)%Q).
Proof.
  assert (Hlen : (2 <= length (MyBlackjackEnv.player example_shoe_table))%nat)
    by (vm_compute; constructor).
  assert (Hok : shoe_ok (MyBlackjackEnv.deck example_shoe_table)) by evaluate_shoe_ok.
  assert (H : 17 - sum (MyBlackjackEnv.dealer example_shoe_table) <= Z.of_nat 14)
    by (vm_compute; discriminate).
  split; [exact Hlen|]. split; [exact Hok|]. split; [exact H|].
  destruct (proj2 double_never_pays_a_natural 14%nat example_shoe_table Hlen Hok H)
    as (obs & reward & reseted & s' & Hrun & _ & Hr).
  exists obs, reward, reseted, s'. split; [exact Hrun|exact Hr].
Defined.

Lemma exposure_is_emptied_by_a_reshuffle_witness :
  reachable reshuffled_shoe_table
  /\ MyBlackjackEnv.cards_to_index reshuffled_shoe_table = Ok (repeat 0 10).
Proof.
  assert (Hr : reachable reshuffled_shoe_table).
  { unfold reshuffled_shoe_table. cbn [resets].
    do 13 apply reachable_reset. apply reachable_init. }
  split; [exact Hr|].
  destruct (proj2 exposure_is_emptied_by_a_reshuffle reshuffled_shoe_table Hr)
    as (_ & _ & _ & Hlast).
  refine (proj2 (Hlast (removelast (Deck.history (MyBlackjackEnv.deck reshuffled_shoe_table)))
                   10 _)).
  vm_compute. reflexivity.
Defined.

(** * Further properties of the program *)

(** ** Scoring *)

Lemma sum_bounds (hand : list Z) :
  Forall valid_card hand ->
  Z.of_nat (length hand) <= sum hand <= 10 * Z.of_nat (length hand).
Proof.
  induction 1 as [|c hand Hc _ IH].
  - rewrite sum_nil. simpl. lia.
  - rewrite sum_cons. unfold valid_card in Hc. cbn [length]. lia.
Qed.

(** What appending a card can do to a total: with a usable ace the total
    stays within 21, without one it is the plain sum. *)
Lemma sum_hand_snoc_le (hand : list Z) (c : Z) :
  sum_hand (hand ++ [c]) <= Z.max 21 (sum_hand hand + c).
Proof.
  pose proof (sum_hand_ge_sum hand) as Hge.
  unfold sum_hand at 1. unfold usable_ace.
  destruct (contains 1 (hand ++ [c])); cbn [andb]; rewrite sum_snoc.
  - destruct (Z.leb_spec (sum hand + c + 10) 21); lia.
  - lia.
Qed.

(** X1: [is_natural] holds of exactly the two hands [1, 10] and [10, 1];
    such a hand has a usable ace, totals 21, is not bust and scores 21. *)
Theorem natural_is_ace_and_ten (hand : list Z) :
  (is_natural hand = true <-> hand = [1; 10] \/ hand = [10; 1])
  /\ (is_natural hand = true ->
      usable_ace hand = true /\ sum_hand hand = 21
      /\ is_bust hand = false /\ score hand = 21).
Proof.
  assert (Hiff : is_natural hand = true <-> hand = [1; 10] \/ hand = [10; 1]).
  { split.
    - intros H. pose proof (is_natural_length hand H) as Hlen.
      destruct hand as [|a [|b [|c rest]]]; try discriminate Hlen.
      unfold is_natural, sorted in H. cbn [fold_right insert_sorted] in H.
      destruct (a <=? b); cbn [list_eqb] in H;
        apply andb_prop in H as [Ha H]; apply andb_prop in H as [Hb _];
        apply Z.eqb_eq in Ha, Hb; subst; auto.
    - intros [-> | ->]; reflexivity. }
  split; [exact Hiff|].
  intros H. apply Hiff in H as [-> | ->]; repeat split.
Qed.

(** X2: [cmp(a, b)] is 1, 0 or -1 as [a] is above, equal to or below [b],
    and swapping the arguments negates it. *)
Theorem cmp_is_the_sign (a b : Z) :
  (cmp a b = 1%Q <-> a > b)
  /\ (cmp a b = 0%Q <-> a = b)
  /\ (cmp a b = (-1)%Q <-> a < b)
  /\ cmp b a = Qopp (cmp a b).
Proof.
  destruct (cmp_cases a b) as [[H E]|[[H E]|[H E]]];
    destruct (cmp_cases b a) as [[H' E']|[[H' E']|[H' E']]]; try lia;
    rewrite E, ?E'; repeat split; intros; try lia; try discriminate; reflexivity.
Qed.

(** X3: a score never exceeds 21, and a hand with a usable ace is never
    bust; for a hand of card values the score is not negative, and a usable
    ace puts the total between 11 and 21. *)
Theorem score_is_at_most_21 (hand : list Z) :
  score hand <= 21
  /\ (usable_ace hand = true -> is_bust hand = false /\ sum_hand hand <= 21)
  /\ (Forall valid_card hand ->
      0 <= score hand
      /\ (usable_ace hand = true -> 11 <= sum_hand hand)).
Proof.
  split; [|split].
  - unfold score, is_bust. destruct (Z.gtb_spec (sum_hand hand) 21); lia.
  - intros Hu. unfold is_bust, sum_hand. rewrite Hu.
    unfold usable_ace in Hu. apply andb_prop in Hu as [_ Hle]. apply Z.leb_le in Hle.
    split; [|exact Hle]. destruct (Z.gtb_spec (sum hand + 10) 21); [lia|reflexivity].
  - intros Hv. pose proof (sum_bounds hand Hv) as Hb.
    pose proof (sum_hand_ge_sum hand) as Hge.
    split.
    + unfold score. destruct (is_bust hand); lia.
    + intros Hu. unfold sum_hand. rewrite Hu.
      unfold usable_ace in Hu. apply andb_prop in Hu as [Hin _].
      apply contains_In in Hin. destruct hand; [contradiction|].
      cbn [length] in Hb. lia.
Qed.

(** ** The infinite-deck simulator, from reset to the end of an episode *)

Lemma coming_card_valid (r : RandomState) (i : nat) : valid_card (coming_card r i).
Proof. apply draw_card_valid. Qed.

Lemma coming_card_eq (r : RandomState) (i : nat) :
  coming_card r i = nth (tape r (pos r + i) mod length deck) deck 0.
Proof. reflexivity. Qed.

Lemma BlackjackEnv_reset_eq (s : BlackjackEnv.t) :
  let r := BlackjackEnv.np_random s in
  BlackjackEnv.reset s =
  (Ok (sum_hand [coming_card r 2; coming_card r 3], coming_card r 0,
       usable_ace [coming_card r 2; coming_card r 3]),
   {| BlackjackEnv.natural := BlackjackEnv.natural s;
      BlackjackEnv.double := BlackjackEnv.double s;
      BlackjackEnv.player := [coming_card r 2; coming_card r 3];
      BlackjackEnv.dealer := [coming_card r 0; coming_card r 1];
      BlackjackEnv.np_random := {| tape := tape r; pos := pos r + 4 |} |}).
Proof.
  intros r. subst r. rewrite !coming_card_eq.
  replace (pos (BlackjackEnv.np_random s) + 0)%nat
    with (pos (BlackjackEnv.np_random s)) by lia.
  replace (pos (BlackjackEnv.np_random s) + 1)%nat
    with (S (pos (BlackjackEnv.np_random s))) by lia.
  replace (pos (BlackjackEnv.np_random s) + 2)%nat
    with (S (S (pos (BlackjackEnv.np_random s)))) by lia.
  replace (pos (BlackjackEnv.np_random s) + 3)%nat
    with (S (S (S (pos (BlackjackEnv.np_random s))))) by lia.
  replace (pos (BlackjackEnv.np_random s) + 4)%nat
    with (S (S (S (S (pos (BlackjackEnv.np_random s)))))) by lia.
  reflexivity.
Qed.

(** The total of two cards lies between 4 and 21. *)
Lemma two_card_total (a b : Z) :
  valid_card a -> valid_card b -> 4 <= sum_hand [a; b] <= 21.
Proof.
  intros Ha Hb. unfold valid_card in *.
  unfold sum_hand, usable_ace, contains. cbn [existsb].
  change (sum [a; b]) with (0 + a + b).
  destruct (Z.eqb_spec 1 a), (Z.eqb_spec 1 b);
    cbn [orb andb]; destruct (Z.leb_spec (0 + a + b + 10) 21); lia.
Qed.

(** X4: [BlackjackEnv.reset] never raises.  Whatever the hands were, it
    deals the generator's next two cards to the dealer and the two after
    them to the player, keeps the configuration, and returns the player's
    total, between 4 and 21, with the dealer's first card; the observation
    lies in the declared observation space. *)
Theorem BlackjackEnv_reset_deals_two_cards_each (s : BlackjackEnv.t) :
  let r := BlackjackEnv.np_random s in
  exists obs s',
    BlackjackEnv.reset s = (Ok obs, s')
    /\ BlackjackEnv.dealer s' = [coming_card r 0; coming_card r 1]
    /\ BlackjackEnv.player s' = [coming_card r 2; coming_card r 3]
    /\ dealt (BlackjackEnv.player s') (BlackjackEnv.dealer s')
    /\ BlackjackEnv.natural s' = BlackjackEnv.natural s
    /\ BlackjackEnv.double s' = BlackjackEnv.double s
    /\ tape (BlackjackEnv.np_random s') = tape r
    /\ pos (BlackjackEnv.np_random s') = (pos r + 4)%nat
    /\ obs = (sum_hand (BlackjackEnv.player s'), coming_card r 0,
              usable_ace (BlackjackEnv.player s'))
    /\ 4 <= sum_hand (BlackjackEnv.player s') <= 21
    /\ observation_space_contains obs = true.
Proof.
  intros r. eexists _, _. split; [apply BlackjackEnv_reset_eq|].
  fold r. cbn [BlackjackEnv.dealer BlackjackEnv.player BlackjackEnv.natural
               BlackjackEnv.double BlackjackEnv.np_random tape pos].
  pose proof (coming_card_valid r 0) as H0. pose proof (coming_card_valid r 1) as H1.
  pose proof (coming_card_valid r 2) as H2. pose proof (coming_card_valid r 3) as H3.
  pose proof (two_card_total _ _ H2 H3) as Ht.
  repeat (split; [reflexivity|]).
  split; [|repeat (split; [reflexivity|])].
  - unfold dealt. split; [|split; [|split]].
    + constructor; [exact H2|constructor; [exact H3|constructor]].
    + constructor; [exact H0|constructor; [exact H1|constructor]].
    + cbn [length]. lia.
    + cbn [length]. lia.
  - split; [exact Ht|].
    unfold observation_space_contains, Discrete_contains. unfold valid_card in H0.
    destruct (Z.leb_spec 0 (sum_hand [coming_card r 2; coming_card r 3])); [|lia].
    destruct (Z.ltb_spec (sum_hand [coming_card r 2; coming_card r 3]) 32); [|lia].
    destruct (Z.leb_spec 0 (coming_card r 0)); [|lia].
    destruct (Z.ltb_spec (coming_card r 0) 11); [|lia]. reflexivity.
Qed.

Lemma BlackjackEnv_preserves_get_obs (I : BlackjackEnv.t -> Prop) :
  preserves I BlackjackEnv.get_obs.
Proof.
  intros s H. unfold BlackjackEnv.get_obs. now destruct (BlackjackEnv.dealer s).
Qed.

Lemma BlackjackEnv_player_draw_then {B : Type} (I : BlackjackEnv.t -> Prop)
    (k : M BlackjackEnv.t B) :
  (forall s, I s -> I (BlackjackEnv_after_player_draw s)) ->
  preserves I k ->
  preserves I
    (bind BlackjackEnv.draw (fun c =>
       bind (modify (fun s => BlackjackEnv.set_player (BlackjackEnv.player s ++ [c]) s))
            (fun _ => k))).
Proof.
  intros Hp Hk s H. specialize (Hp s H). unfold BlackjackEnv_after_player_draw in Hp.
  unfold bind at 1 2, BlackjackEnv.draw, modify.
  destruct (draw_card (BlackjackEnv.np_random s)) as [c r]. cbn in *.
  now apply Hk.
Qed.

Lemma BlackjackEnv_dealer_draws_preserves (I : BlackjackEnv.t -> Prop) (u : unit) :
  (forall s, I s -> I (BlackjackEnv_after_dealer_draw s)) ->
  preserves I (BlackjackEnv.dealer_draws u).
Proof.
  intros Hd s H. destruct u. rewrite BlackjackEnv_dealer_draws_eq. exact (Hd s H).
Qed.

(** A property of the state that the two draws keep is kept by [step],
    whatever the action, the fuel and the outcome. *)
Lemma BlackjackEnv_step_preserves (I : BlackjackEnv.t -> Prop) (fuel : nat) (action : Z) :
  (forall s, I s -> I (BlackjackEnv_after_player_draw s)) ->
  (forall s, I s -> I (BlackjackEnv_after_dealer_draw s)) ->
  preserves I (BlackjackEnv.step fuel action).
Proof.
  intros Hp Hd. unfold BlackjackEnv.step.
  apply preserves_bind; [apply preserves_gets|]. intros ok.
  apply preserves_bind; [destruct ok; [apply preserves_ret|apply preserves_raise]|].
  intros _.
  apply preserves_bind.
  - destruct (action =? 1); [|destruct (action =? 0); [|destruct (action =? 2)]].
    + apply BlackjackEnv_player_draw_then; [exact Hp|].
      apply preserves_bind; [apply preserves_gets|]. intros p.
      destruct (is_bust p); apply preserves_ret.
    + apply preserves_bind;
        [apply preserves_while; intros u; now apply BlackjackEnv_dealer_draws_preserves|].
      intros _. repeat (apply preserves_bind; [apply preserves_gets|]; intros ?).
      apply preserves_ret.
    + apply BlackjackEnv_player_draw_then; [exact Hp|].
      apply preserves_bind;
        [apply preserves_while; intros u; now apply BlackjackEnv_dealer_draws_preserves|].
      intros _. repeat (apply preserves_bind; [apply preserves_gets|]; intros ?).
      apply preserves_ret.
    + apply preserves_ret.
  - intros [reward done].
    apply preserves_bind; [apply BlackjackEnv_preserves_get_obs|]. intros obs.
    apply preserves_bind; [apply preserves_load|]. intros rw.
    apply preserves_bind; [apply preserves_load|]. intros dn.
    apply preserves_ret.
Qed.

Lemma dealt_more_player (p d : list Z) (c : Z) :
  valid_card c -> dealt p d -> dealt (p ++ [c]) d.
Proof.
  intros Hc (Hp & Hd & Hlp & Hld). unfold dealt. rewrite length_app. cbn [length].
  repeat split; try assumption; [|lia].
  apply Forall_app. split; [exact Hp|]. constructor; [exact Hc|constructor].
Qed.

Lemma dealt_more_dealer (p d : list Z) (c : Z) :
  valid_card c -> dealt p d -> dealt p (d ++ [c]).
Proof.
  intros Hc (Hp & Hd & Hlp & Hld). unfold dealt. rewrite length_app. cbn [length].
  repeat split; try assumption; [|lia].
  apply Forall_app. split; [exact Hd|]. constructor; [exact Hc|constructor].
Qed.

(** Every reachable state of the infinite-deck simulator has two hands dealt. *)
Lemma BlackjackEnv_reachable_dealt (s : BlackjackEnv.t) :
  BlackjackEnv_reachable s -> dealt (BlackjackEnv.player s) (BlackjackEnv.dealer s).
Proof.
  assert (Hreset : forall s0, dealt (BlackjackEnv.player (snd (BlackjackEnv.reset s0)))
                                (BlackjackEnv.dealer (snd (BlackjackEnv.reset s0)))).
  { intros s0. rewrite BlackjackEnv_reset_eq. cbn [snd BlackjackEnv.player BlackjackEnv.dealer].
    unfold dealt. split; [|split; [|split]].
    - constructor; [apply coming_card_valid|constructor; [apply coming_card_valid|constructor]].
    - constructor; [apply coming_card_valid|constructor; [apply coming_card_valid|constructor]].
    - cbn [length]. lia.
    - cbn [length]. lia. }
  induction 1 as [natural double g|s Hr IH|s fuel action Hr IH].
  - apply Hreset.
  - apply Hreset.
  - revert IH.
    apply (BlackjackEnv_step_preserves
             (fun s => dealt (BlackjackEnv.player s) (BlackjackEnv.dealer s))).
    + intros s0 H. apply dealt_more_player; [apply draw_card_valid|exact H].
    + intros s0 H. apply dealt_more_dealer; [apply draw_card_valid|exact H].
Qed.

Lemma dealt_fuel (p d : list Z) (fuel : nat) :
  dealt p d -> (15 <= fuel)%nat -> 17 - sum d <= Z.of_nat fuel.
Proof.
  intros (_ & Hd & _ & Hld) Hf. pose proof (sum_bounds d Hd). lia.
Qed.

Lemma dealt_upcard (p d : list Z) :
  dealt p d -> exists upcard, head d = Some upcard /\ valid_card upcard.
Proof.
  intros (_ & Hd & _ & Hld). destruct d as [|u rest]; [cbn in Hld; lia|].
  exists u. split; [reflexivity|]. now apply Forall_cons in Hd as [Hu _].
Qed.

Lemma in_observation_space (total upcard : Z) (ace : bool) :
  0 <= total <= 31 -> valid_card upcard ->
  observation_space_contains (total, upcard, ace) = true.
Proof.
  intros Ht Hu. unfold valid_card in Hu.
  unfold observation_space_contains, Discrete_contains.
  destruct (Z.leb_spec 0 total); [|lia]. destruct (Z.ltb_spec total 32); [|lia].
  destruct (Z.leb_spec 0 upcard); [|lia]. destruct (Z.ltb_spec upcard 11); [|lia].
  reflexivity.
Qed.

Lemma total_after_card (p : list Z) (c : Z) :
  Forall valid_card p -> valid_card c -> is_bust p = false ->
  0 <= sum_hand (p ++ [c]) <= 31.
Proof.
  intros Hp Hc Hb. unfold valid_card in Hc.
  pose proof (sum_hand_snoc_le p c) as Hle.
  pose proof (sum_hand_ge_sum (p ++ [c])) as Hge.
  assert (Hpc : Forall valid_card (p ++ [c])).
  { apply Forall_app. split; [exact Hp|]. constructor; [exact Hc|constructor]. }
  pose proof (sum_bounds _ Hpc) as Hs.
  unfold is_bust in Hb. destruct (Z.gtb_spec (sum_hand p) 21); [discriminate|]. lia.
Qed.

Lemma total_of_live_hand (p : list Z) :
  Forall valid_card p -> is_bust p = false -> 0 <= sum_hand p <= 31.
Proof.
  intros Hp Hb. pose proof (sum_hand_ge_sum p). pose proof (sum_bounds p Hp).
  unfold is_bust in Hb. destruct (Z.gtb_spec (sum_hand p) 21); [discriminate|]. lia.
Qed.

(** X5: from every reachable state of the infinite-deck simulator, [step]
    with an action in {0, 1, 2} returns (fuel 15 is enough for the dealer's
    loop): it never raises.  The observation shows the dealer's first card,
    which no step changes, and when the player was not bust before the call
    it lies in the declared observation space. *)
Theorem BlackjackEnv_step_returns_an_observation
    (s : BlackjackEnv.t) (fuel : nat) (action : Z) :
  BlackjackEnv_reachable s ->
  action = 0 \/ action = 1 \/ action = 2 ->
  (15 <= fuel)%nat ->
  exists upcard reward done s',
    BlackjackEnv.step fuel action s
    = (Ok (sum_hand (BlackjackEnv.player s'), upcard,
           usable_ace (BlackjackEnv.player s'), reward, done, tt), s')
    /\ head (BlackjackEnv.dealer s) = Some upcard
    /\ head (BlackjackEnv.dealer s') = Some upcard
    /\ (is_bust (BlackjackEnv.player s) = false ->
        observation_space_contains
          (sum_hand (BlackjackEnv.player s'), upcard,
           usable_ace (BlackjackEnv.player s')) = true).
Proof.
  intros Hr Ha Hf. pose proof (BlackjackEnv_reachable_dealt s Hr) as Hdealt.
  destruct (dealt_upcard _ _ Hdealt) as (upcard & Hup & Hval).
  pose proof (dealt_fuel _ _ fuel Hdealt Hf) as Hfuel.
  destruct Hdealt as (Hp & Hd & Hlp & Hld).
  assert (Hhead : forall ds, head (BlackjackEnv.dealer s ++ ds) = Some upcard).
  { intros ds. destruct (BlackjackEnv.dealer s); [discriminate|exact Hup]. }
  destruct Ha as [-> | [-> | ->]].
  - destruct (BlackjackEnv_stick_spec fuel s Hfuel)
      as (ds & u & s' & Hrun & Hu & _ & _ & Hpl & Hdl & _).
    rewrite Hdl, Hhead in Hu. injection Hu as <-.
    eexists upcard, _, _, s'. rewrite Hpl. split; [exact Hrun|].
    split; [exact Hup|]. split; [rewrite Hdl; apply Hhead|].
    intros Hb. apply in_observation_space; [|exact Hval].
    now apply total_of_live_hand.
  - pose proof (BlackjackEnv_hit_spec fuel s upcard Hup) as Hrun. cbv zeta in Hrun.
    eexists upcard, _, _, _. split; [exact Hrun|].
    split; [exact Hup|]. split; [exact Hup|].
    intros Hb. apply in_observation_space; [|exact Hval].
    apply total_after_card; [exact Hp|apply draw_card_valid|exact Hb].
  - destruct (BlackjackEnv_stick_spec fuel (BlackjackEnv_after_player_draw s) Hfuel)
      as (ds & u & s' & Hrun & Hu & _ & _ & Hpl & Hdl & _).
    cbn in Hdl. rewrite Hdl, Hhead in Hu. injection Hu as <-.
    eexists upcard, _, _, s'. rewrite BlackjackEnv_double_is_stick, Hrun, Hpl.
    split; [reflexivity|].
    split; [exact Hup|]. split; [rewrite Hdl; apply Hhead|].
    intros Hb. apply in_observation_space; [|exact Hval].
    apply total_after_card; [exact Hp|apply draw_card_valid|exact Hb].
Qed.


(** ** The shoe, card by card *)

(** X7: a draw from a shoe that holds a card returns one of the shoe's
    cards and takes exactly that card out, keeping the others in their
    order; it reports a reshuffle exactly when the card was the last one, and
    the shoe is then full again.  It reads one number of the generator. *)
Theorem Deck_draw_takes_the_card_it_returns (d : Deck.t) :
  Deck.cards d <> [] ->
  exists card reseted d',
    Deck.draw d = (Ok (card, reseted), d')
    /\ In card (Deck.cards d)
    /\ (reseted = true <-> length (Deck.cards d) = 1%nat)
    /\ (reseted = false ->
        Deck.cards d ≡ₚ card :: Deck.cards d'
        /\ Deck.cards d' `sublist_of` Deck.cards d)
    /\ (reseted = true ->
        Deck.cards d = [card]
        /\ length (Deck.cards d') = 52%nat
        /\ forall v, count v (Deck.cards d') = full_shoe_count v)
    /\ tape (Deck.np_random d') = tape (Deck.np_random d)
    /\ pos (Deck.np_random d') = S (pos (Deck.np_random d)).
Proof.
  intros Hne. pose proof (next_card_lookup d Hne) as Hlook.
  exists (next_card d), (reshuffles d), (Deck_after_draw d).
  split; [exact (Deck_draw_eq d Hne)|].
  split; [apply list_elem_of_In, list_elem_of_lookup; eauto|].
  split; [unfold reshuffles; apply Nat.eqb_eq|].
  unfold Deck_after_draw. cbn [Deck.cards Deck.np_random tape pos].
  split; [|split; [|split; reflexivity]].
  - intros ->. split; [now apply delete_Permutation|apply sublist_delete].
  - intros Hr. rewrite Hr. split; [|split; [reflexivity|apply full_shoe_composition]].
    unfold reshuffles in Hr. apply Nat.eqb_eq in Hr.
    destruct (Deck.cards d) as [|c [|c' l]] eqn:E; try discriminate Hr.
    destruct (next_index d) as [|i]; cbn in Hlook; [now injection Hlook as <-|discriminate].
Qed.

(** ** The finite-deck simulator, from reset to the end of an episode *)

Lemma player_draws_empty (reseted : bool) (s : MyBlackjackEnv.t) :
  Deck.cards (MyBlackjackEnv.deck s) = [] ->
  MyBlackjackEnv.player_draws reseted s = (Raise ValueError, s).
Proof.
  intros He. unfold MyBlackjackEnv.player_draws, bind.
  now rewrite (deck_draw_empty s He).
Qed.

Lemma dealer_draws_empty (reseted : bool) (s : MyBlackjackEnv.t) :
  Deck.cards (MyBlackjackEnv.deck s) = [] ->
  MyBlackjackEnv.dealer_draws reseted s = (Raise ValueError, s).
Proof.
  intros He. unfold MyBlackjackEnv.dealer_draws, bind.
  now rewrite (deck_draw_empty s He).
Qed.

Lemma cards_empty_dec (d : Deck.t) : Deck.cards d = [] \/ Deck.cards d <> [].
Proof. destruct (Deck.cards d); [now left|now right]. Qed.

(** A property of the state that the two draws keep is kept by [step],
    whatever the action, the fuel and the outcome. *)
Lemma MyBlackjackEnv_step_preserves (I : MyBlackjackEnv.t -> Prop)
    (fuel : nat) (action : Z) :
  (forall s, Deck.cards (MyBlackjackEnv.deck s) <> [] ->
             I s -> I (MyBlackjackEnv_after_player_draw s)) ->
  (forall s, Deck.cards (MyBlackjackEnv.deck s) <> [] ->
             I s -> I (MyBlackjackEnv_after_dealer_draw s)) ->
  preserves I (MyBlackjackEnv.step fuel action).
Proof.
  intros Hp Hd.
  assert (Hpd : forall r, preserves I (MyBlackjackEnv.player_draws r)).
  { intros r s H. destruct (cards_empty_dec (MyBlackjackEnv.deck s)) as [He|Hne].
    - now rewrite (player_draws_empty r s He).
    - rewrite (player_draws_eq r s Hne). now apply Hp. }
  assert (Hdd : forall r, preserves I (MyBlackjackEnv.dealer_draws r)).
  { intros r s H. destruct (cards_empty_dec (MyBlackjackEnv.deck s)) as [He|Hne].
    - now rewrite (dealer_draws_empty r s He).
    - rewrite (dealer_draws_eq r s Hne). now apply Hd. }
  assert (Hds : forall r, preserves I (MyBlackjackEnv.dealer_draws_stick r)).
  { intros r s H. rewrite dealer_draws_stick_eq. now apply Hdd. }
  unfold MyBlackjackEnv.step.
  apply preserves_bind.
  - destruct (action =? 1); [|destruct (action =? 0); [|destruct (action =? 2)]].
    + apply preserves_bind; [apply Hpd|]. intros r.
      apply preserves_bind; [apply preserves_gets|]. intros p.
      destruct (is_bust p); apply preserves_ret.
    + apply preserves_bind; [apply preserves_while; apply Hds|].
      intros r. repeat (apply preserves_bind; [apply preserves_gets|]; intros ?).
      apply preserves_ret.
    + apply preserves_bind; [apply Hpd|]. intros r.
      apply preserves_bind; [apply preserves_while; apply Hdd|].
      intros r'. repeat (apply preserves_bind; [apply preserves_gets|]; intros ?).
      apply preserves_ret.
    + apply preserves_ret.
  - intros [[reward done] r].
    apply preserves_bind; [apply preserves_get_obs|]. intros obs.
    apply preserves_bind; [apply preserves_load|]. intros rw.
    apply preserves_bind; [apply preserves_load|]. intros dn.
    apply preserves_ret.
Qed.


Lemma MyBlackjackEnv_reset_eq (s : MyBlackjackEnv.t) :
  Deck.cards (MyBlackjackEnv.deck s) <> [] ->
  let s0 := MyBlackjackEnv.set_dealer [] (MyBlackjackEnv.set_player [] s) in
  let s1 := MyBlackjackEnv_after_dealer_draw s0 in
  let s2 := MyBlackjackEnv_after_dealer_draw s1 in
  let s3 := MyBlackjackEnv_after_player_draw s2 in
  let s4 := MyBlackjackEnv_after_player_draw s3 in
  MyBlackjackEnv.reset s =
  (Ok (sum_hand (MyBlackjackEnv.player s4), next_card (MyBlackjackEnv.deck s0),
       usable_ace (MyBlackjackEnv.player s4), 0, false,
       reshuffles (MyBlackjackEnv.deck s0) || reshuffles (MyBlackjackEnv.deck s1)
       || reshuffles (MyBlackjackEnv.deck s2) || reshuffles (MyBlackjackEnv.deck s3)),
   s4).
Proof.
  intros Hne s0 s1 s2 s3 s4.
  assert (H0 : Deck.cards (MyBlackjackEnv.deck s0) <> []) by exact Hne.
  assert (H1 : Deck.cards (MyBlackjackEnv.deck s1) <> [])
    by exact (Deck_after_draw_nonempty _ H0).
  assert (H2 : Deck.cards (MyBlackjackEnv.deck s2) <> [])
    by exact (Deck_after_draw_nonempty _ H1).
  assert (H3 : Deck.cards (MyBlackjackEnv.deck s3) <> [])
    by exact (Deck_after_draw_nonempty _ H2).
  unfold MyBlackjackEnv.reset. cbn [for_range].
  unfold bind at 1, modify at 1. unfold bind at 1, modify at 1.
  fold s0.
  unfold bind at 1 2. rewrite (dealer_draws_eq _ _ H0). fold s1.
  unfold bind at 1. rewrite (dealer_draws_eq _ _ H1). fold s2.
  unfold ret at 1.
  unfold bind at 1 2. rewrite (player_draws_eq _ _ H2). fold s3.
  unfold bind at 1. rewrite (player_draws_eq _ _ H3). fold s4.
  unfold ret at 1. unfold bind, ret, MyBlackjackEnv.get_obs.
  change (MyBlackjackEnv.dealer s4)
    with [next_card (MyBlackjackEnv.deck s0); next_card (MyBlackjackEnv.deck s1)].
  cbv iota beta.
  destruct (reshuffles (MyBlackjackEnv.deck s0)), (reshuffles (MyBlackjackEnv.deck s1)),
    (reshuffles (MyBlackjackEnv.deck s2)), (reshuffles (MyBlackjackEnv.deck s3));
    reflexivity.
Qed.

(** X9: [MyBlackjackEnv.reset] with a shoe that holds a card never raises.
    It discards the old hands, gives the next two cards of the shoe to the
    dealer and the two after them to the player, and returns reward 0, not
    done, and whether one of the four draws reshuffled.  It does not clear
    the exposure record: without a reshuffle the four cards are added to it. *)
Theorem MyBlackjackEnv_reset_deals_from_the_shoe (s : MyBlackjackEnv.t) :
  Deck.cards (MyBlackjackEnv.deck s) <> [] ->
  exists c1 f1 c2 f2 c3 f3 c4 f4 s',
    draws 4 (MyBlackjackEnv.deck s)
    = (Ok [(c1, f1); (c2, f2); (c3, f3); (c4, f4)], MyBlackjackEnv.deck s')
    /\ MyBlackjackEnv.reset s
       = (Ok (sum_hand [c3; c4], c1, usable_ace [c3; c4], 0, false,
              f1 || f2 || f3 || f4), s')
    /\ MyBlackjackEnv.dealer s' = [c1; c2]
    /\ MyBlackjackEnv.player s' = [c3; c4]
    /\ MyBlackjackEnv.natural s' = MyBlackjackEnv.natural s
    /\ MyBlackjackEnv.cards s'
       = exposure_after (MyBlackjackEnv.cards s)
           [(c1, f1); (c2, f2); (c3, f3); (c4, f4)]
    /\ (f1 || f2 || f3 || f4 = false ->
        MyBlackjackEnv.cards s' = MyBlackjackEnv.cards s ++ [c1; c2; c3; c4]).
Proof.
  intros Hne. pose proof (MyBlackjackEnv_reset_eq s Hne) as Hrun. cbv zeta in Hrun.
  set (d0 := MyBlackjackEnv.deck s).
  set (d1 := Deck_after_draw d0). set (d2 := Deck_after_draw d1).
  set (d3 := Deck_after_draw d2).
  assert (H1 : Deck.cards d1 <> []) by exact (Deck_after_draw_nonempty _ Hne).
  assert (H2 : Deck.cards d2 <> []) by exact (Deck_after_draw_nonempty _ H1).
  assert (H3 : Deck.cards d3 <> []) by exact (Deck_after_draw_nonempty _ H2).
  exists (next_card d0), (reshuffles d0), (next_card d1), (reshuffles d1),
    (next_card d2), (reshuffles d2), (next_card d3), (reshuffles d3).
  eexists. split; [|split; [exact Hrun|]].
  - rewrite (draws_S 3 d0 Hne). fold d1. rewrite (draws_S 2 d1 H1). fold d2.
    rewrite (draws_S 1 d2 H2). fold d3. rewrite (draws_S 0 d3 H3). reflexivity.
  - repeat (split; [reflexivity|]).
    intros Hf. apply orb_false_elim in Hf as [Hf Hf4].
    apply orb_false_elim in Hf as [Hf Hf3]. apply orb_false_elim in Hf as [Hf1 Hf2].
    cbn. fold d0. rewrite Hf1. fold d1. rewrite Hf2. fold d2. rewrite Hf3.
    fold d3. rewrite Hf4. now rewrite <- !app_assoc.
Qed.

Lemma consistent_after_player_draw (s : MyBlackjackEnv.t) :
  consistent s -> consistent (MyBlackjackEnv_after_player_draw s).
Proof. intros H. exact (consistent_after_draw s H). Qed.

Lemma consistent_after_dealer_draw (s : MyBlackjackEnv.t) :
  consistent s -> consistent (MyBlackjackEnv_after_dealer_draw s).
Proof. intros H. exact (consistent_after_draw s H). Qed.

Lemma in_play_reachable (s : MyBlackjackEnv.t) : in_play s -> reachable s.
Proof. induction 1; now constructor. Qed.

(** Once the finite-deck simulator has been reset, two hands are dealt. *)
Lemma in_play_dealt (s : MyBlackjackEnv.t) :
  in_play s -> dealt (MyBlackjackEnv.player s) (MyBlackjackEnv.dealer s).
Proof.
  induction 1 as [s Hr|s fuel action Hp IH].
  - destruct (reachable_consistent s Hr) as (Hok & _).
    rewrite (MyBlackjackEnv_reset_eq s (proj1 Hok)). cbn [snd].
    set (d0 := MyBlackjackEnv.deck s).
    assert (H1 : shoe_ok (Deck_after_draw d0)) by now apply Deck_after_draw_ok.
    assert (H2 : shoe_ok (Deck_after_draw (Deck_after_draw d0)))
      by now apply Deck_after_draw_ok.
    assert (H3 : shoe_ok (Deck_after_draw (Deck_after_draw (Deck_after_draw d0))))
      by now apply Deck_after_draw_ok.
    unfold dealt. cbn. fold d0. split; [|split; [|split; lia]].
    + constructor; [now apply next_card_valid|].
      constructor; [now apply next_card_valid|constructor].
    + constructor; [now apply next_card_valid|].
      constructor; [now apply next_card_valid|constructor].
  - pose proof (reachable_consistent s (in_play_reachable s Hp)) as Hc.
    assert (HJ : consistent s /\ dealt (MyBlackjackEnv.player s) (MyBlackjackEnv.dealer s))
      by (split; assumption).
    refine (proj2 (MyBlackjackEnv_step_preserves
                     (fun x => consistent x
                               /\ dealt (MyBlackjackEnv.player x) (MyBlackjackEnv.dealer x))
                     fuel action _ _ s HJ)).
    + intros x _ [Hx Hd]. split; [now apply consistent_after_player_draw|].
      apply dealt_more_player; [apply next_card_valid, Hx|exact Hd].
    + intros x _ [Hx Hd]. split; [now apply consistent_after_dealer_draw|].
      apply dealt_more_dealer; [apply next_card_valid, Hx|exact Hd].
Qed.

(** X10: once the finite-deck simulator has been reset, [step] with an
    action in {0, 1, 2} returns (fuel 15 is enough for the dealer's loop): it
    never raises, the shoe never runs dry under it, and the observation
    shows the dealer's first card, which no step changes. *)
Theorem MyBlackjackEnv_step_returns_an_observation
    (s : MyBlackjackEnv.t) (fuel : nat) (action : Z) :
  in_play s ->
  action = 0 \/ action = 1 \/ action = 2 ->
  (15 <= fuel)%nat ->
  exists upcard reward done reseted s',
    MyBlackjackEnv.step fuel action s
    = (Ok (sum_hand (MyBlackjackEnv.player s'), upcard,
           usable_ace (MyBlackjackEnv.player s'), reward, done, reseted), s')
    /\ head (MyBlackjackEnv.dealer s) = Some upcard
    /\ head (MyBlackjackEnv.dealer s') = Some upcard
    /\ valid_card upcard
    /\ Deck.cards (MyBlackjackEnv.deck s') <> [].
Proof.
  intros Hp Ha Hf. pose proof (in_play_dealt s Hp) as Hdealt.
  destruct (reachable_consistent s (in_play_reachable s Hp)) as (Hok & _).
  destruct (dealt_upcard _ _ Hdealt) as (upcard & Hup & Hval).
  pose proof (dealt_fuel _ _ fuel Hdealt Hf) as Hfuel.
  assert (Hhead : forall ds, head (MyBlackjackEnv.dealer s ++ ds) = Some upcard).
  { intros ds. destruct (MyBlackjackEnv.dealer s); [discriminate|exact Hup]. }
  destruct Ha as [-> | [-> | ->]].
  - destruct (MyBlackjackEnv_stick_spec fuel s Hok Hfuel)
      as (evs & u & s' & Hrun & Hu & _ & Hpl & Hdl & _ & Hok' & _).
    rewrite Hdl, Hhead in Hu. injection Hu as <-.
    eexists upcard, _, _, _, s'. rewrite Hpl. split; [exact Hrun|].
    split; [exact Hup|]. split; [rewrite Hdl; apply Hhead|].
    split; [exact Hval|apply Hok'].
  - pose proof (MyBlackjackEnv_hit_spec fuel s upcard (proj1 Hok) Hup) as Hrun.
    cbv zeta in Hrun.
    eexists upcard, _, _, _, _. split; [exact Hrun|].
    split; [exact Hup|]. split; [exact Hup|]. split; [exact Hval|].
    now apply Deck_after_draw_nonempty, Hok.
  - destruct (MyBlackjackEnv_double_spec fuel s Hok Hfuel)
      as (evs & obs & reward & s' & Hstick & Hrun & _ & _ & Hpl & Hdl & _ & Hok' & Hfin & _).
    assert (Hobs : obs = (sum_hand (MyBlackjackEnv.player s'), upcard,
                          usable_ace (MyBlackjackEnv.player s'))).
    { assert (Hok1 : shoe_ok (MyBlackjackEnv.deck (MyBlackjackEnv_after_player_draw s)))
        by now apply Deck_after_draw_ok.
      destruct (MyBlackjackEnv_stick_spec fuel (MyBlackjackEnv_after_player_draw s)
                  Hok1 Hfuel)
        as (evs2 & u & s2 & Hrun2 & Hu & _ & Hpl2 & Hdl2 & _).
      rewrite Hstick in Hrun2. injection Hrun2 as -> _ _ <-.
      cbn in Hdl2. rewrite Hdl2, Hhead in Hu. injection Hu as <-.
      now rewrite Hpl2. }
    subst obs. eexists upcard, _, _, _, s'. split; [exact Hrun|].
    split; [exact Hup|]. split; [rewrite Hdl; apply Hhead|].
    split; [exact Hval|apply Hok'].
Qed.

(** ** Counting cards *)

Lemma sum_histogram_snoc (l : list Z) (c : Z) :
  valid_card c -> sum (histogram (l ++ [c])) = sum (histogram l) + 1.
Proof.
  intros Hc. unfold valid_card in Hc.
  assert (Hcases : c = 1 \/ c = 2 \/ c = 3 \/ c = 4 \/ c = 5
                   \/ c = 6 \/ c = 7 \/ c = 8 \/ c = 9 \/ c = 10) by lia.
  rewrite !histogram_eq, !count_snoc. unfold sum. cbn [fold_left].
  repeat (destruct Hcases as [->|Hcases]; [cbn; lia|]). subst c. cbn. lia.
Qed.

Lemma sum_histogram (l : list Z) :
  Forall valid_card l -> sum (histogram l) = Z.of_nat (length l).
Proof.
  induction l as [|c l IH] using rev_ind; intros Hv; [reflexivity|].
  apply Forall_app in Hv as [Hl Hc]. apply Forall_cons in Hc as [Hc _].
  rewrite (sum_histogram_snoc l c Hc), (IH Hl), length_app. cbn [length]. lia.
Qed.

Lemma count_app (v : Z) (l1 l2 : list Z) : count v (l1 ++ l2) = count v l1 + count v l2.
Proof. unfold count. rewrite count_occ_app. lia. Qed.

Lemma count_nonneg (v : Z) (l : list Z) : 0 <= count v l.
Proof. unfold count. lia. Qed.

(** X11: between calls the histogram tells what is left in the shoe.  In
    every reachable state [cards_to_index] returns ten counts, none
    negative; the count of a value and the cards of that value left in the
    shoe make up the 4 (or 16 tens) of a full shoe, and the counts sum to 52
    less the size of the shoe, which holds between 1 and 52 cards. *)
Theorem histogram_complements_the_shoe (s : MyBlackjackEnv.t) :
  reachable s ->
  let shoe := Deck.cards (MyBlackjackEnv.deck s) in
  exists index,
    MyBlackjackEnv.cards_to_index s = Ok index
    /\ length index = 10%nat
    /\ Forall (fun n => 0 <= n) index
    /\ (forall v, valid_card v ->
          index !! Z.to_nat (v - 1) = Some (full_shoe_count v - count v shoe))
    /\ sum index = 52 - Z.of_nat (length shoe)
    /\ (1 <= length shoe <= 52)%nat.
Proof.
  intros Hr shoe. destruct (reachable_consistent s Hr) as (Hok & Hv & Hc & Hperm).
  fold shoe in Hperm.
  exists (histogram (MyBlackjackEnv.cards s)).
  split; [now apply cards_to_index_histogram|].
  split; [reflexivity|].
  assert (Hlen : (length (MyBlackjackEnv.cards s) + length shoe = 52)%nat).
  { rewrite <- length_app, (Permutation_length Hperm). reflexivity. }
  split; [|split; [|split]].
  - rewrite histogram_eq. repeat constructor; apply count_nonneg.
  - intros v Hval. rewrite (histogram_lookup _ v Hval). f_equal.
    assert (Hcount : count v (MyBlackjackEnv.cards s ++ shoe) = count v full_shoe).
    { unfold count. f_equal.
      exact (proj1 (Permutation_count_occ Z.eq_dec _ _) Hperm v). }
    rewrite count_app, full_shoe_composition in Hcount. lia.
  - rewrite (sum_histogram _ Hv). lia.
  - destruct Hok as [Hne _]. fold shoe in Hne. destruct shoe; [contradiction|].
    cbn [length] in *. lia.
Qed.

(** ** How the dealer's play ends *)

(** The dealer's last card was drawn at a total of at most 16, so the final
    total is at most 26; every draw adds at least 1 to the plain sum, which
    bounds their number. *)
Lemma dealer_final_total (d ds : list Z) :
  Forall valid_card ds ->
  (forall k, (k < length ds)%nat -> sum_hand (d ++ take k ds) < 17) ->
  Z.of_nat (length ds) <= Z.max 0 (17 - sum d)
  /\ (ds <> [] -> sum_hand (d ++ ds) <= 26).
Proof.
  intros Hv Hbelow.
  destruct ds as [|c ds0 _] using rev_ind; [cbn; split; [lia|congruence]|].
  apply Forall_app in Hv as [Hv0 Hc]. apply Forall_cons in Hc as [Hc _].
  specialize (Hbelow (length ds0) ltac:(rewrite length_app; cbn; lia)).
  rewrite take_app_length in Hbelow.
  pose proof (sum_hand_ge_sum (d ++ ds0)) as Hge. rewrite sum_app in Hge.
  pose proof (sum_bounds ds0 Hv0) as Hb.
  split.
  - rewrite length_app. cbn [length]. lia.
  - intros _. rewrite app_assoc.
    pose proof (sum_hand_snoc_le (d ++ ds0) c) as Hle.
    unfold valid_card in Hc. lia.
Qed.

Lemma MyBlackjackEnv_step_draws_card_values
    (fuel : nat) (action : Z) (s : MyBlackjackEnv.t) :
  shoe_ok (MyBlackjackEnv.deck s) ->
  exists ds,
    MyBlackjackEnv.dealer (snd (MyBlackjackEnv.step fuel action s))
    = MyBlackjackEnv.dealer s ++ ds
    /\ Forall valid_card ds.
Proof.
  intros Hok.
  set (I := fun x : MyBlackjackEnv.t =>
    shoe_ok (MyBlackjackEnv.deck x)
    /\ exists ds, MyBlackjackEnv.dealer x = MyBlackjackEnv.dealer s ++ ds
                  /\ Forall valid_card ds).
  assert (H0 : I s).
  { split; [exact Hok|]. exists []. split; [now rewrite app_nil_r|constructor]. }
  refine (proj2 (MyBlackjackEnv_step_preserves I fuel action _ _ s H0)).
  - intros x _ [Hx Hd]. split; [now apply Deck_after_draw_ok|exact Hd].
  - intros x _ [Hx (ds & Hd & Hv)]. split; [now apply Deck_after_draw_ok|].
    exists (ds ++ [next_card (MyBlackjackEnv.deck x)]). cbn. rewrite Hd, app_assoc.
    split; [reflexivity|]. apply Forall_app. split; [exact Hv|].
    constructor; [now apply next_card_valid|constructor].
Qed.

(** X12: in a stick and in a double, in both simulators, the dealer takes
    at most [17 - sum(dealer)] cards (none when that is negative), all of
    them card values, and when the dealer took a card the final total is
    between 17 and 26. *)
Theorem dealer_stops_between_17_and_26 (fuel : nat) (action : Z) :
  action = 0 \/ action = 2 ->
  (forall s : BlackjackEnv.t,
     17 - sum (BlackjackEnv.dealer s) <= Z.of_nat fuel ->
     exists ds result s',
       BlackjackEnv.step fuel action s = (Ok result, s')
       /\ BlackjackEnv.dealer s' = BlackjackEnv.dealer s ++ ds
       /\ Forall valid_card ds
       /\ Z.of_nat (length ds) <= Z.max 0 (17 - sum (BlackjackEnv.dealer s))
       /\ (ds <> [] -> 17 <= sum_hand (BlackjackEnv.dealer s') <= 26))
  /\ (forall s : MyBlackjackEnv.t,
        shoe_ok (MyBlackjackEnv.deck s) ->
        17 - sum (MyBlackjackEnv.dealer s) <= Z.of_nat fuel ->
        exists ds result s',
          MyBlackjackEnv.step fuel action s = (Ok result, s')
          /\ MyBlackjackEnv.dealer s' = MyBlackjackEnv.dealer s ++ ds
          /\ Forall valid_card ds
          /\ Z.of_nat (length ds) <= Z.max 0 (17 - sum (MyBlackjackEnv.dealer s))
          /\ (ds <> [] -> 17 <= sum_hand (MyBlackjackEnv.dealer s') <= 26)).
Proof.
  intros Ha. split.
  - intros s Hfuel.
    assert (H : exists ds result s',
               BlackjackEnv.step fuel action s = (Ok result, s')
               /\ BlackjackEnv.dealer s' = BlackjackEnv.dealer s ++ ds
               /\ (forall i c, ds !! i = Some c -> valid_card c)
               /\ 17 <= sum_hand (BlackjackEnv.dealer s')
               /\ (forall k, (k < length ds)%nat ->
                     sum_hand (BlackjackEnv.dealer s ++ take k ds) < 17)).
    { destruct Ha as [-> | ->].
      - destruct (BlackjackEnv_stick_spec fuel s Hfuel)
          as (ds & u & s' & Hrun & _ & _ & _ & _ & Hdl & _ & _ & Hcards & Hfin & Hbelow).
        eexists ds, _, s'. split; [exact Hrun|]. split; [exact Hdl|].
        split; [|split; assumption].
        intros i c Hi. rewrite (Hcards i c Hi). apply coming_card_valid.
      - destruct (BlackjackEnv_stick_spec fuel (BlackjackEnv_after_player_draw s) Hfuel)
          as (ds & u & s' & Hrun & _ & _ & _ & _ & Hdl & _ & _ & Hcards & Hfin & Hbelow).
        eexists ds, _, s'. rewrite BlackjackEnv_double_is_stick, Hrun.
        split; [reflexivity|]. split; [exact Hdl|].
        split; [|split; assumption].
        intros i c Hi. rewrite (Hcards i c Hi). apply coming_card_valid. }
    destruct H as (ds & result & s' & Hrun & Hdl & Hv & Hfin & Hbelow).
    assert (Hvalid : Forall valid_card ds) by (apply Forall_lookup; exact Hv).
    destruct (dealer_final_total _ ds Hvalid Hbelow) as [Hn Htot].
    exists ds, result, s'. do 4 (split; [assumption|]).
    intros Hne. split; [exact Hfin|]. rewrite Hdl. now apply Htot.
  - intros s Hok Hfuel.
    destruct (MyBlackjackEnv_step_draws_card_values fuel action s Hok) as (ds0 & Hds0 & Hv0).
    assert (H : exists (evs : list (Z * bool)) result s',
               MyBlackjackEnv.step fuel action s = (Ok result, s')
               /\ MyBlackjackEnv.dealer s' = MyBlackjackEnv.dealer s ++ map fst evs
               /\ 17 <= sum_hand (MyBlackjackEnv.dealer s')
               /\ (forall k, (k < length evs)%nat ->
                     sum_hand (MyBlackjackEnv.dealer s ++ take k (map fst evs)) < 17)).
    { destruct Ha as [-> | ->].
      - destruct (MyBlackjackEnv_stick_spec fuel s Hok Hfuel)
          as (evs & u & s' & Hrun & _ & _ & _ & Hdl & _ & _ & Hfin & Hbelow).
        eexists evs, _, s'. repeat (split; [eassumption|]). exact Hbelow.
      - destruct (MyBlackjackEnv_double_spec fuel s Hok Hfuel)
          as (evs & obs & reward & s' & _ & Hrun & _ & _ & _ & Hdl & _ & _ & Hfin & Hbelow).
        eexists evs, _, s'. repeat (split; [eassumption|]). exact Hbelow. }
    destruct H as (evs & result & s' & Hrun & Hdl & Hfin & Hbelow).
    rewrite Hrun in Hds0. cbn [snd] in Hds0. rewrite Hdl in Hds0.
    apply app_inv_head in Hds0. subst ds0.
    assert (Hbelow' : forall k, (k < length (map fst evs))%nat ->
              sum_hand (MyBlackjackEnv.dealer s ++ take k (map fst evs)) < 17).
    { intros k Hk. apply Hbelow. now rewrite length_map in Hk. }
    destruct (dealer_final_total _ (map fst evs) Hv0 Hbelow') as [Hn Htot].
    exists (map fst evs), result, s'. do 4 (split; [assumption|]).
    intros Hne. split; [exact Hfin|]. rewrite Hdl. now apply Htot.
Qed.

(** ** Who wins when a hand is bust *)

Lemma score_played_dealer (d : list Z) :
  17 <= sum_hand d ->
  (is_bust d = true /\ score d = 0) \/ (is_bust d = false /\ 17 <= score d).
Proof.
  intros H. unfold score. destruct (is_bust d); [left|right]; split; (reflexivity || lia).
Qed.

(** The reward against a bust dealer: a live hand wins. *)
Lemma stick_reward_dealer_bust (natural : bool) (p d : list Z) :
  is_bust d = true -> 0 < score p ->
  stick_reward natural p d = if natural && is_natural p then (3 # 2)%Q else 1%Q.
Proof.
  intros Hb Hp. unfold stick_reward, sign_reward.
  assert (Hd : score d = 0) by (unfold score; now rewrite Hb). rewrite Hd.
  destruct (Z.gtb_spec (score p) 0); [|lia]. rewrite andb_true_r.
  destruct (natural && is_natural p); [reflexivity|].
  replace (Z.sgn (score p - 0)) with 1 by lia. reflexivity.
Qed.

(** The reward of a bust hand once the dealer has played: a push against a
    bust dealer, a loss otherwise. *)
Lemma stick_reward_player_bust (natural : bool) (p d : list Z) :
  is_bust p = true -> 17 <= sum_hand d ->
  stick_reward natural p d = if is_bust d then 0%Q else (-1)%Q.
Proof.
  intros Hb Hfin. unfold stick_reward, sign_reward.
  assert (Hp : score p = 0) by (unfold score; now rewrite Hb). rewrite Hp.
  destruct (score_played_dealer d Hfin) as [[-> Hd] | [-> Hd]].
  - rewrite Hd. rewrite andb_false_r. reflexivity.
  - destruct (Z.gtb_spec 0 (score d)); [lia|]. rewrite andb_false_r.
    replace (Z.sgn (0 - score d)) with (-1) by lia. reflexivity.
Qed.

(** X13: who wins when a hand is bust, in both simulators.  After a stick
    with a hand of positive score, a bust dealer pays the player 1, or 1.5
    for a natural when naturals pay.  After a double that busts the player,
    the reward is -2 if the dealer stands and 0 if the dealer busts as well:
    a double bust is a push, not a loss. *)
Theorem bust_hands_score_zero_in_the_comparison (fuel : nat) :
  (forall s : BlackjackEnv.t,
     17 - sum (BlackjackEnv.dealer s) <= Z.of_nat fuel ->
     exists obs reward s',
       BlackjackEnv.step fuel 0 s = (Ok (obs, reward, true, tt), s')
       /\ (0 < score (BlackjackEnv.player s) ->
           is_bust (BlackjackEnv.dealer s') = true ->
           reward = if BlackjackEnv.natural s && is_natural (BlackjackEnv.player s)
                    then (3 # 2)%Q else 1%Q))
  /\ (forall s : BlackjackEnv.t,
        17 - sum (BlackjackEnv.dealer s) <= Z.of_nat fuel ->
        exists obs reward s',
          BlackjackEnv.step fuel 2 s = (Ok (obs, reward, true, tt), s')
          /\ (is_bust (BlackjackEnv.player s') = true ->
              reward = if is_bust (BlackjackEnv.dealer s') then 0%Q else (-2 # 1)%Q))
  /\ (forall s : MyBlackjackEnv.t,
        shoe_ok (MyBlackjackEnv.deck s) ->
        17 - sum (MyBlackjackEnv.dealer s) <= Z.of_nat fuel ->
        exists obs reward reseted s',
          MyBlackjackEnv.step fuel 0 s = (Ok (obs, reward, true, reseted), s')
          /\ (0 < score (MyBlackjackEnv.player s) ->
              is_bust (MyBlackjackEnv.dealer s') = true ->
              reward = if MyBlackjackEnv.natural s && is_natural (MyBlackjackEnv.player s)
                       then (3 # 2)%Q else 1%Q))
  /\ (forall s : MyBlackjackEnv.t,
        shoe_ok (MyBlackjackEnv.deck s) ->
        17 - sum (MyBlackjackEnv.dealer s) <= Z.of_nat fuel ->
        exists obs reward reseted s',
          MyBlackjackEnv.step fuel 2 s = (Ok (obs, reward, true, reseted), s')
          /\ (is_bust (MyBlackjackEnv.player s') = true ->
              reward = if is_bust (MyBlackjackEnv.dealer s') then 0%Q else (-2 # 1)%Q)).
Proof.
  split; [|split; [|split]].
  - intros s Hfuel.
    destruct (BlackjackEnv_stick_spec fuel s Hfuel) as (ds & u & s' & Hrun & _).
    eexists _, _, s'. split; [exact Hrun|].
    intros Hp Hb. now apply stick_reward_dealer_bust.
  - intros s Hfuel.
    destruct (BlackjackEnv_double_spec fuel s Hfuel)
      as (ds & obs & reward & s' & _ & Hrun & Hr & _ & _ & _ & _ & Hfin & _).
    eexists obs, _, s'. split; [exact Hrun|].
    intros Hb. rewrite Hr, (stick_reward_player_bust _ _ _ Hb Hfin).
    destruct (is_bust (BlackjackEnv.dealer s')); reflexivity.
  - intros s Hok Hfuel.
    destruct (MyBlackjackEnv_stick_spec fuel s Hok Hfuel) as (evs & u & s' & Hrun & _).
    eexists _, _, _, s'. split; [exact Hrun|].
    intros Hp Hb. now apply stick_reward_dealer_bust.
  - intros s Hok Hfuel.
    destruct (MyBlackjackEnv_double_spec fuel s Hok Hfuel)
      as (evs & obs & reward & s' & _ & Hrun & Hr & _ & _ & _ & _ & _ & Hfin & _).
    eexists obs, _, _, s'. split; [exact Hrun|].
    intros Hb. rewrite Hr, (stick_reward_player_bust _ _ _ Hb Hfin).
    destruct (is_bust (MyBlackjackEnv.dealer s')); reflexivity.
Qed.

(** ** A finite-deck simulator that was never reset *)

(** X14: the constructor of [MyBlackjackEnv] deals no cards.  On a new
    environment a hit raises IndexError, at the dealer's missing first card,
    but only after it has drawn: the card is in the player's hand and in the
    exposure record, and the shoe is down to 51 cards.  A stick does return:
    the dealer plays from an empty hand against the player's score 0, and
    the reward is 0 if the dealer busts and -1 otherwise. *)
Theorem new_MyBlackjackEnv_has_no_hands (natural : bool) (generator : RandomState) :
  let s := MyBlackjackEnv.init natural generator in
  MyBlackjackEnv.player s = [] /\ MyBlackjackEnv.dealer s = []
  /\ MyBlackjackEnv.cards_to_index s = Ok (repeat 0 10)
  /\ (forall fuel, exists card s',
        MyBlackjackEnv.step fuel 1 s = (Raise IndexError, s')
        /\ In card (Deck.cards (MyBlackjackEnv.deck s))
        /\ MyBlackjackEnv.player s' = [card]
        /\ MyBlackjackEnv.dealer s' = []
        /\ MyBlackjackEnv.cards s' = [card]
        /\ length (Deck.cards (MyBlackjackEnv.deck s')) = 51%nat)
  /\ (forall fuel, (17 <= fuel)%nat ->
        exists obs reward reseted s',
          MyBlackjackEnv.step fuel 0 s = (Ok (obs, reward, true, reseted), s')
          /\ MyBlackjackEnv.player s' = []
          /\ reward = if is_bust (MyBlackjackEnv.dealer s') then 0%Q else (-1)%Q).
Proof.
  intros s.
  assert (Hok : shoe_ok (MyBlackjackEnv.deck s)).
  { split; [discriminate|apply full_shoe_valid]. }
  split; [reflexivity|]. split; [reflexivity|]. split; [reflexivity|]. split.
  - intros fuel. exists (next_card (MyBlackjackEnv.deck s)), (MyBlackjackEnv_after_player_draw s).
    split; [|split; [|split; [reflexivity|split; [reflexivity|split; [reflexivity|]]]]].
    + unfold MyBlackjackEnv.step, bind at 1.
      change (1 =? 1) with true. cbv iota. unfold bind at 1.
      rewrite (player_draws_eq _ _ (proj1 Hok)).
      unfold bind, gets, ret, load, MyBlackjackEnv.get_obs.
      destruct (is_bust (MyBlackjackEnv.player (MyBlackjackEnv_after_player_draw s)));
        reflexivity.
    + apply list_elem_of_In, list_elem_of_lookup.
      exists (next_index (MyBlackjackEnv.deck s)). apply next_card_lookup, Hok.
    + change (MyBlackjackEnv.deck (MyBlackjackEnv_after_player_draw s))
        with (Deck_after_draw (MyBlackjackEnv.deck s)).
      rewrite (Deck_after_draw_length _ (proj1 Hok)). reflexivity.
  - intros fuel Hf.
    destruct (MyBlackjackEnv_stick_spec fuel s Hok)
      as (evs & u & s' & Hrun & _ & _ & Hp & _ & _ & _ & Hfin & _).
    { change (MyBlackjackEnv.dealer s) with (@nil Z). rewrite sum_nil. lia. }
    eexists _, _, _, s'. split; [exact Hrun|]. split; [exact Hp|].
    unfold stick_reward, sign_reward.
    change (MyBlackjackEnv.player s) with (@nil Z).
    change (score []) with 0. change (is_natural []) with false.
    rewrite andb_false_r. cbn [andb].
    destruct (score_played_dealer _ Hfin) as [[-> Hd] | [-> Hd]].
    + rewrite Hd. reflexivity.
    + replace (Z.sgn (0 - score (MyBlackjackEnv.dealer s'))) with (-1) by lia. reflexivity.
Qed.

(** ** The reshuffle flag and the exposure record over a call *)

Lemma exposure_app (h evs : list (Z * bool)) :
  exposure (h ++ evs) = exposure_after (exposure h) evs.
Proof.
  revert h. induction evs as [|[c f] evs IH]; intros h.
  - now rewrite app_nil_r.
  - change (h ++ (c, f) :: evs) with (h ++ [(c, f)] ++ evs).
    rewrite app_assoc, IH, exposure_snoc. reflexivity.
Qed.

Lemma exposure_after_quiet (record : list Z) (evs : list (Z * bool)) :
  existsb snd evs = false -> exposure_after record evs = record ++ map fst evs.
Proof.
  revert record. induction evs as [|[c f] evs IH]; intros record Hq.
  - cbn. now rewrite app_nil_r.
  - cbn [existsb snd] in Hq. apply orb_false_elim in Hq as [-> Hq].
    unfold exposure_after in *. cbn [fold_left snd fst map].
    rewrite (IH _ Hq), <- app_assoc. reflexivity.
Qed.

(** X15: once the finite-deck simulator has been reset, a [step] with an
    action in {0, 1, 2} returns the flag true exactly when one of the draws
    it made refilled the shoe.  The exposure record after the call is the
    record before it brought up to date with those draws in order; when the
    flag is false, every card drawn has been added to the record and has left
    the shoe. *)
Theorem reshuffle_flag_tells_of_a_refill
    (s : MyBlackjackEnv.t) (fuel : nat) (action : Z) :
  in_play s ->
  action = 0 \/ action = 1 \/ action = 2 ->
  (15 <= fuel)%nat ->
  exists evs obs reward done reseted s',
    MyBlackjackEnv.step fuel action s = (Ok (obs, reward, done, reseted), s')
    /\ Deck.history (MyBlackjackEnv.deck s')
       = Deck.history (MyBlackjackEnv.deck s) ++ evs
    /\ reseted = existsb snd evs
    /\ MyBlackjackEnv.cards s' = exposure_after (MyBlackjackEnv.cards s) evs
    /\ (reseted = false ->
        MyBlackjackEnv.cards s' = MyBlackjackEnv.cards s ++ map fst evs
        /\ (length (Deck.cards (MyBlackjackEnv.deck s')) + length evs
            = length (Deck.cards (MyBlackjackEnv.deck s)))%nat).
Proof.
  intros Hp Ha Hf. pose proof (in_play_dealt s Hp) as Hdealt.
  pose proof (in_play_reachable s Hp) as Hr.
  destruct (reachable_consistent s Hr) as (Hok & _ & Hc & Hperm).
  destruct (dealt_upcard _ _ Hdealt) as (upcard & Hup & _).
  pose proof (dealt_fuel _ _ fuel Hdealt Hf) as Hfuel.
  assert (H : exists evs obs reward done s',
             MyBlackjackEnv.step fuel action s
             = (Ok (obs, reward, done, existsb snd evs), s')
             /\ Deck.history (MyBlackjackEnv.deck s')
                = Deck.history (MyBlackjackEnv.deck s) ++ evs).
  { destruct Ha as [-> | [-> | ->]].
    - destruct (MyBlackjackEnv_stick_spec fuel s Hok Hfuel)
        as (evs & u & s' & Hrun & _ & _ & _ & _ & Hh & _).
      eexists evs, _, _, _, s'. split; [exact Hrun|exact Hh].
    - pose proof (MyBlackjackEnv_hit_spec fuel s upcard (proj1 Hok) Hup) as Hrun.
      cbv zeta in Hrun.
      eexists [(next_card (MyBlackjackEnv.deck s), reshuffles (MyBlackjackEnv.deck s))],
        _, _, _, _.
      cbn [existsb snd]. rewrite orb_false_r. split; [exact Hrun|reflexivity].
    - destruct (MyBlackjackEnv_double_spec fuel s Hok Hfuel)
        as (evs & obs & reward & s' & _ & Hrun & _ & _ & _ & _ & Hh & _).
      eexists ((next_card (MyBlackjackEnv.deck s), reshuffles (MyBlackjackEnv.deck s))
               :: evs), _, _, _, s'.
      split; [exact Hrun|exact Hh]. }
  destruct H as (evs & obs & reward & done & s' & Hrun & Hh).
  assert (Hr' : reachable s').
  { replace s' with (snd (MyBlackjackEnv.step fuel action s)) by now rewrite Hrun.
    now constructor. }
  destruct (reachable_consistent s' Hr') as (_ & _ & Hc' & Hperm').
  assert (Hcards : MyBlackjackEnv.cards s' = exposure_after (MyBlackjackEnv.cards s) evs).
  { now rewrite Hc', Hh, exposure_app, <- Hc. }
  exists evs, obs, reward, done, (existsb snd evs), s'.
  split; [exact Hrun|]. split; [exact Hh|]. split; [reflexivity|].
  split; [exact Hcards|].
  intros Hq. rewrite (exposure_after_quiet _ _ Hq) in Hcards. split; [exact Hcards|].
  apply Permutation_length in Hperm, Hperm'.
  rewrite length_app in Hperm, Hperm'. rewrite Hcards, length_app, length_map in Hperm'.
  lia.
Qed.

(** X16: hands hold card values.  Every reachable state of the
    infinite-deck simulator, and every state of the finite-deck simulator
    once it has been reset, has at least two cards in each hand, all of them
    between 1 and 10; so the observation's dealer card exists. *)
Theorem hands_hold_card_values :
  (forall s : BlackjackEnv.t,
     BlackjackEnv_reachable s ->
     dealt (BlackjackEnv.player s) (BlackjackEnv.dealer s)
     /\ exists obs, BlackjackEnv.get_obs s = (Ok obs, s))
  /\ (forall s : MyBlackjackEnv.t,
        in_play s ->
        dealt (MyBlackjackEnv.player s) (MyBlackjackEnv.dealer s)
        /\ exists obs, MyBlackjackEnv.get_obs s = (Ok obs, s)).
Proof.
  split.
  - intros s Hr. pose proof (BlackjackEnv_reachable_dealt s Hr) as Hd.
    split; [exact Hd|]. destruct (dealt_upcard _ _ Hd) as (u & Hu & _).
    unfold BlackjackEnv.get_obs. destruct (BlackjackEnv.dealer s); [discriminate|eauto].
  - intros s Hp. pose proof (in_play_dealt s Hp) as Hd.
    split; [exact Hd|]. destruct (dealt_upcard _ _ Hd) as (u & Hu & _).
    unfold MyBlackjackEnv.get_obs. destruct (MyBlackjackEnv.dealer s); [discriminate|eauto].
Qed.

(** ** The further properties at work on the example tables *)

Lemma natural_is_ace_and_ten_witness :
  is_natural [10; 1] = true /\ score [10; 1] = 21.
Proof.
  assert (H : is_natural [10; 1] = true) by reflexivity.
  split; [exact H|].
  exact (proj2 (proj2 (proj2 (proj2 (natural_is_ace_and_ten [10; 1]) H)))).
Defined.

Lemma cmp_is_the_sign_witness : 21 > 20 /\ cmp 21 20 = 1%Q.
Proof.
  assert (H : 21 > 20) by reflexivity.
  split; [exact H|].
  exact (proj2 (proj1 (cmp_is_the_sign 21 20)) H).
Defined.

Lemma score_is_at_most_21_witness :
  usable_ace [1; 10] = true /\ is_bust [1; 10] = false /\ sum_hand [1; 10] <= 21.
Proof.
  assert (H : usable_ace [1; 10] = true) by reflexivity.
  split; [exact H|].
  exact (proj1 (proj2 (score_is_at_most_21 [1; 10])) H).
Defined.

Lemma BlackjackEnv_step_returns_an_observation_witness :
  BlackjackEnv_reachable example_table
  /\ (15 <= 15)%nat
  /\ exists result s',
       BlackjackEnv.step 15 1 example_table = (Ok result, s')
       /\ head (BlackjackEnv.dealer s') = Some 10.
Proof.
  assert (Hr : BlackjackEnv_reachable example_table)
    by (unfold example_table; constructor).
  assert (Hf : (15 <= 15)%nat) by constructor.
  split; [exact Hr|]. split; [exact Hf|].
  destruct (BlackjackEnv_step_returns_an_observation example_table 15 1 Hr
              (or_intror (or_introl eq_refl)) Hf)
    as (upcard & reward & done & s' & Hrun & Hup & Hup' & _).
  eexists _, s'. split; [exact Hrun|].
  rewrite Hup', <- Hup. reflexivity.
Defined.

Lemma Deck_draw_takes_the_card_it_returns_witness :
  Deck.cards (Deck.init first_card_generator) <> []
  /\ exists card reseted d',
       Deck.draw (Deck.init first_card_generator) = (Ok (card, reseted), d')
       /\ In card (Deck.cards (Deck.init first_card_generator)).
Proof.
  assert (H : Deck.cards (Deck.init first_card_generator) <> [])
    by (vm_compute; discriminate).
  split; [exact H|].
  destruct (Deck_draw_takes_the_card_it_returns _ H)
    as (card & reseted & d' & Hrun & Hin & _).
  exists card, reseted, d'. split; [exact Hrun|exact Hin].
Defined.

Lemma MyBlackjackEnv_reset_deals_from_the_shoe_witness :
  Deck.cards (MyBlackjackEnv.deck (MyBlackjackEnv.init true first_card_generator)) <> []
  /\ exists result s',
       MyBlackjackEnv.reset (MyBlackjackEnv.init true first_card_generator)
       = (Ok result, s')
       /\ length (MyBlackjackEnv.dealer s') = 2%nat
       /\ length (MyBlackjackEnv.player s') = 2%nat.
Proof.
  assert (H : Deck.cards (MyBlackjackEnv.deck
                            (MyBlackjackEnv.init true first_card_generator)) <> [])
    by (vm_compute; discriminate).
  split; [exact H|].
  destruct (MyBlackjackEnv_reset_deals_from_the_shoe _ H)
    as (c1 & f1 & c2 & f2 & c3 & f3 & c4 & f4 & s' & _ & Hrun & Hd & Hp & _).
  eexists _, s'. split; [exact Hrun|].
  rewrite Hd, Hp. split; reflexivity.
Defined.

Lemma MyBlackjackEnv_step_returns_an_observation_witness :
  in_play example_shoe_table
  /\ (15 <= 15)%nat
  /\ exists result s',
       MyBlackjackEnv.step 15 0 example_shoe_table = (Ok result, s')
       /\ Deck.cards (MyBlackjackEnv.deck s') <> [].
Proof.
  assert (Hp : in_play example_shoe_table)
    by (unfold example_shoe_table; apply in_play_first; constructor).
  assert (Hf : (15 <= 15)%nat) by constructor.
  split; [exact Hp|]. split; [exact Hf|].
  destruct (MyBlackjackEnv_step_returns_an_observation example_shoe_table 15 0 Hp
              (or_introl eq_refl) Hf)
    as (upcard & reward & done & reseted & s' & Hrun & _ & _ & _ & Hne).
  eexists _, s'. split; [exact Hrun|exact Hne].
Defined.

Lemma histogram_complements_the_shoe_witness :
  reachable example_shoe_table
  /\ exists index,
       MyBlackjackEnv.cards_to_index example_shoe_table = Ok index
       /\ sum index = 52 - Z.of_nat (length (Deck.cards (MyBlackjackEnv.deck example_shoe_table))).
Proof.
  assert (Hr : reachable example_shoe_table)
    by (unfold example_shoe_table; apply reachable_reset; constructor).
  split; [exact Hr|].
  destruct (histogram_complements_the_shoe example_shoe_table Hr)
    as (index & Hrun & _ & _ & _ & Hsum & _).
  exists index. split; [exact Hrun|exact Hsum].
Defined.

Lemma dealer_stops_between_17_and_26_witness :
  shoe_ok (MyBlackjackEnv.deck example_shoe_table)
  /\ 17 - sum (MyBlackjackEnv.dealer example_shoe_table) <= Z.of_nat 14
  /\ exists ds result s',
       MyBlackjackEnv.step 14 0 example_shoe_table = (Ok result, s')
       /\ MyBlackjackEnv.dealer s' = MyBlackjackEnv.dealer example_shoe_table ++ ds
       /\ Z.of_nat (length ds) <= 14.
Proof.
  assert (Hok : shoe_ok (MyBlackjackEnv.deck example_shoe_table)) by evaluate_shoe_ok.
  assert (H : 17 - sum (MyBlackjackEnv.dealer example_shoe_table) <= Z.of_nat 14)
    by (vm_compute; discriminate).
  split; [exact Hok|]. split; [exact H|].
  destruct (proj2 (dealer_stops_between_17_and_26 14 0 (or_introl eq_refl))
              example_shoe_table Hok H)
    as (ds & result & s' & Hrun & Hdl & _ & Hn & _).
  exists ds, result, s'. split; [exact Hrun|]. split; [exact Hdl|exact Hn].
Defined.

Lemma bust_hands_score_zero_in_the_comparison_witness :
  17 - sum (BlackjackEnv.dealer example_table) <= Z.of_nat 0
  /\ exists result s', BlackjackEnv.step 0 2 example_table = (Ok result, s').
Proof.
  assert (H : 17 - sum (BlackjackEnv.dealer example_table) <= Z.of_nat 0)
    by (vm_compute; discriminate).
  split; [exact H|].
  destruct (proj1 (proj2 (bust_hands_score_zero_in_the_comparison 0)) example_table H)
    as (obs & reward & s' & Hrun & _).
  eexists _, s'. exact Hrun.
Defined.

Lemma new_MyBlackjackEnv_has_no_hands_witness :
  (17 <= 17)%nat
  /\ exists result s',
       MyBlackjackEnv.step 17 0 (MyBlackjackEnv.init false first_card_generator)
       = (Ok result, s')
       /\ MyBlackjackEnv.player s' = [].
Proof.
  assert (Hf : (17 <= 17)%nat) by constructor.
  split; [exact Hf|].
  destruct (proj2 (proj2 (proj2 (proj2
              (new_MyBlackjackEnv_has_no_hands false first_card_generator)))) 17%nat Hf)
    as (obs & reward & reseted & s' & Hrun & Hp & _).
  eexists _, s'. split; [exact Hrun|exact Hp].
Defined.

Lemma reshuffle_flag_tells_of_a_refill_witness :
  in_play example_shoe_table
  /\ (15 <= 15)%nat
  /\ exists (evs : list (Z * bool)) obs reward done reseted s',
       MyBlackjackEnv.step 15 1 example_shoe_table = (Ok (obs, reward, done, reseted), s')
       /\ reseted = existsb snd evs.
Proof.
  assert (Hp : in_play example_shoe_table)
    by (unfold example_shoe_table; apply in_play_first; constructor).
  assert (Hf : (15 <= 15)%nat) by constructor.
  split; [exact Hp|]. split; [exact Hf|].
  destruct (reshuffle_flag_tells_of_a_refill example_shoe_table 15 1 Hp
              (or_intror (or_introl eq_refl)) Hf)
    as (evs & obs & reward & done & reseted & s' & Hrun & _ & Hflag & _).
  exists evs, obs, reward, done, reseted, s'. split; [exact Hrun|exact Hflag].
Defined.

Lemma hands_hold_card_values_witness :
  BlackjackEnv_reachable example_table
  /\ dealt (BlackjackEnv.player example_table) (BlackjackEnv.dealer example_table).
Proof.
  assert (Hr : BlackjackEnv_reachable example_table)
    by (unfold example_table; constructor).
  split; [exact Hr|].
  exact (proj1 (proj1 hands_hold_card_values example_table Hr)).
Defined.

(** ** Which cards a step draws, and where they go *)

Lemma bind_at {S A B : Type} (I : S -> Prop) (m : M S A) (k : A -> M S B) (s : S) :
  I (snd (m s)) -> (forall a, preserves I (k a)) -> I (snd (bind m k s)).
Proof.
  intros Hm Hk. unfold bind. destruct (m s) as [[a|e] s']; [now apply Hk|exact Hm].
Qed.

Lemma BlackjackEnv_player_draw_at {B : Type} (k : M BlackjackEnv.t B) (s : BlackjackEnv.t) :
  bind BlackjackEnv.draw (fun c =>
    bind (modify (fun s => BlackjackEnv.set_player (BlackjackEnv.player s ++ [c]) s))
         (fun _ => k)) s
  = k (BlackjackEnv_after_player_draw s).
Proof.
  unfold bind, BlackjackEnv.draw, modify, BlackjackEnv_after_player_draw.
  destruct (draw_card (BlackjackEnv.np_random s)) as [c r]. reflexivity.
Qed.

(** A property that holds before a [step], holds once the player has drawn
    from there, and is kept by the dealer's draws, holds after the [step],
    whatever the action, the fuel and the outcome: the player's draw, if
    any, is the first thing a step does. *)
Lemma BlackjackEnv_step_from (I : BlackjackEnv.t -> Prop)
    (fuel : nat) (action : Z) (s : BlackjackEnv.t) :
  I s ->
  I (BlackjackEnv_after_player_draw s) ->
  (forall x, I x -> I (BlackjackEnv_after_dealer_draw x)) ->
  I (snd (BlackjackEnv.step fuel action s)).
Proof.
  intros H0 Hp Hd.
  assert (Hloop : forall u, preserves I (while fuel BlackjackEnv.dealer_below_17
                                          BlackjackEnv.dealer_draws u)).
  { intros u. apply preserves_while. intros u'.
    now apply BlackjackEnv_dealer_draws_preserves. }
  assert (Hscore : preserves I
            (bind (gets BlackjackEnv.player) (fun p =>
             bind (gets BlackjackEnv.dealer) (fun d =>
             bind (gets BlackjackEnv.natural) (fun nat =>
               ret (Some (if nat && is_natural p && Qeq_bool (cmp (score p) (score d)) 1
                          then (3 # 2)%Q else cmp (score p) (score d)), Some true)))))).
  { repeat (apply preserves_bind; [apply preserves_gets|]; intros ?). apply preserves_ret. }
  assert (Hscore2 : preserves I
            (bind (gets BlackjackEnv.player) (fun p =>
             bind (gets BlackjackEnv.dealer) (fun d =>
             bind (gets BlackjackEnv.natural) (fun nat =>
               ret (Some ((if nat && is_natural p && Qeq_bool (cmp (score p) (score d)) 1
                           then (3 # 2)%Q else cmp (score p) (score d)) * 2)%Q,
                    Some true)))))).
  { repeat (apply preserves_bind; [apply preserves_gets|]; intros ?). apply preserves_ret. }
  unfold BlackjackEnv.step.
  unfold bind at 1, gets at 1.
  destruct (Discrete_contains (BlackjackEnv.action_space s) action); [|exact H0].
  unfold bind at 1, ret at 1.
  apply bind_at.
  - destruct (action =? 1); [|destruct (action =? 0); [|destruct (action =? 2)]].
    + rewrite BlackjackEnv_player_draw_at.
      revert Hp. apply preserves_bind; [apply preserves_gets|]. intros p.
      destruct (is_bust p); apply preserves_ret.
    + revert H0. apply preserves_bind; [apply Hloop|]. intros _. exact Hscore.
    + rewrite BlackjackEnv_player_draw_at.
      revert Hp. apply preserves_bind; [apply Hloop|]. intros _. exact Hscore2.
    + exact H0.
  - intros [reward done].
    apply preserves_bind; [apply BlackjackEnv_preserves_get_obs|]. intros obs.
    apply preserves_bind; [apply preserves_load|]. intros rw.
    apply preserves_bind; [apply preserves_load|]. intros dn.
    apply preserves_ret.
Qed.

Lemma draw_card_coming (r r' : RandomState) (n : nat) :
  tape r' = tape r -> pos r' = (pos r + n)%nat ->
  fst (draw_card r') = coming_card r n.
Proof.
  intros Ht Hp. unfold coming_card. destruct r' as [tp p]. cbn in Ht, Hp. now subst.
Qed.

Lemma map_seq_snoc {A : Type} (f : nat -> A) (n : nat) :
  map f (seq 0 (S n)) = map f (seq 0 n) ++ [f n].
Proof. rewrite seq_S, map_app. reflexivity. Qed.

(** The cards a [step] of the infinite-deck simulator appends are the cards
    the generator yields, in the order it yields them, the player's first. *)
Lemma BlackjackEnv_step_accounts (fuel : nat) (action : Z) (s : BlackjackEnv.t) :
  let r := BlackjackEnv.np_random s in
  let s' := snd (BlackjackEnv.step fuel action s) in
  exists ps ds,
    BlackjackEnv.player s' = BlackjackEnv.player s ++ ps
    /\ BlackjackEnv.dealer s' = BlackjackEnv.dealer s ++ ds
    /\ (length ps <= 1)%nat
    /\ ps ++ ds = map (coming_card r) (seq 0 (length ps + length ds))
    /\ tape (BlackjackEnv.np_random s') = tape r
    /\ pos (BlackjackEnv.np_random s') = (pos r + (length ps + length ds))%nat
    /\ BlackjackEnv.natural s' = BlackjackEnv.natural s
    /\ BlackjackEnv.double s' = BlackjackEnv.double s.
Proof.
  intros r s'. subst s'. subst r. set (r := BlackjackEnv.np_random s).
  set (I := fun x : BlackjackEnv.t =>
    exists ps ds,
      BlackjackEnv.player x = BlackjackEnv.player s ++ ps
      /\ BlackjackEnv.dealer x = BlackjackEnv.dealer s ++ ds
      /\ (length ps <= 1)%nat
      /\ ps ++ ds = map (coming_card r) (seq 0 (length ps + length ds))
      /\ tape (BlackjackEnv.np_random x) = tape r
      /\ pos (BlackjackEnv.np_random x) = (pos r + (length ps + length ds))%nat
      /\ BlackjackEnv.natural x = BlackjackEnv.natural s
      /\ BlackjackEnv.double x = BlackjackEnv.double s).
  apply (BlackjackEnv_step_from I).
  - exists [], []. rewrite !app_nil_r. cbn [length seq map Nat.add].
    fold r. rewrite Nat.add_0_r. repeat split; (reflexivity || lia).
  - exists [fst (draw_card r)], []. unfold BlackjackEnv_after_player_draw.
    fold r. rewrite draw_card_snd. cbn -[r]. rewrite app_nil_r, coming_card_0.
    repeat split; (reflexivity || lia).
  - intros x (ps & ds & Hp & Hd & Hlen & Hcards & Ht & Hpos & Hn & Hdb).
    exists ps, (ds ++ [fst (draw_card (BlackjackEnv.np_random x))]).
    unfold BlackjackEnv_after_dealer_draw. rewrite draw_card_snd. cbn -[r].
    rewrite (draw_card_coming r _ _ Ht Hpos), Hd, length_app. cbn [length].
    replace (length ps + (length ds + 1))%nat with (S (length ps + length ds)) by lia.
    rewrite map_seq_snoc, <- Hcards, <- !app_assoc.
    repeat split; try assumption; try reflexivity; lia.
Qed.

Lemma draws_snoc (n : nat) :
  forall (d d' : Deck.t) (evs : list (Z * bool)),
    draws n d = (Ok evs, d') ->
    Deck.cards d' <> [] ->
    draws (S n) d = (Ok (evs ++ [(next_card d', reshuffles d')]), Deck_after_draw d').
Proof.
  induction n as [|n IH]; intros d d' evs Hrun Hne.
  - cbn in Hrun. injection Hrun as <- <-. now rewrite (draws_S 0 d Hne).
  - destruct (cards_empty_dec d) as [He|Hd].
    + cbn [draws] in Hrun. unfold bind at 1 in Hrun.
      rewrite (Deck_draw_empty d He) in Hrun. discriminate.
    + rewrite (draws_S n d Hd) in Hrun.
      destruct (draws n (Deck_after_draw d)) as [[es|e] d''] eqn:E; [|discriminate].
      injection Hrun as <- <-.
      rewrite (draws_S (S n) d Hd), (IH _ _ _ E Hne). reflexivity.
Qed.

(** The same for the finite-deck simulator, where the first draw of a step,
    if the player makes one, happens in the state the step starts from. *)
Lemma MyBlackjackEnv_step_from (I : MyBlackjackEnv.t -> Prop)
    (fuel : nat) (action : Z) (s : MyBlackjackEnv.t) :
  I s ->
  (Deck.cards (MyBlackjackEnv.deck s) <> [] -> I (MyBlackjackEnv_after_player_draw s)) ->
  (forall x, Deck.cards (MyBlackjackEnv.deck x) <> [] ->
             I x -> I (MyBlackjackEnv_after_dealer_draw x)) ->
  I (snd (MyBlackjackEnv.step fuel action s)).
Proof.
  intros H0 Hp Hd.
  assert (Hdd : forall r, preserves I (MyBlackjackEnv.dealer_draws r)).
  { intros r x H. destruct (cards_empty_dec (MyBlackjackEnv.deck x)) as [He|Hne].
    - now rewrite (dealer_draws_empty r x He).
    - rewrite (dealer_draws_eq r x Hne). now apply Hd. }
  assert (Hds : forall r, preserves I (MyBlackjackEnv.dealer_draws_stick r)).
  { intros r x H. rewrite dealer_draws_stick_eq. now apply Hdd. }
  assert (Hfirst : forall (B : Type) (k : bool -> M MyBlackjackEnv.t B),
            (forall r, preserves I (k r)) ->
            I (snd (bind (MyBlackjackEnv.player_draws false) k s))).
  { intros B k Hk. unfold bind.
    destruct (cards_empty_dec (MyBlackjackEnv.deck s)) as [He|Hne].
    - now rewrite (player_draws_empty false s He).
    - rewrite (player_draws_eq false s Hne). apply Hk, Hp, Hne. }
  unfold MyBlackjackEnv.step.
  apply bind_at.
  - destruct (action =? 1); [|destruct (action =? 0); [|destruct (action =? 2)]].
    + apply Hfirst. intros r.
      apply preserves_bind; [apply preserves_gets|]. intros p.
      destruct (is_bust p); apply preserves_ret.
    + revert H0. apply preserves_bind; [apply preserves_while; apply Hds|].
      intros r. repeat (apply preserves_bind; [apply preserves_gets|]; intros ?).
      apply preserves_ret.
    + apply Hfirst. intros r.
      apply preserves_bind; [apply preserves_while; apply Hdd|].
      intros r'. repeat (apply preserves_bind; [apply preserves_gets|]; intros ?).
      apply preserves_ret.
    + exact H0.
  - intros [[reward done] r].
    apply preserves_bind; [apply preserves_get_obs|]. intros obs.
    apply preserves_bind; [apply preserves_load|]. intros rw.
    apply preserves_bind; [apply preserves_load|]. intros dn.
    apply preserves_ret.
Qed.

(** The cards a [step] of the finite-deck simulator appends are the cards
    its calls of [Deck.draw] return, in the order of the calls, the player's
    first; the shoe it leaves is the one those calls leave. *)
Lemma MyBlackjackEnv_step_accounts (fuel : nat) (action : Z) (s : MyBlackjackEnv.t) :
  let s' := snd (MyBlackjackEnv.step fuel action s) in
  exists evs ps ds,
    Deck.history (MyBlackjackEnv.deck s') = Deck.history (MyBlackjackEnv.deck s) ++ evs
    /\ draws (length evs) (MyBlackjackEnv.deck s) = (Ok evs, MyBlackjackEnv.deck s')
    /\ MyBlackjackEnv.player s' = MyBlackjackEnv.player s ++ ps
    /\ MyBlackjackEnv.dealer s' = MyBlackjackEnv.dealer s ++ ds
    /\ (length ps <= 1)%nat
    /\ ps ++ ds = map fst evs
    /\ MyBlackjackEnv.natural s' = MyBlackjackEnv.natural s.
Proof.
  intros s'. subst s'.
  set (I := fun x : MyBlackjackEnv.t =>
    exists evs ps ds,
      Deck.history (MyBlackjackEnv.deck x) = Deck.history (MyBlackjackEnv.deck s) ++ evs
      /\ draws (length evs) (MyBlackjackEnv.deck s) = (Ok evs, MyBlackjackEnv.deck x)
      /\ MyBlackjackEnv.player x = MyBlackjackEnv.player s ++ ps
      /\ MyBlackjackEnv.dealer x = MyBlackjackEnv.dealer s ++ ds
      /\ (length ps <= 1)%nat
      /\ ps ++ ds = map fst evs
      /\ MyBlackjackEnv.natural x = MyBlackjackEnv.natural s).
  apply (MyBlackjackEnv_step_from I).
  - exists [], [], []. rewrite !app_nil_r. repeat split; (reflexivity || (cbn; lia)).
  - intros Hne.
    exists [(next_card (MyBlackjackEnv.deck s), reshuffles (MyBlackjackEnv.deck s))],
      [next_card (MyBlackjackEnv.deck s)], [].
    cbn [length]. rewrite (draws_S 0 _ Hne). rewrite app_nil_r.
    repeat split; (reflexivity || (cbn; lia)).
  - intros x Hne (evs & ps & ds & Hh & Hdraws & Hp & Hd & Hlen & Hcards & Hn).
    exists (evs ++ [(next_card (MyBlackjackEnv.deck x), reshuffles (MyBlackjackEnv.deck x))]),
      ps, (ds ++ [next_card (MyBlackjackEnv.deck x)]).
    rewrite length_app. cbn [length]. rewrite Nat.add_1_r.
    rewrite (draws_snoc _ _ _ _ Hdraws Hne), map_app, <- Hcards.
    cbn. rewrite Hh, Hd, <- !app_assoc.
    repeat split; try assumption; reflexivity.
Qed.

(** ** A stick, card by card *)

(** C3: a stick appends nothing to the player's hand, has the dealer draw
    until the dealer's total is at least 17, and returns done with the sign
    of the score difference as reward, or 1.5 when naturals pay, the
    player's hand is a natural and the player wins.  The cards the dealer
    takes are the ones drawn: the cards the generator yields next, or the
    results of the calls of [Deck.draw] on the shoe, in their order. *)
Theorem stick_plays_the_dealer_and_scores :
  (forall (fuel : nat) (s : BlackjackEnv.t),
     17 - sum (BlackjackEnv.dealer s) <= Z.of_nat fuel ->
     exists ds obs reward s',
       BlackjackEnv.step fuel 0 s = (Ok (obs, reward, true, tt), s')
       /\ BlackjackEnv.player s' = BlackjackEnv.player s
       /\ BlackjackEnv.dealer s' = BlackjackEnv.dealer s ++ ds
       /\ pos (BlackjackEnv.np_random s')
          = (pos (BlackjackEnv.np_random s) + length ds)%nat
       /\ (forall k, (k < length ds)%nat ->
             sum_hand (BlackjackEnv.dealer s ++ take k ds) < 17)
       /\ 17 <= sum_hand (BlackjackEnv.dealer s')
       /\ ((BlackjackEnv.natural s = true
            /\ is_natural (BlackjackEnv.player s') = true
            /\ score (BlackjackEnv.player s') > score (BlackjackEnv.dealer s')
            /\ reward = (3 # 2)%Q)
           \/ (~ (BlackjackEnv.natural s = true
                  /\ is_natural (BlackjackEnv.player s') = true
                  /\ score (BlackjackEnv.player s') > score (BlackjackEnv.dealer s'))
               /\ reward = inject_Z (Z.sgn (score (BlackjackEnv.player s')
                                            - score (BlackjackEnv.dealer s')))
               /\ (reward = (-1)%Q \/ reward = 0%Q \/ reward = 1%Q)))
       /\ (forall i c, ds !! i = Some c ->
             c = coming_card (BlackjackEnv.np_random s) i)
       /\ ds = map (coming_card (BlackjackEnv.np_random s)) (seq 0 (length ds))
       /\ tape (BlackjackEnv.np_random s') = tape (BlackjackEnv.np_random s)
       /\ BlackjackEnv.natural s' = BlackjackEnv.natural s
       /\ BlackjackEnv.double s' = BlackjackEnv.double s
       /\ exists upcard,
            head (BlackjackEnv.dealer s') = Some upcard
            /\ obs = (sum_hand (BlackjackEnv.player s), upcard,
                      usable_ace (BlackjackEnv.player s)))
  /\ (forall (fuel : nat) (s : MyBlackjackEnv.t),
        shoe_ok (MyBlackjackEnv.deck s) ->
        17 - sum (MyBlackjackEnv.dealer s) <= Z.of_nat fuel ->
        exists evs obs reward s',
          MyBlackjackEnv.step fuel 0 s = (Ok (obs, reward, true, existsb snd evs), s')
          /\ MyBlackjackEnv.player s' = MyBlackjackEnv.player s
          /\ MyBlackjackEnv.dealer s' = MyBlackjackEnv.dealer s ++ map fst evs
          /\ Deck.history (MyBlackjackEnv.deck s')
             = Deck.history (MyBlackjackEnv.deck s) ++ evs
          /\ (forall k, (k < length evs)%nat ->
                sum_hand (MyBlackjackEnv.dealer s ++ take k (map fst evs)) < 17)
          /\ 17 <= sum_hand (MyBlackjackEnv.dealer s')
          /\ ((MyBlackjackEnv.natural s = true
               /\ is_natural (MyBlackjackEnv.player s') = true
               /\ score (MyBlackjackEnv.player s') > score (MyBlackjackEnv.dealer s')
               /\ reward = (3 # 2)%Q)
              \/ (~ (MyBlackjackEnv.natural s = true
                     /\ is_natural (MyBlackjackEnv.player s') = true
                     /\ score (MyBlackjackEnv.player s') > score (MyBlackjackEnv.dealer s'))
                  /\ reward = inject_Z (Z.sgn (score (MyBlackjackEnv.player s')
                                               - score (MyBlackjackEnv.dealer s')))
                  /\ (reward = (-1)%Q \/ reward = 0%Q \/ reward = 1%Q)))
          /\ draws (length evs) (MyBlackjackEnv.deck s) = (Ok evs, MyBlackjackEnv.deck s')
          /\ MyBlackjackEnv.natural s' = MyBlackjackEnv.natural s
          /\ exists upcard,
               head (MyBlackjackEnv.dealer s') = Some upcard
               /\ obs = (sum_hand (MyBlackjackEnv.player s), upcard,
                         usable_ace (MyBlackjackEnv.player s))).
Proof.
  split.
  - intros fuel s Hfuel.
    destruct (BlackjackEnv_stick_spec fuel s Hfuel)
      as (ds & upcard & s' & Hrun & Hup & Hn & Hd & Hp & Hdl & Ht & Hpos & Hcards & Hfin & Hbelow).
    eexists ds, _, _, s'. split; [exact Hrun|].
    do 5 (split; [assumption|]). split; [|split; [exact Hcards|]].
    + rewrite Hp.
      destruct (stick_reward_cases (BlackjackEnv.natural s) (BlackjackEnv.player s)
                  (BlackjackEnv.dealer s')) as [H|[H ->]]; [left; exact H|right].
      split; [exact H|]. split; [reflexivity|apply sign_reward_cases].
    + split.
      { apply list_eq. intros i. rewrite list_lookup_fmap.
        destruct (ds !! i) as [c|] eqn:Hi.
        - rewrite (Hcards i c Hi).
          assert (Hlt : (i < length ds)%nat) by (apply lookup_lt_is_Some; eauto).
          rewrite (lookup_seq_lt _ _ _ Hlt). reflexivity.
        - apply lookup_ge_None in Hi. rewrite lookup_seq_ge by lia. reflexivity. }
      do 3 (split; [assumption|]). exists upcard. split; [exact Hup|reflexivity].
  - intros fuel s Hok Hfuel.
    destruct (MyBlackjackEnv_stick_spec fuel s Hok Hfuel)
      as (evs & upcard & s' & Hrun & Hup & Hn & Hp & Hdl & Hh & Hok' & Hfin & Hbelow).
    eexists evs, _, _, s'. split; [exact Hrun|].
    do 5 (split; [assumption|]). split; [|split; [|split; [exact Hn|]]].
    + rewrite Hp.
      destruct (stick_reward_cases (MyBlackjackEnv.natural s) (MyBlackjackEnv.player s)
                  (MyBlackjackEnv.dealer s')) as [H|[H ->]]; [left; exact H|right].
      split; [exact H|]. split; [reflexivity|apply sign_reward_cases].
    + destruct (MyBlackjackEnv_step_accounts fuel 0 s)
        as (evs2 & ps & ds & Hh2 & Hdraws & _).
      rewrite Hrun in Hh2, Hdraws. cbn [snd] in Hh2, Hdraws.
      rewrite Hh in Hh2. apply app_inv_head in Hh2. now subst evs2.
    + exists upcard. split; [exact Hup|reflexivity].
Qed.

Lemma stick_plays_the_dealer_and_scores_witness :
  17 - sum (BlackjackEnv.dealer example_low_table) <= Z.of_nat 1
  /\ exists obs s',
       BlackjackEnv.step 1 0 example_low_table = (Ok (obs, (-1)%Q, true, tt), s')
       /\ BlackjackEnv.player s' = [10; 9]
       /\ BlackjackEnv.dealer s' = [10; 6; 4].
Proof.
  assert (H : 17 - sum (BlackjackEnv.dealer example_low_table) <= Z.of_nat 1)
    by (vm_compute; discriminate).
  split; [exact H|].
  destruct (proj1 stick_plays_the_dealer_and_scores 1%nat example_low_table H)
    as (ds & obs & reward & s' & Hrun & _).
  pose proof Hrun as Hv. vm_compute in Hv.
  injection Hv as Hobs Hreward Hs'.
  exists obs, s'. rewrite Hreward. split; [exact Hrun|].
  rewrite <- Hs'. split; reflexivity.
Defined.

(** ** A hit before the first reset *)


(** ** Every card drawn ends in a hand *)

(** X6: whatever the action, the fuel and the outcome, a [step] of the
    infinite-deck simulator only appends to the hands and keeps the
    configuration, and every card it drew is in a hand: the cards appended,
    the player's (at most one) before the dealer's, are exactly the cards
    the generator yielded, in the order it yielded them, and the generator
    has advanced by their number. *)
Theorem BlackjackEnv_step_only_appends (fuel : nat) (action : Z) (s : BlackjackEnv.t) :
  let r := BlackjackEnv.np_random s in
  let s' := snd (BlackjackEnv.step fuel action s) in
  exists ps ds,
    BlackjackEnv.player s' = BlackjackEnv.player s ++ ps
    /\ BlackjackEnv.dealer s' = BlackjackEnv.dealer s ++ ds
    /\ (length ps <= 1)%nat
    /\ ps ++ ds = map (coming_card r) (seq 0 (length ps + length ds))
    /\ pos (BlackjackEnv.np_random s') = (pos r + (length ps + length ds))%nat
    /\ tape (BlackjackEnv.np_random s') = tape r
    /\ BlackjackEnv.natural s' = BlackjackEnv.natural s
    /\ BlackjackEnv.double s' = BlackjackEnv.double s
    /\ BlackjackEnv.player s `prefix_of` BlackjackEnv.player s'
    /\ BlackjackEnv.dealer s `prefix_of` BlackjackEnv.dealer s'
    /\ (pos (BlackjackEnv.np_random s') + length (BlackjackEnv.player s)
        + length (BlackjackEnv.dealer s)
        = pos r + length (BlackjackEnv.player s') + length (BlackjackEnv.dealer s'))%nat.
Proof.
  intros r s'.
  destruct (BlackjackEnv_step_accounts fuel action s)
    as (ps & ds & Hp & Hd & Hlen & Hcards & Ht & Hpos & Hn & Hdb).
  fold r s' in Hp, Hd, Hcards, Ht, Hpos, Hn, Hdb.
  exists ps, ds. do 8 (split; [assumption|]).
  split; [exists ps; exact Hp|]. split; [exists ds; exact Hd|].
  rewrite Hp, Hd, Hpos, !length_app. lia.
Qed.

(** X8: whatever the action, the fuel and the outcome, a [step] of the
    finite-deck simulator only appends to the hands and keeps the [natural]
    flag, and every card it drew from the shoe is in a hand: the cards
    appended, the player's (at most one) before the dealer's, are exactly the
    cards its calls of [Deck.draw] returned, in the order of the calls, and
    the shoe it leaves is the one those calls leave. *)
Theorem MyBlackjackEnv_step_only_appends
    (fuel : nat) (action : Z) (s : MyBlackjackEnv.t) :
  let s' := snd (MyBlackjackEnv.step fuel action s) in
  exists evs ps ds,
    Deck.history (MyBlackjackEnv.deck s') = Deck.history (MyBlackjackEnv.deck s) ++ evs
    /\ draws (length evs) (MyBlackjackEnv.deck s) = (Ok evs, MyBlackjackEnv.deck s')
    /\ MyBlackjackEnv.player s' = MyBlackjackEnv.player s ++ ps
    /\ MyBlackjackEnv.dealer s' = MyBlackjackEnv.dealer s ++ ds
    /\ (length ps <= 1)%nat
    /\ ps ++ ds = map fst evs
    /\ MyBlackjackEnv.natural s' = MyBlackjackEnv.natural s
    /\ MyBlackjackEnv.player s `prefix_of` MyBlackjackEnv.player s'
    /\ MyBlackjackEnv.dealer s `prefix_of` MyBlackjackEnv.dealer s'
    /\ Deck.history (MyBlackjackEnv.deck s)
       `prefix_of` Deck.history (MyBlackjackEnv.deck s')
    /\ (length (Deck.history (MyBlackjackEnv.deck s'))
        + length (MyBlackjackEnv.player s) + length (MyBlackjackEnv.dealer s)
        = length (Deck.history (MyBlackjackEnv.deck s))
          + length (MyBlackjackEnv.player s') + length (MyBlackjackEnv.dealer s'))%nat.
Proof.
  intros s'.
  destruct (MyBlackjackEnv_step_accounts fuel action s)
    as (evs & ps & ds & Hh & Hdraws & Hp & Hd & Hlen & Hcards & Hn).
  fold s' in Hh, Hdraws, Hp, Hd, Hn.
  exists evs, ps, ds. do 7 (split; [assumption|]).
  split; [exists ps; exact Hp|]. split; [exists ds; exact Hd|].
  split; [exists evs; exact Hh|].
  apply (f_equal (@length Z)) in Hcards. rewrite length_map, length_app in Hcards.
  rewrite Hh, Hp, Hd, !length_app. lia.
Qed.
